(** * community.libvirt [virt] module: the reconciliation core

    A shallow embedding of [plugins/modules/virt.py] and the properties of its
    [core] function.  The hypervisor (libvirt) is an external collaborator: it
    is modelled as a table of domains keyed by name together with an oracle
    telling which driver requests it refuses.  The Python code is embedded in a
    state-and-exception monad that threads the hypervisor, the [Virt] object's
    [conn] attribute, the trace of driver events and the module's warnings. *)

From Stdlib Require Import ZArith String Ascii List DecimalString.
From stdpp Require Import base option list strings gmap fin_maps.

Open Scope Z_scope.
Open Scope string_scope.

(** ** Python values that end up in a module result *)

#[warnings="-register-all"]
Inductive pyval : Type :=
| VNone
| VBool (b : bool)
| VInt (z : Z)
| VStr (s : string)
| VList (l : list pyval)
| VDict (d : list (string * pyval)).

(** A Python [dict] with string keys, in insertion order. *)
Definition pydict : Type := list (string * pyval).

Fixpoint dict_get (k : string) (d : pydict) : option pyval :=
  match d with
  | [] => None
  | (k', v) :: d' => if String.eqb k' k then Some v else dict_get k d'
  end.

(** [d[k] = v]: overwrite in place when the key is there, append otherwise. *)
Fixpoint dict_set (k : string) (v : pyval) (d : pydict) : pydict :=
  match d with
  | [] => [(k, v)]
  | (k', v') :: d' =>
      if String.eqb k' k then (k, v) :: d' else (k', v') :: dict_set k v d'
  end.

(** [isinstance(res, dict)] followed by the wrapping [res = {command: res}]. *)
Definition wrap_result (command : string) (res : pyval) : pydict :=
  match res with
  | VDict d => d
  | _ => [(command, res)]
  end.

(** Truth value of an optional string parameter ([if state:], [not guest]). *)
Definition truthy (o : option string) : bool :=
  match o with
  | Some s => negb (String.eqb s "")
  | None => false
  end.

(** [str(n)] for an integer. *)
Definition str_of_Z (z : Z) : string := NilZero.string_of_int (Z.to_int z).

(** ** Module constants *)

Definition VIRT_FAILED : Z := 1.
Definition VIRT_SUCCESS : Z := 0.
Definition VIRT_UNAVAILABLE : Z := 2.

Definition VM_COMMANDS : list string :=
  ["create"; "define"; "destroy"; "get_xml"; "pause"; "shutdown"; "status";
   "start"; "stop"; "undefine"; "unpause"].
Definition HOST_COMMANDS : list string :=
  ["freemem"; "info"; "list_vms"; "nodeinfo"; "virttype"].
Definition ALL_COMMANDS : list string := VM_COMMANDS ++ HOST_COMMANDS.

Definition VIRT_STATE_NAME_MAP : gmap Z string :=
  list_to_map
    [(0, "running"); (1, "running"); (2, "running"); (3, "paused");
     (4, "shutdown"); (5, "shutdown"); (6, "crashed")].

Definition ENTRY_UNDEFINE_FLAGS_MAP : gmap string Z :=
  list_to_map
    [("managed_save", 1); ("snapshots_metadata", 2); ("nvram", 4);
     ("keep_nvram", 8); ("checkpoints_metadata", 16)].

Definition ALL_FLAGS : list string :=
  ["managed_save"; "snapshots_metadata"; "nvram"; "keep_nvram";
   "checkpoints_metadata"].

(** [VIRT_STATE_NAME_MAP.get(state, "unknown")] *)
Definition state_name (code : Z) : string :=
  default "unknown" (VIRT_STATE_NAME_MAP !! code).

(** [libvirt.VIR_DOMAIN_XML_INACTIVE] *)
Definition VIR_DOMAIN_XML_INACTIVE : Z := 2.

(** ** The hypervisor *)

(** What libvirt knows about one domain. *)
Record dominfo : Type := DomInfo {
  di_state : Z;             (* info()[0] *)
  di_maxMem : Z;            (* info()[1] *)
  di_memory : Z;            (* info()[2] *)
  di_nrVirtCpu : Z;         (* info()[3] *)
  di_cpuTime : Z;           (* info()[4] *)
  di_autostart : bool;      (* autostart() *)
  di_xml : string;          (* XMLDesc(0) *)
  di_xml_inactive : string  (* XMLDesc(VIR_DOMAIN_XML_INACTIVE) *)
}.

Definition set_state (code : Z) (d : dominfo) : dominfo :=
  DomInfo code (di_maxMem d) (di_memory d) (di_nrVirtCpu d) (di_cpuTime d)
          (di_autostart d) (di_xml d) (di_xml_inactive d).

Definition set_autostart_bit (b : bool) (d : dominfo) : dominfo :=
  DomInfo (di_state d) (di_maxMem d) (di_memory d) (di_nrVirtCpu d)
          (di_cpuTime d) b (di_xml d) (di_xml_inactive d).

Definition set_inactive_xml (x : string) (d : dominfo) : dominfo :=
  DomInfo (di_state d) (di_maxMem d) (di_memory d) (di_nrVirtCpu d)
          (di_cpuTime d) (di_autostart d) (di_xml d) x.

(** A domain that has just been defined: shut off, not autostarted. *)
Definition fresh_domain (x : string) : dominfo := DomInfo 5 0 0 0 0 false x x.

Definition xmldesc (flags : Z) (d : dominfo) : string :=
  if Z.testbit flags 1 then di_xml_inactive d else di_xml d.

Record libvirt_error : Type := LvErr { err_code : Z; err_message : string }.

(** The three ways [LibvirtConnection.__init__] opens a connection. *)
Inductive open_call : Type :=
| OpenDefault                 (* libvirt.open(None) *)
| OpenAuth (uri : string)     (* libvirt.openAuth(uri, auth) *)
| OpenUri (uri : string).     (* libvirt.open(uri) *)

Inductive open_answer : Type :=
| OpenOk
| OpenNull
| OpenRefused (e : libvirt_error).

(** Requests sent over an open connection. *)
Inductive request : Type :=
| RListAllDomains
| RLookupByName (name : string)
| RInfo (name : string)
| RShutdown (name : string)
| RSuspend (name : string)
| RResume (name : string)
| RCreate (name : string)
| RDestroy (name : string)
| RUndefineFlags (name : string) (flag : Z)
| RXMLDesc (name : string) (flags : Z)
| RAutostart (name : string)
| RSetAutostart (name : string) (val : bool)
| RDefineXML (xml : string)
| RGetInfo
| RGetType
| RGetFreeMemory.

Record nodeinfo_t : Type := NodeInfo {
  ni_model : string; ni_memory : Z; ni_cpus : Z; ni_mhz : Z;
  ni_nodes : Z; ni_sockets : Z; ni_cores : Z; ni_threads : Z
}.

Record hypervisor : Type := Hypervisor {
  hv_domains : gmap string dominfo;
  hv_uname : string;                           (* stdout of [uname -r] *)
  hv_open : open_call -> open_answer;
  hv_fault : request -> option libvirt_error;  (* requests that are refused *)
  hv_xml_name : string -> string;              (* name libvirt reads in a descriptor *)
  hv_xml_canon : string -> string;             (* descriptor as libvirt stores it *)
  hv_nodeinfo : nodeinfo_t;
  hv_type : string;
  hv_freemem : Z
}.

Definition with_domains (h : hypervisor) (ds : gmap string dominfo) : hypervisor :=
  Hypervisor ds (hv_uname h) (hv_open h) (hv_fault h) (hv_xml_name h)
             (hv_xml_canon h) (hv_nodeinfo h) (hv_type h) (hv_freemem h).

(** ** Driver events of one invocation *)

Inductive event : Type :=
| EOpen (oc : open_call)               (* a connection was opened *)
| EOpenFailed (oc : open_call)         (* an attempt that gave no connection *)
| ECall (conn : nat) (rq : request).   (* a request on connection [conn] *)

Definition is_open (e : event) : bool :=
  match e with EOpen _ => true | _ => false end.

(** Connections are numbered in the order they are opened. *)
Definition opened (tr : list event) : nat := length (List.filter is_open tr).

(** The requests that change the hypervisor. *)
Definition mutating (rq : request) : bool :=
  match rq with
  | RShutdown _ | RSuspend _ | RResume _ | RCreate _ | RDestroy _
  | RUndefineFlags _ _ | RSetAutostart _ _ | RDefineXML _ => true
  | _ => false
  end.

Definition requests (tr : list event) : list request :=
  omap (fun e => match e with ECall _ rq => Some rq | _ => None end) tr.

Definition mutations (tr : list event) : list request :=
  List.filter mutating (requests tr).

(** ** The monad: state, exceptions and [fail_json] *)

Inductive exn : Type :=
| VMNotFound (msg : string)
| LibvirtError (e : libvirt_error)
| ValueError (msg : string)
| AttributeError (msg : string)
| TypeError (msg : string)
| PyException (msg : string).

(** [FailJson] is [module.fail_json]: it leaves through [SystemExit], which no
    [except Exception] clause catches. *)
Inductive outcome (A : Type) : Type :=
| Ok (a : A)
| Raise (e : exn)
| FailJson (msg : string).
Arguments Ok {A} a.
Arguments Raise {A} e.
Arguments FailJson {A} msg.

Record pstate : Type := PState {
  ps_hv : hypervisor;
  ps_conn : option nat;       (* the [conn] attribute of the [Virt] object *)
  ps_trace : list event;
  ps_warnings : list string
}.

Definition M (A : Type) : Type := pstate -> outcome A * pstate.

Definition ret {A} (a : A) : M A := fun s => (Ok a, s).

Definition bind {A B} (m : M A) (k : A -> M B) : M B :=
  fun s =>
    match m s with
    | (Ok a, s') => k a s'
    | (Raise e, s') => (Raise e, s')
    | (FailJson msg, s') => (FailJson msg, s')
    end.

#[global] Instance M_ret : MRet M := @ret.
#[global] Instance M_bind : MBind M := fun A B k m => bind m k.

Definition raise {A} (e : exn) : M A := fun s => (Raise e, s).
Definition fail_json {A} (msg : string) : M A := fun s => (FailJson msg, s).

(** [module.warn(msg)] *)
Definition warn (msg : string) : M unit :=
  fun s => (Ok tt, PState (ps_hv s) (ps_conn s) (ps_trace s) (ps_warnings s ++ [msg])%list).

Definition emit (e : event) : M unit :=
  fun s => (Ok tt, PState (ps_hv s) (ps_conn s) (ps_trace s ++ [e])%list (ps_warnings s)).

Definition get_hv : M hypervisor := fun s => (Ok (ps_hv s), s).
Definition put_hv (h : hypervisor) : M unit :=
  fun s => (Ok tt, PState h (ps_conn s) (ps_trace s) (ps_warnings s)).
Definition get_trace : M (list event) := fun s => (Ok (ps_trace s), s).

(** [try: m except <handled>: h]: [handler] says which exceptions the clause
    catches and what it does with them. *)
Definition try_except {A} (m : M A) (handler : exn -> option (M A)) : M A :=
  fun s =>
    match m s with
    | (Raise e, s') =>
        match handler e with
        | Some h => h s'
        | None => (Raise e, s')
        end
    | r => r
    end.

(** A request on connection [c]: it is recorded, then either refused by the
    hypervisor or served by [sem]. *)
Definition call {A} (c : nat) (rq : request)
    (sem : hypervisor -> libvirt_error + (A * hypervisor)) : M A :=
  emit (ECall c rq);;
  h ← get_hv;
  match hv_fault h rq with
  | Some e => raise (LibvirtError e)
  | None =>
      match sem h with
      | inl e => raise (LibvirtError e)
      | inr (a, h') => put_hv h';; mret a
      end
  end.

Definition no_domain (name : string) : libvirt_error :=
  LvErr 42 ("Domain not found: no domain with matching name '" ++ name ++ "'").

(** A request about the domain [name]: read it, or update it, in the table. *)
Definition on_domain {A} (name : string) (f : dominfo -> A * option dominfo)
    (h : hypervisor) : libvirt_error + (A * hypervisor) :=
  match hv_domains h !! name with
  | None => inl (no_domain name)
  | Some d =>
      match f d with
      | (a, None) => inr (a, h)
      | (a, Some d') => inr (a, with_domains h (<[name := d']> (hv_domains h)))
      end
  end.

(** ** libvirt's Python objects *)

(** A [virDomain] object: the connection it came from and the domain it names. *)
Record handle : Type := Handle { h_conn : nat; h_name : string }.

Module virConnect.

Definition listAllDomains (c : nat) : M (list handle) :=
  call c RListAllDomains
    (fun h => inr (map (fun kv => Handle c (fst kv)) (map_to_list (hv_domains h)), h)).

Definition lookupByName (c : nat) (name : string) : M handle :=
  call c (RLookupByName name) (on_domain name (fun _ => (Handle c name, None))).

(** The descriptor is stored under the name libvirt reads in it; a domain
    that is already there keeps its run-time state. *)
Definition defineXML (c : nat) (xml : string) : M handle :=
  call c (RDefineXML xml)
    (fun h =>
       let n := hv_xml_name h xml in
       let x := hv_xml_canon h xml in
       let d := match hv_domains h !! n with
                | Some d0 => set_inactive_xml x d0
                | None => fresh_domain x
                end in
       inr (Handle c n, with_domains h (<[n := d]> (hv_domains h)))).

Definition getInfo (c : nat) : M nodeinfo_t :=
  call c RGetInfo (fun h => inr (hv_nodeinfo h, h)).

Definition getType (c : nat) : M string :=
  call c RGetType (fun h => inr (hv_type h, h)).

Definition getFreeMemory (c : nat) : M Z :=
  call c RGetFreeMemory (fun h => inr (hv_freemem h, h)).

End virConnect.

Module virDomain.

(** [name()] reads the object itself; nothing is sent to the hypervisor. *)
Definition name (vm : handle) : string := h_name vm.

Definition info (vm : handle) : M (list Z) :=
  call (h_conn vm) (RInfo (h_name vm))
    (on_domain (h_name vm)
       (fun d => ([di_state d; di_maxMem d; di_memory d; di_nrVirtCpu d; di_cpuTime d], None))).

(** The lifecycle requests answer 0 once accepted. *)
Definition shutdown (vm : handle) : M Z :=
  call (h_conn vm) (RShutdown (h_name vm))
    (on_domain (h_name vm) (fun d => (0, Some (set_state 4 d)))).

Definition suspend (vm : handle) : M Z :=
  call (h_conn vm) (RSuspend (h_name vm))
    (on_domain (h_name vm) (fun d => (0, Some (set_state 3 d)))).

Definition resume (vm : handle) : M Z :=
  call (h_conn vm) (RResume (h_name vm))
    (on_domain (h_name vm) (fun d => (0, Some (set_state 1 d)))).

Definition create (vm : handle) : M Z :=
  call (h_conn vm) (RCreate (h_name vm))
    (on_domain (h_name vm) (fun d => (0, Some (set_state 1 d)))).

Definition destroy (vm : handle) : M Z :=
  call (h_conn vm) (RDestroy (h_name vm))
    (on_domain (h_name vm) (fun d => (0, Some (set_state 5 d)))).

Definition undefineFlags (vm : handle) (flag : Z) : M Z :=
  call (h_conn vm) (RUndefineFlags (h_name vm) flag)
    (fun h =>
       match hv_domains h !! h_name vm with
       | None => inl (no_domain (h_name vm))
       | Some _ => inr (0, with_domains h (delete (h_name vm) (hv_domains h)))
       end).

Definition XMLDesc (vm : handle) (flags : Z) : M string :=
  call (h_conn vm) (RXMLDesc (h_name vm) flags)
    (on_domain (h_name vm) (fun d => (xmldesc flags d, None))).

Definition autostart (vm : handle) : M bool :=
  call (h_conn vm) (RAutostart (h_name vm))
    (on_domain (h_name vm) (fun d => (di_autostart d, None))).

Definition setAutostart (vm : handle) (val : bool) : M Z :=
  call (h_conn vm) (RSetAutostart (h_name vm) val)
    (on_domain (h_name vm) (fun d => (0, Some (set_autostart_bit val d)))).

End virDomain.

(** [pat in s] on strings. *)
Fixpoint str_prefix (pat s : string) : bool :=
  match pat, s with
  | EmptyString, _ => true
  | String a pat', String b s' => if Ascii.eqb a b then str_prefix pat' s' else false
  | String _ _, EmptyString => false
  end.

Fixpoint str_contains (pat s : string) : bool :=
  str_prefix pat s ||
  match s with
  | EmptyString => false
  | String _ s' => str_contains pat s'
  end.

(** ** class LibvirtConnection *)

Module LibvirtConnection.

(** [__init__]: the new object is identified by the rank of its connection. *)
Definition init (uri : option string) : M nat :=
  h ← get_hv;
  oc ← (if str_contains "xen" (hv_uname h) then mret OpenDefault
        else match uri with
             | None => raise (TypeError "argument of type 'NoneType' is not iterable")
             | Some u => if str_contains "esx" u then mret (OpenAuth u)
                         else mret (OpenUri u)
             end);
  match hv_open h oc with
  | OpenRefused e => emit (EOpenFailed oc);; raise (LibvirtError e)
  | OpenNull => emit (EOpenFailed oc);; raise (PyException "hypervisor connection failure")
  | OpenOk => tr ← get_trace; emit (EOpen oc);; mret (opened tr)
  end.

(** [find_vm(-1)]: everything. *)
Definition find_vm_all (c : nat) : M (list handle) :=
  virConnect.listAllDomains c.

(** [find_vm(vmid)] for a name. *)
Definition find_vm (c : nat) (vmid : string) : M handle :=
  vms ← virConnect.listAllDomains c;
  match List.find (fun vm => String.eqb (virDomain.name vm) vmid) vms with
  | Some vm => mret vm
  | None => raise (VMNotFound ("virtual machine " ++ vmid ++ " not found"))
  end.

Definition suspend (c : nat) (vmid : string) : M Z :=
  vm ← find_vm c vmid; virDomain.suspend vm.

Definition resume (c : nat) (vmid : string) : M Z :=
  vm ← find_vm c vmid; virDomain.resume vm.

Definition shutdown (c : nat) (vmid : string) : M Z :=
  vm ← find_vm c vmid; virDomain.shutdown vm.

Definition pause (c : nat) (vmid : string) : M Z := suspend c vmid.

Definition unpause (c : nat) (vmid : string) : M Z := resume c vmid.

Definition create (c : nat) (vmid : string) : M Z :=
  vm ← find_vm c vmid; virDomain.create vm.

Definition destroy (c : nat) (vmid : string) : M Z :=
  vm ← find_vm c vmid; virDomain.destroy vm.

Definition undefine (c : nat) (vmid : string) (flag : Z) : M Z :=
  vm ← find_vm c vmid; virDomain.undefineFlags vm flag.

Definition get_status2 (vm : handle) : M string :=
  data ← virDomain.info vm; mret (state_name (nth 0 data 0)).

Definition get_status (c : nat) (vmid : string) : M string :=
  vm ← find_vm c vmid;
  data ← virDomain.info vm;
  mret (state_name (nth 0 data 0)).

Definition nodeinfo (c : nat) : M nodeinfo_t := virConnect.getInfo c.

Definition get_type (c : nat) : M string := virConnect.getType c.

Definition get_xml (c : nat) (vmid : string) : M string :=
  vm ← virConnect.lookupByName c vmid; virDomain.XMLDesc vm 0.

Definition getFreeMemory (c : nat) : M Z := virConnect.getFreeMemory c.

Definition get_autostart (c : nat) (vmid : string) : M bool :=
  vm ← virConnect.lookupByName c vmid; virDomain.autostart vm.

Definition set_autostart (c : nat) (vmid : string) (val : bool) : M Z :=
  vm ← virConnect.lookupByName c vmid; virDomain.setAutostart vm val.

Definition define_from_xml (c : nat) (xml : string) : M handle :=
  virConnect.defineXML c xml.

End LibvirtConnection.

(** ** class Virt *)

Module Virt.
Section Methods.

(** [self.uri]; [self.conn] lives in the state. *)
Variable uri : option string.

(** [self.conn], an [AttributeError] as long as nothing assigned it. *)
Definition self_conn : M nat :=
  fun s =>
    match ps_conn s with
    | Some c => (Ok c, s)
    | None => (Raise (AttributeError "'Virt' object has no attribute 'conn'"), s)
    end.

Definition set_self_conn (c : nat) : M unit :=
  fun s => (Ok tt, PState (ps_hv s) (Some c) (ps_trace s) (ps_warnings s)).

(** [__get_conn]: a new [LibvirtConnection] on every call. *)
Definition get_conn : M nat :=
  c ← LibvirtConnection.init uri;
  set_self_conn c;;
  mret c.

Definition get_vm (vmid : string) : M handle :=
  get_conn;;
  c ← self_conn;
  LibvirtConnection.find_vm c vmid.

(** One round of the loop of [list_vms]; any exception leaves [results]
    as it was. *)
Definition list_vms_step (state : option string) (results : list string)
    (x : handle) : M (list string) :=
  try_except
    (if truthy state then
       vmstate ← LibvirtConnection.get_status2 x;
       if bool_decide (Some vmstate = state)
       then mret (results ++ [virDomain.name x])%list
       else mret results
     else mret (results ++ [virDomain.name x])%list)
    (fun _ => Some (mret results)).

Fixpoint list_vms_loop (state : option string) (results : list string)
    (vms : list handle) : M (list string) :=
  match vms with
  | [] => mret results
  | x :: vms' =>
      results' ← list_vms_step state results x;
      list_vms_loop state results' vms'
  end.

Definition list_vms (state : option string) : M (list string) :=
  c ← get_conn;
  set_self_conn c;;
  c ← self_conn;
  vms ← LibvirtConnection.find_vm_all c;
  list_vms_loop state [] vms.

Fixpoint state_loop (state : list string) (vms : list string) : M (list string) :=
  match vms with
  | [] => mret state
  | vm :: vms' =>
      c ← self_conn;
      state_blurb ← LibvirtConnection.get_status c vm;
      state_loop (state ++ [(vm ++ " " ++ state_blurb)%string])%list vms'
  end.

Definition state : M (list string) :=
  vms ← list_vms None;
  state_loop [] vms.

Fixpoint info_loop (info : pydict) (vms : list string) : M pydict :=
  match vms with
  | [] => mret info
  | vm :: vms' =>
      c ← self_conn;
      h ← LibvirtConnection.find_vm c vm;
      data ← virDomain.info h;
      c ← self_conn;
      a ← LibvirtConnection.get_autostart c vm;
      info_loop
        (dict_set vm
           (VDict [("state", VStr (state_name (nth 0 data 0)));
                   ("maxMem", VStr (str_of_Z (nth 1 data 0)));
                   ("memory", VStr (str_of_Z (nth 2 data 0)));
                   ("nrVirtCpu", VInt (nth 3 data 0));
                   ("cpuTime", VStr (str_of_Z (nth 4 data 0)));
                   ("autostart", VInt (Z.b2z a))])
           info)
        vms'
  end.

Definition info : M pydict :=
  vms ← list_vms None;
  info_loop [] vms.

Definition nodeinfo : M pydict :=
  get_conn;;
  c ← self_conn;
  data ← LibvirtConnection.nodeinfo c;
  mret [("cpumodel", VStr (ni_model data));
        ("phymemory", VStr (str_of_Z (ni_memory data)));
        ("cpus", VStr (str_of_Z (ni_cpus data)));
        ("cpumhz", VStr (str_of_Z (ni_mhz data)));
        ("numanodes", VStr (str_of_Z (ni_nodes data)));
        ("sockets", VStr (str_of_Z (ni_sockets data)));
        ("cpucores", VStr (str_of_Z (ni_cores data)));
        ("cputhreads", VStr (str_of_Z (ni_threads data)))].

Definition virttype : M string :=
  c ← get_conn;
  LibvirtConnection.get_type c.

(** libvirt answers [autostart()] with 0 or 1, which Python compares with
    the boolean [as_flag] by value. *)
Definition autostart (vmid : string) (as_flag : bool) : M bool :=
  c ← get_conn;
  set_self_conn c;;
  c ← self_conn;
  cur ← LibvirtConnection.get_autostart c vmid;
  if negb (Bool.eqb cur as_flag) then
    c ← self_conn;
    LibvirtConnection.set_autostart c vmid as_flag;;
    mret true
  else mret false.

Definition freemem : M Z :=
  c ← get_conn;
  set_self_conn c;;
  c ← self_conn;
  LibvirtConnection.getFreeMemory c.

Definition shutdown (vmid : string) : M Z :=
  get_conn;;
  c ← self_conn;
  LibvirtConnection.shutdown c vmid;;
  mret 0.

Definition pause (vmid : string) : M Z :=
  get_conn;;
  c ← self_conn;
  LibvirtConnection.suspend c vmid.

Definition unpause (vmid : string) : M Z :=
  get_conn;;
  c ← self_conn;
  LibvirtConnection.resume c vmid.

Definition create (vmid : string) : M Z :=
  get_conn;;
  c ← self_conn;
  LibvirtConnection.create c vmid.

Definition start (vmid : string) : M Z :=
  get_conn;;
  c ← self_conn;
  LibvirtConnection.create c vmid.

Definition destroy (vmid : string) : M Z :=
  get_conn;;
  c ← self_conn;
  LibvirtConnection.destroy c vmid.

Definition undefine (vmid : string) (flag : Z) : M Z :=
  get_conn;;
  c ← self_conn;
  LibvirtConnection.undefine c vmid flag.

Definition status (vmid : string) : M string :=
  get_conn;;
  c ← self_conn;
  LibvirtConnection.get_status c vmid.

Definition get_xml (vmid : string) : M string :=
  get_conn;;
  c ← self_conn;
  LibvirtConnection.get_xml c vmid.

Definition define (xml : string) : M handle :=
  get_conn;;
  c ← self_conn;
  LibvirtConnection.define_from_xml c xml.

(** What [getattr(v, command)] finds.  The class body and [__init__] give
    the names below; attributes inherited from [object] are not tabulated
    (the [choices] of the argument spec keep them out of [command]). *)
Inductive attribute : Type :=
| Method0 (m : M pyval)              (* callable without argument *)
| Method1 (m : string -> M pyval)    (* callable with the guest *)
| NeedsArgs                          (* a method of another shape *)
| Data                               (* [module], [uri], [conn] *)
| Missing.

Definition getattr (command : string) : M attribute :=
  if String.eqb command "state" then
    mret (Method0 (r ← state; mret (VList (map VStr r))))
  else if String.eqb command "info" then mret (Method0 (r ← info; mret (VDict r)))
  else if String.eqb command "nodeinfo" then
    mret (Method0 (r ← nodeinfo; mret (VDict r)))
  else if String.eqb command "list_vms" then
    mret (Method0 (r ← list_vms None; mret (VList (map VStr r))))
  else if String.eqb command "virttype" then
    mret (Method0 (r ← virttype; mret (VStr r)))
  else if String.eqb command "freemem" then
    mret (Method0 (r ← freemem; mret (VInt r)))
  else if String.eqb command "shutdown" then
    mret (Method1 (fun g => r ← shutdown g; mret (VInt r)))
  else if String.eqb command "pause" then
    mret (Method1 (fun g => r ← pause g; mret (VInt r)))
  else if String.eqb command "unpause" then
    mret (Method1 (fun g => r ← unpause g; mret (VInt r)))
  else if String.eqb command "create" then
    mret (Method1 (fun g => r ← create g; mret (VInt r)))
  else if String.eqb command "start" then
    mret (Method1 (fun g => r ← start g; mret (VInt r)))
  else if String.eqb command "destroy" then
    mret (Method1 (fun g => r ← destroy g; mret (VInt r)))
  else if String.eqb command "status" then
    mret (Method1 (fun g => r ← status g; mret (VStr r)))
  else if String.eqb command "get_xml" then
    mret (Method1 (fun g => r ← get_xml g; mret (VStr r)))
  else if existsb (String.eqb command)
            ["get_vm"; "autostart"; "undefine"; "get_maxVcpus";
             "get_max_memory"; "define"] then mret NeedsArgs
  else if existsb (String.eqb command) ["module"; "uri"] then mret Data
  else if String.eqb command "conn" then
    (fun s => (Ok (match ps_conn s with Some _ => Data | None => Missing end), s))
  else mret Missing.

End Methods.
End Virt.

(** ** The name read in the descriptor (line 542)

    [re.search] with a pattern made of the opening tag [<name>], a greedy
    group of any characters but the line break, and the closing tag. *)

Definition is_newline (c : ascii) : bool := Ascii.eqb c "010"%char.

Fixpoint strip_prefix (pat s : string) : option string :=
  match pat, s with
  | EmptyString, _ => Some s
  | String a pat', String b s' => if Ascii.eqb a b then strip_prefix pat' s' else None
  | String _ _, EmptyString => None
  end.

(** The greedy group followed by [pat], at the start of [s]: the longest run
    of characters other than a line break after which [pat] follows. *)
Fixpoint greedy_until (pat s : string) : option string :=
  match s with
  | EmptyString => if str_prefix pat s then Some EmptyString else None
  | String c s' =>
      match (if is_newline c then None else greedy_until pat s') with
      | Some g => Some (String c g)
      | None => if str_prefix pat s then Some EmptyString else None
      end
  end.

(** The leftmost position where the pattern matches wins. *)
Fixpoint re_search_name (xml : string) : option string :=
  match
    match strip_prefix "<name>" xml with
    | Some rest => greedy_until "</name>" rest
    | None => None
    end
  with
  | Some g => Some g
  | None =>
      match xml with
      | EmptyString => None
      | String _ xml' => re_search_name xml'
      end
  end.

(** ** [core] *)

Record params : Type := Params {
  p_state : option string;
  p_autostart : option bool;
  p_name : option string;
  p_command : option string;
  p_force : option bool;
  p_flags : option (list string);
  p_uri : option string;
  p_xml : option string
}.

(** [x in l] for a list of strings. *)
Definition py_in (x : string) (l : list string) : bool := existsb (String.eqb x) l.

(** The value of a parameter that has just been tested true. *)
Definition str_of (o : option string) : string :=
  match o with
  | Some s => s
  | None => ""
  end.

(** Lines 582-594 of [core]: the integer handed to [undefine]. *)
Definition undefine_flag (flags : option (list string)) (force : option bool) : M Z :=
  match flags with
  | Some fl =>
      (if bool_decide (force = Some true)
       then warn "Ignoring 'force', because 'flags' are provided."
       else mret tt);;
      let nv := ["nvram"; "keep_nvram"] in
      if forallb (fun n => py_in n fl) nv then
        raise (ValueError "Flags 'nvram' and 'keep_nvram' are mutually exclusive")
      else
        mret (fold_left
                (fun flag item => flag + default 0 (ENTRY_UNDEFINE_FLAGS_MAP !! item))
                fl 0)
  | None =>
      if bool_decide (force = Some true) then mret 23 else mret 0
  end.

Section Core.

Variable p : params.

Let state := p_state p.
Let autostart := p_autostart p.
Let guest := p_name p.
Let command := p_command p.
Let force := p_force p.
Let flags := p_flags p.
Let uri := p_uri p.
Let xml := p_xml p.

(** Lines 494-501: the autostart check made ahead of a state or a command. *)
Definition core_autostart (res : pydict) : M pydict :=
  match autostart with
  | Some a =>
      if negb (bool_decide (command = Some "define")) then
        (if negb (truthy guest)
         then fail_json "autostart requires 1 argument: name" else mret tt);;
        try_except (Virt.get_vm uri (str_of guest);; mret tt)
          (fun e => match e with
                    | VMNotFound _ =>
                        Some (fail_json ("domain " ++ str_of guest ++ " not found"))
                    | _ => None
                    end);;
        changed ← Virt.autostart uri (str_of guest) a;
        mret (dict_set "changed" (VBool changed) res)
      else mret res
  | None => mret res
  end.

(** Lines 505-531: the desired state. *)
Definition core_state (res : pydict) : M (Z * pydict) :=
  (if negb (truthy guest)
   then fail_json "state change requires a guest specified" else mret tt);;
  let g := str_of guest in
  res ← (if bool_decide (state = Some "running") then
           s1 ← Virt.status uri g;
           if String.eqb s1 "paused" then
             msg ← Virt.unpause uri g;
             mret (dict_set "msg" (VInt msg) (dict_set "changed" (VBool true) res))
           else
             s2 ← Virt.status uri g;
             if negb (String.eqb s2 "running") then
               msg ← Virt.start uri g;
               mret (dict_set "msg" (VInt msg) (dict_set "changed" (VBool true) res))
             else mret res
         else if bool_decide (state = Some "shutdown") then
           s1 ← Virt.status uri g;
           if negb (String.eqb s1 "shutdown") then
             msg ← Virt.shutdown uri g;
             mret (dict_set "msg" (VInt msg) (dict_set "changed" (VBool true) res))
           else mret res
         else if bool_decide (state = Some "destroyed") then
           s1 ← Virt.status uri g;
           if negb (String.eqb s1 "shutdown") then
             msg ← Virt.destroy uri g;
             mret (dict_set "msg" (VInt msg) (dict_set "changed" (VBool true) res))
           else mret res
         else if bool_decide (state = Some "paused") then
           s1 ← Virt.status uri g;
           if String.eqb s1 "running" then
             msg ← Virt.pause uri g;
             mret (dict_set "msg" (VInt msg) (dict_set "changed" (VBool true) res))
           else mret res
         else fail_json "unexpected state");
  mret (VIRT_SUCCESS, res).

(** Lines 535-572: [command == 'define']. *)
Definition core_define (res : pydict) : M pydict :=
  (if negb (truthy xml) then fail_json "define requires xml argument" else mret tt);;
  (if truthy guest then warn "'xml' is given - ignoring 'name'" else mret tt);;
  domain_name ← match re_search_name (str_of xml) with
                | Some n => mret n
                | None => fail_json "Could not find domain 'name' in xml"
                end;
  existing_domain_xml ←
    try_except
      (vm ← Virt.get_vm uri domain_name;
       x ← virDomain.XMLDesc vm VIR_DOMAIN_XML_INACTIVE;
       mret (Some x))
      (fun e => match e with VMNotFound _ => Some (mret None) | _ => None end);
  res ←
    try_except
      (domain ← Virt.define uri (str_of xml);
       if truthy existing_domain_xml then
         x' ← virDomain.XMLDesc domain VIR_DOMAIN_XML_INACTIVE;
         if negb (bool_decide (existing_domain_xml = Some x')) then
           mret [("changed", VBool true); ("change_reason", VStr "config changed")]
         else mret res
       else
         mret [("changed", VBool true); ("created", VStr (virDomain.name domain))])
      (fun e => match e with
                | LibvirtError le =>
                    Some (if negb (Z.eqb (err_code le) 9)
                          then fail_json ("libvirtError: " ++ err_message le)
                          else mret res)
                | _ => None
                end);
  match autostart with
  | Some a =>
      changed ← Virt.autostart uri domain_name a;
      if (changed : bool)
      then mret [("changed", VBool true); ("change_reason", VStr "autostart")]
      else mret res
  | None => mret res
  end.

(** Lines 533-614: the command. *)
Definition core_command (res : pydict) : M (Z * pydict) :=
  let cmd := str_of command in
  if py_in cmd VM_COMMANDS then
    res ← (if String.eqb cmd "define" then core_define res
           else if negb (truthy guest) then
             fail_json (cmd ++ " requires 1 argument: guest")
           else if String.eqb cmd "undefine" then
             flag ← undefine_flag flags force;
             r ← Virt.undefine uri (str_of guest) flag;
             mret (wrap_result cmd (VInt r))
           else
             a ← Virt.getattr uri cmd;
             match a with
             | Virt.Method1 m => r ← m (str_of guest); mret (wrap_result cmd r)
             | Virt.Missing =>
                 raise (AttributeError
                          ("'Virt' object has no attribute '" ++ cmd ++ "'"))
             | _ => raise (TypeError "wrong number of arguments")
             end);
    mret (VIRT_SUCCESS, res)
  else
    a ← Virt.getattr uri cmd;
    match a with
    | Virt.Missing => fail_json ("Command " ++ cmd ++ " not recognized")
    | Virt.Method0 m => r ← m; mret (VIRT_SUCCESS, wrap_result cmd r)
    | _ => raise (TypeError "wrong number of arguments")
    end.

Definition core : M (Z * pydict) :=
  let res : pydict := [] in
  if truthy state && bool_decide (command = Some "list_vms") then
    r ← Virt.list_vms uri state;
    mret (VIRT_SUCCESS, wrap_result (str_of command) (VList (map VStr r)))
  else
    res ← core_autostart res;
    if bool_decide (autostart ≠ None) && negb (bool_decide (command = Some "define"))
       && negb (truthy command) && negb (truthy state)
    then mret (VIRT_SUCCESS, res)
    else if truthy state then core_state res
    else if truthy command then core_command res
    else fail_json "expected state or command parameter to be specified".

End Core.

(** One invocation: a fresh [Virt] object, no event yet. *)
Definition initial (h : hypervisor) : pstate := PState h None [] [].

Definition run (h : hypervisor) (p : params) : outcome (Z * pydict) * pstate :=
  core p (initial h).

(** The result dictionary of an invocation that returned. *)
Definition result_of (o : outcome (Z * pydict)) : option pydict :=
  match o with
  | Ok (_, res) => Some res
  | _ => None
  end.

(** [changed] as the caller reads it: absent counts as false. *)
Definition changed_of (res : pydict) : bool :=
  match dict_get "changed" res with
  | Some (VBool true) => true
  | _ => false
  end.

(** * Properties *)

(** ** Running the monad *)

Lemma run_bind {A B} (m : M A) (k : A -> M B) (s : pstate) :
  (m ≫= k) s =
  match m s with
  | (Ok a, s') => k a s'
  | (Raise e, s') => (Raise e, s')
  | (FailJson msg, s') => (FailJson msg, s')
  end.
Proof. reflexivity. Qed.

Lemma run_bind_ok {A B} (m : M A) (k : A -> M B) s a s' :
  m s = (Ok a, s') -> (m ≫= k) s = k a s'.
Proof. intros H. rewrite run_bind, H. reflexivity. Qed.

Lemma run_bind_raise {A B} (m : M A) (k : A -> M B) s e s' :
  m s = (Raise e, s') -> (m ≫= k) s = (Raise e, s').
Proof. intros H. rewrite run_bind, H. reflexivity. Qed.

Lemma run_bind_fail {A B} (m : M A) (k : A -> M B) s msg s' :
  m s = (FailJson msg, s') -> (m ≫= k) s = (FailJson msg, s').
Proof. intros H. rewrite run_bind, H. reflexivity. Qed.

Lemma run_ret {A} (a : A) s : (mret a : M A) s = (Ok a, s).
Proof. reflexivity. Qed.

(** ** What the hypervisor answers *)

(** The call [LibvirtConnection.__init__] makes, when it gets that far. *)
Definition open_call_for (h : hypervisor) (uri : option string) : option open_call :=
  if str_contains "xen" (hv_uname h) then Some OpenDefault
  else match uri with
       | None => None
       | Some u => Some (if str_contains "esx" u then OpenAuth u else OpenUri u)
       end.

(** The hypervisor gives a connection for [uri], through the call [oc]. *)
Definition connects (h : hypervisor) (uri : option string) (oc : open_call) : Prop :=
  open_call_for h uri = Some oc /\ hv_open h oc = OpenOk.

(** The hypervisor does not refuse the request. *)
Definition served (h : hypervisor) (rq : request) : Prop := hv_fault h rq = None.

Lemma connects_with_domains h ds uri oc :
  connects (with_domains h ds) uri oc <-> connects h uri oc.
Proof. reflexivity. Qed.

Lemma init_ok h uri oc cn tr w :
  connects h uri oc ->
  LibvirtConnection.init uri (PState h cn tr w)
  = (Ok (opened tr), PState h cn (tr ++ [EOpen oc]) w).
Proof.
  intros [Hoc Hopen]. unfold LibvirtConnection.init, open_call_for in *.
  rewrite run_bind. cbn [get_hv ps_hv].
  destruct (str_contains "xen" (hv_uname h)).
  - injection Hoc as <-. rewrite run_bind, run_ret, Hopen. reflexivity.
  - destruct uri as [u|]; [|discriminate]. injection Hoc as <-.
    destruct (str_contains "esx" u); rewrite run_bind, run_ret, Hopen; reflexivity.
Qed.

Lemma get_conn_ok h uri oc cn tr w :
  connects h uri oc ->
  Virt.get_conn uri (PState h cn tr w)
  = (Ok (opened tr), PState h (Some (opened tr)) (tr ++ [EOpen oc]) w).
Proof.
  intros H. unfold Virt.get_conn.
  rewrite (run_bind_ok _ _ _ _ _ (init_ok _ _ _ _ _ _ H)). reflexivity.
Qed.

Lemma call_served {A} c rq (sem : hypervisor -> libvirt_error + (A * hypervisor))
    h cn tr w a h' :
  served h rq -> sem h = inr (a, h') ->
  call c rq sem (PState h cn tr w) = (Ok a, PState h' cn (tr ++ [ECall c rq]) w).
Proof.
  intros Hs Hsem. unfold call, served in *.
  rewrite run_bind. cbn [emit ps_hv ps_conn ps_trace ps_warnings].
  rewrite run_bind. cbn [get_hv ps_hv]. rewrite Hs, Hsem. reflexivity.
Qed.

Lemma call_refused {A} c rq (sem : hypervisor -> libvirt_error + (A * hypervisor))
    h cn tr w e :
  hv_fault h rq = Some e ->
  call c rq sem (PState h cn tr w)
  = (Raise (LibvirtError e), PState h cn (tr ++ [ECall c rq]) w).
Proof.
  intros Hs. unfold call.
  rewrite run_bind. cbn [emit ps_hv ps_conn ps_trace ps_warnings].
  rewrite run_bind. cbn [get_hv ps_hv]. rewrite Hs. reflexivity.
Qed.

(** ** Looking a domain up among the enumerated ones *)

Lemma find_key_present (m : gmap string dominfo) c g d :
  m !! g = Some d ->
  List.find (fun vm => String.eqb (virDomain.name vm) g)
            (map (fun kv => Handle c (fst kv)) (map_to_list m))
  = Some (Handle c g).
Proof.
  intros Hg.
  assert (Hin : (g, d) ∈ map_to_list m) by (by apply elem_of_map_to_list).
  induction (map_to_list m) as [|[k v] l IH]; [by apply elem_of_nil in Hin|].
  cbn. unfold virDomain.name at 1. cbn.
  destruct (String.eqb_spec k g) as [->|Hne]; [reflexivity|].
  apply IH. apply elem_of_cons in Hin as [Heq|Hin]; [congruence|done].
Qed.

Lemma find_key_absent (m : gmap string dominfo) c g :
  m !! g = None ->
  List.find (fun vm => String.eqb (virDomain.name vm) g)
            (map (fun kv => Handle c (fst kv)) (map_to_list m))
  = None.
Proof.
  intros Hg.
  assert (Hnin : forall d, (g, d) ∉ map_to_list m).
  { intros d Hin. apply elem_of_map_to_list in Hin. congruence. }
  induction (map_to_list m) as [|[k v] l IH]; [reflexivity|].
  cbn. unfold virDomain.name at 1. cbn.
  destruct (String.eqb_spec k g) as [->|Hne].
  - exfalso. apply (Hnin v). apply elem_of_cons. by left.
  - apply IH. intros d Hin. apply (Hnin d). apply elem_of_cons. by right.
Qed.

Lemma find_vm_ok h c g d cn tr w :
  served h RListAllDomains -> hv_domains h !! g = Some d ->
  LibvirtConnection.find_vm c g (PState h cn tr w)
  = (Ok (Handle c g), PState h cn (tr ++ [ECall c RListAllDomains]) w).
Proof.
  intros Hs Hg. unfold LibvirtConnection.find_vm, virConnect.listAllDomains.
  erewrite run_bind_ok; [|apply call_served; [exact Hs|reflexivity]].
  rewrite (find_key_present _ _ _ _ Hg). reflexivity.
Qed.

Lemma find_vm_absent h c g cn tr w :
  served h RListAllDomains -> hv_domains h !! g = None ->
  LibvirtConnection.find_vm c g (PState h cn tr w)
  = (Raise (VMNotFound ("virtual machine " ++ g ++ " not found")),
     PState h cn (tr ++ [ECall c RListAllDomains]) w).
Proof.
  intros Hs Hg. unfold LibvirtConnection.find_vm, virConnect.listAllDomains.
  erewrite run_bind_ok; [|apply call_served; [exact Hs|reflexivity]].
  rewrite (find_key_absent _ _ _ Hg). reflexivity.
Qed.

Lemma get_vm_ok h uri oc g d cn tr w :
  connects h uri oc -> served h RListAllDomains -> hv_domains h !! g = Some d ->
  Virt.get_vm uri g (PState h cn tr w)
  = (Ok (Handle (opened tr) g),
     PState h (Some (opened tr))
            (tr ++ [EOpen oc; ECall (opened tr) RListAllDomains]) w).
Proof.
  intros Hc Hs Hg. unfold Virt.get_vm.
  erewrite run_bind_ok; [|apply get_conn_ok; exact Hc].
  rewrite run_bind. cbn [Virt.self_conn ps_conn].
  erewrite find_vm_ok by eassumption. rewrite <- app_assoc. reflexivity.
Qed.

Lemma get_vm_absent h uri oc g cn tr w :
  connects h uri oc -> served h RListAllDomains -> hv_domains h !! g = None ->
  Virt.get_vm uri g (PState h cn tr w)
  = (Raise (VMNotFound ("virtual machine " ++ g ++ " not found")),
     PState h (Some (opened tr))
            (tr ++ [EOpen oc; ECall (opened tr) RListAllDomains]) w).
Proof.
  intros Hc Hs Hg. unfold Virt.get_vm.
  erewrite run_bind_ok; [|apply get_conn_ok; exact Hc].
  rewrite run_bind. cbn [Virt.self_conn ps_conn].
  erewrite find_vm_absent by eassumption. rewrite <- app_assoc. reflexivity.
Qed.

(** The status the module reads for a domain. *)
Definition status_of (d : dominfo) : string := state_name (di_state d).

Lemma status_ok h uri oc g d cn tr w :
  connects h uri oc -> served h RListAllDomains -> served h (RInfo g) ->
  hv_domains h !! g = Some d ->
  Virt.status uri g (PState h cn tr w)
  = (Ok (status_of d),
     PState h (Some (opened tr))
            (tr ++ [EOpen oc; ECall (opened tr) RListAllDomains;
                    ECall (opened tr) (RInfo g)]) w).
Proof.
  intros Hc Hs Hi Hg. unfold Virt.status.
  erewrite run_bind_ok; [|apply get_conn_ok; exact Hc].
  rewrite run_bind. cbn [Virt.self_conn ps_conn].
  unfold LibvirtConnection.get_status.
  erewrite run_bind_ok; [|eapply find_vm_ok; eassumption].
  unfold virDomain.info. cbn [h_conn h_name].
  erewrite run_bind_ok;
    [|apply call_served; [exact Hi|unfold on_domain; rewrite Hg; reflexivity]].
  rewrite run_ret, <- !app_assoc. reflexivity.
Qed.

(** The five lifecycle requests and the [Virt] methods that send them. *)
Inductive action : Type := Resume | Start | GracefulStop | ForceStop | Pause.

Definition action_request (a : action) (g : string) : request :=
  match a with
  | Resume => RResume g
  | Start => RCreate g
  | GracefulStop => RShutdown g
  | ForceStop => RDestroy g
  | Pause => RSuspend g
  end.

Definition action_method (a : action) : option string -> string -> M Z :=
  match a with
  | Resume => Virt.unpause
  | Start => Virt.start
  | GracefulStop => Virt.shutdown
  | ForceStop => Virt.destroy
  | Pause => Virt.pause
  end.

Definition action_state (a : action) : Z :=
  match a with
  | Resume => 1 | Start => 1 | GracefulStop => 4 | ForceStop => 5 | Pause => 3
  end.

Definition action_conn_method (a : action) : nat -> string -> M Z :=
  match a with
  | Resume => LibvirtConnection.resume
  | Start => LibvirtConnection.create
  | GracefulStop => LibvirtConnection.shutdown
  | ForceStop => LibvirtConnection.destroy
  | Pause => LibvirtConnection.suspend
  end.

Lemma action_conn_run a h c g d cn tr w :
  served h RListAllDomains -> hv_domains h !! g = Some d ->
  action_conn_method a c g (PState h cn tr w)
  = match hv_fault h (action_request a g) with
    | None =>
        (Ok 0,
         PState (with_domains h (<[g := set_state (action_state a) d]> (hv_domains h)))
                cn (tr ++ [ECall c RListAllDomains; ECall c (action_request a g)]) w)
    | Some e =>
        (Raise (LibvirtError e),
         PState h cn (tr ++ [ECall c RListAllDomains; ECall c (action_request a g)]) w)
    end.
Proof.
  intros Hs Hg.
  destruct (hv_fault h (action_request a g)) as [e|] eqn:Hf; destruct a;
    cbn [action_conn_method action_request action_state] in *;
    unfold LibvirtConnection.resume, LibvirtConnection.create,
      LibvirtConnection.shutdown, LibvirtConnection.destroy,
      LibvirtConnection.suspend;
    (erewrite run_bind_ok; [|eapply find_vm_ok; eassumption]);
    unfold virDomain.resume, virDomain.create, virDomain.shutdown,
      virDomain.destroy, virDomain.suspend; cbn [h_conn h_name].
  all: first
    [ erewrite call_refused by exact Hf
    | erewrite call_served;
      [|exact Hf|unfold on_domain; rewrite Hg; reflexivity] ].
  all: rewrite <- !app_assoc; reflexivity.
Qed.

Lemma action_run a h uri oc g d cn tr w :
  connects h uri oc -> served h RListAllDomains -> hv_domains h !! g = Some d ->
  action_method a uri g (PState h cn tr w)
  = match hv_fault h (action_request a g) with
    | None =>
        (Ok 0,
         PState (with_domains h (<[g := set_state (action_state a) d]> (hv_domains h)))
                (Some (opened tr))
                (tr ++ [EOpen oc; ECall (opened tr) RListAllDomains;
                        ECall (opened tr) (action_request a g)]) w)
    | Some e =>
        (Raise (LibvirtError e),
         PState h (Some (opened tr))
                (tr ++ [EOpen oc; ECall (opened tr) RListAllDomains;
                        ECall (opened tr) (action_request a g)]) w)
    end.
Proof.
  intros Hc Hs Hg.
  pose proof (action_conn_run a h (opened tr) g d (Some (opened tr))
                (tr ++ [EOpen oc]) w Hs Hg) as Hrun.
  destruct a; cbn [action_method action_conn_method] in *;
    unfold Virt.unpause, Virt.start, Virt.shutdown, Virt.destroy, Virt.pause;
    (erewrite run_bind_ok; [|apply get_conn_ok; exact Hc]);
    rewrite run_bind; cbn [Virt.self_conn ps_conn];
    try rewrite run_bind; rewrite Hrun;
    destruct (hv_fault h _); rewrite <- ?app_assoc; reflexivity.
Qed.

(** ** Traces *)

Open Scope list_scope.

Lemma requests_app tr1 tr2 : requests (tr1 ++ tr2) = requests tr1 ++ requests tr2.
Proof. unfold requests. apply omap_app. Qed.

Lemma mutations_app tr1 tr2 : mutations (tr1 ++ tr2) = mutations tr1 ++ mutations tr2.
Proof. unfold mutations. rewrite requests_app. apply List.filter_app. Qed.

(** ** The transition table (specification, section 4.1) *)

Inductive verdict : Type :=
| Invalid              (* not a desired state *)
| Stay                 (* no action, nothing changed *)
| Do (a : action).     (* one action, changed *)

(** The table of the specification, row by row. *)
Definition spec_transition (desired status : string) : verdict :=
  if String.eqb desired "running" then
    if String.eqb status "paused" then Do Resume
    else if negb (String.eqb status "running") then Do Start
    else Stay
  else if String.eqb desired "shutdown" then
    if negb (String.eqb status "shutdown") then Do GracefulStop else Stay
  else if String.eqb desired "destroyed" then
    if negb (String.eqb status "shutdown") then Do ForceStop else Stay
  else if String.eqb desired "paused" then
    if String.eqb status "running" then Do Pause else Stay
  else Invalid.

(** The four tokens the table knows. *)
Definition desired_state (token : string) : bool :=
  py_in token ["running"; "shutdown"; "destroyed"; "paused"].

Lemma bool_decide_some_str (a b : string) :
  bool_decide (Some a = Some b) = String.eqb a b.
Proof.
  destruct (String.eqb_spec a b) as [->|Hne].
  - by apply bool_decide_eq_true.
  - apply bool_decide_eq_false. congruence.
Qed.

Lemma truthy_some g : g <> "" -> truthy (Some g) = true.
Proof. intros H. cbn. by destruct (String.eqb_spec g ""). Qed.

Lemma spec_transition_invalid desired status :
  desired_state desired = false -> spec_transition desired status = Invalid.
Proof.
  unfold desired_state, py_in, spec_transition. cbn.
  destruct (String.eqb desired "running"); [discriminate|].
  destruct (String.eqb desired "shutdown"); [discriminate|].
  destruct (String.eqb desired "destroyed"); [discriminate|].
  destruct (String.eqb desired "paused"); [discriminate|]. reflexivity.
Qed.

(** The rows of the table. *)
Example transition_rows :
  spec_transition "running" "paused" = Do Resume /\
  spec_transition "running" "shutdown" = Do Start /\
  spec_transition "running" "crashed" = Do Start /\
  spec_transition "running" "unknown" = Do Start /\
  spec_transition "running" "running" = Stay /\
  spec_transition "shutdown" "running" = Do GracefulStop /\
  spec_transition "shutdown" "paused" = Do GracefulStop /\
  spec_transition "shutdown" "shutdown" = Stay /\
  spec_transition "destroyed" "running" = Do ForceStop /\
  spec_transition "destroyed" "paused" = Do ForceStop /\
  spec_transition "destroyed" "shutdown" = Stay /\
  spec_transition "paused" "running" = Do Pause /\
  spec_transition "paused" "paused" = Stay /\
  spec_transition "paused" "shutdown" = Stay /\
  spec_transition "stopped" "running" = Invalid.
Proof. repeat split. Qed.

(** The result a transition leaves: [changed] and the driver's answer. *)
Definition transition_result (res : pydict) : pydict :=
  dict_set "msg" (VInt 0) (dict_set "changed" (VBool true) res).

(** Lines 505-531 on a token outside the table. *)
Lemma core_state_invalid p desired g res s :
  p_state p = Some desired -> p_name p = Some g -> g <> "" ->
  desired_state desired = false ->
  core_state p res s = (FailJson "unexpected state", s).
Proof.
  intros Hst Hn Hg Hd. unfold core_state. rewrite Hst, Hn, (truthy_some _ Hg).
  cbn [negb]. rewrite run_bind, run_ret, run_bind, !bool_decide_some_str.
  revert Hd. unfold desired_state, py_in. cbn.
  destruct (String.eqb desired "running"); [discriminate|].
  destruct (String.eqb desired "shutdown"); [discriminate|].
  destruct (String.eqb desired "destroyed"); [discriminate|].
  destruct (String.eqb desired "paused"); [discriminate|]. reflexivity.
Qed.

(** Closes a goal about the outcome and the trace of a finished run. *)
Ltac settle_trace :=
  rewrite ?run_ret; cbn [fst snd ps_trace ps_hv ps_conn ps_warnings];
  rewrite ?mutations_app; repeat split; try reflexivity;
  cbn; rewrite ?app_nil_r; reflexivity.

(** Lines 505-531 on a domain whose status can be read: the outcome and the
    requests that change the hypervisor, for any result so far. *)
Lemma core_state_table p desired g d oc res h cn tr w :
  p_state p = Some desired -> p_name p = Some g -> g <> "" ->
  connects h (p_uri p) oc -> served h RListAllDomains -> served h (RInfo g) ->
  hv_domains h !! g = Some d ->
  let r := core_state p res (PState h cn tr w) in
  match spec_transition desired (status_of d) with
  | Invalid => r = (FailJson "unexpected state", PState h cn tr w)
  | Stay =>
      fst r = Ok (VIRT_SUCCESS, res) /\
      mutations (ps_trace (snd r)) = mutations tr /\ ps_hv (snd r) = h
  | Do a =>
      mutations (ps_trace (snd r)) = mutations tr ++ [action_request a g] /\
      fst r = match hv_fault h (action_request a g) with
              | None => Ok (VIRT_SUCCESS, transition_result res)
              | Some e => Raise (LibvirtError e)
              end
  end.
Proof.
  intros Hst Hn Hg Hc Hl Hi Hd r. subst r.
  unfold core_state. rewrite Hst, Hn, (truthy_some _ Hg).
  cbn [negb str_of]. rewrite run_bind, run_ret, run_bind, !bool_decide_some_str.
  unfold spec_transition.
  pose proof (fun cn tr => status_ok h (p_uri p) oc g d cn tr w Hc Hl Hi Hd) as Hstatus.
  pose proof (fun a cn tr => action_run a h (p_uri p) oc g d cn tr w Hc Hl Hd) as Hact.
  destruct (String.eqb desired "running").
  { rewrite run_bind, Hstatus.
    destruct (String.eqb (status_of d) "paused").
    - rewrite run_bind, (Hact Resume). cbn [action_request].
      destruct (hv_fault h (RResume g)); settle_trace.
    - rewrite run_bind, Hstatus.
      destruct (String.eqb (status_of d) "running"); cbn [negb].
      + settle_trace.
      + rewrite run_bind, (Hact Start). cbn [action_request].
        destruct (hv_fault h (RCreate g)); settle_trace. }
  destruct (String.eqb desired "shutdown").
  { rewrite run_bind, Hstatus.
    destruct (String.eqb (status_of d) "shutdown"); cbn [negb].
    - settle_trace.
    - rewrite run_bind, (Hact GracefulStop). cbn [action_request].
      destruct (hv_fault h (RShutdown g)); settle_trace. }
  destruct (String.eqb desired "destroyed").
  { rewrite run_bind, Hstatus.
    destruct (String.eqb (status_of d) "shutdown"); cbn [negb].
    - settle_trace.
    - rewrite run_bind, (Hact ForceStop). cbn [action_request].
      destruct (hv_fault h (RDestroy g)); settle_trace. }
  destruct (String.eqb desired "paused").
  { rewrite run_bind, Hstatus.
    destruct (String.eqb (status_of d) "running"); cbn [negb].
    - rewrite run_bind, (Hact Pause). cbn [action_request].
      destruct (hv_fault h (RSuspend g)); settle_trace.
    - settle_trace. }
  reflexivity.
Qed.

(** ** A hypervisor to run examples on *)

Definition demo_domain (st : Z) (a : bool) (x : string) : dominfo :=
  DomInfo st 1048576 524288 2 7 a x x.

Definition demo_xml (n : string) : string :=
  ("<domain><name>" ++ n ++ "</name></domain>")%string.

(** Three domains: [alpha] runs, [beta] is paused, [gamma] is shut off.
    Every request is served; a descriptor is stored as it is given. *)
Definition demo_hv : hypervisor :=
  Hypervisor
    (list_to_map [("alpha", demo_domain 1 false (demo_xml "alpha"));
                  ("beta", demo_domain 3 true (demo_xml "beta"));
                  ("gamma", demo_domain 5 false (demo_xml "gamma"))])
    "6.1.0-18-amd64"
    (fun _ => OpenOk)
    (fun _ => None)
    (fun x => default ""%string (re_search_name x))
    (fun x => x)
    (NodeInfo "x86_64" 16384 8 2400 1 1 4 2)
    "QEMU"
    4096.

Definition demo_uri : option string := Some "qemu:///system"%string.

Lemma demo_connects : connects demo_hv demo_uri (OpenUri "qemu:///system").
Proof. split; reflexivity. Defined.

(** ** C1: the state-transition table *)

(** C1. In desired-state mode (a desired state and a guest name, no autostart
    argument, not the [list_vms] query) the invocation follows the transition
    table of the specification: a token outside the table fails with
    "unexpected state" before anything is sent; on a row without action the
    result is the empty dictionary (no [changed]) and no request that changes
    the hypervisor is sent; on a row with an action exactly that one request
    is sent and, once the hypervisor accepts it, the result is
    [changed = True] with the driver's answer. *)
Theorem desired_state_table h p desired g :
  p_state p = Some desired -> desired <> ""%string ->
  p_name p = Some g -> g <> ""%string ->
  p_autostart p = None -> p_command p <> Some "list_vms"%string ->
  let r := run h p in
  (desired_state desired = false ->
   fst r = FailJson "unexpected state" /\ ps_trace (snd r) = []) /\
  (forall d oc,
     connects h (p_uri p) oc -> served h RListAllDomains -> served h (RInfo g) ->
     hv_domains h !! g = Some d ->
     match spec_transition desired (status_of d) with
     | Invalid => fst r = FailJson "unexpected state"
     | Stay => fst r = Ok (VIRT_SUCCESS, []) /\ mutations (ps_trace (snd r)) = []
     | Do a =>
         mutations (ps_trace (snd r)) = [action_request a g] /\
         (served h (action_request a g) ->
          fst r = Ok (VIRT_SUCCESS, [("changed"%string, VBool true);
                                     ("msg"%string, VInt 0)]))
     end).
Proof.
  intros Hst Hne Hn Hg Hau Hcmd r.
  assert (Hrun : r = core_state p [] (initial h)).
  { subst r. unfold run, core, core_autostart. rewrite Hst, Hau.
    rewrite (truthy_some _ Hne), (bool_decide_eq_false_2 _ Hcmd).
    cbn [andb]. rewrite run_bind, run_ret.
    rewrite (bool_decide_eq_false_2 (None ≠ None)) by (intros H; by apply H).
    reflexivity. }
  rewrite Hrun. split.
  - intros Hd. by rewrite (core_state_invalid p desired g [] _ Hst Hn Hg Hd).
  - intros d oc Hc Hl Hi Hd.
    pose proof (core_state_table p desired g d oc [] h None [] [] Hst Hn Hg Hc Hl Hi Hd)
      as Htable.
    cbv zeta in Htable. fold (initial h) in Htable.
    destruct (spec_transition desired (status_of d)) as [| |a].
    + by rewrite Htable.
    + destruct Htable as (Ho & Hm & _). by split.
    + destruct Htable as [Hm Ho]. split; [exact Hm|].
      intros Hs. rewrite Ho, Hs. reflexivity.
Qed.

Lemma desired_state_table_witness :
  mutations (ps_trace (snd (run demo_hv
    (Params (Some "running"%string) None (Some "beta"%string) None None None
            demo_uri None))))
  = [RResume "beta"].
Proof.
  pose proof (desired_state_table demo_hv
    (Params (Some "running"%string) None (Some "beta"%string) None None None
            demo_uri None) "running" "beta"
    eq_refl ltac:(discriminate) eq_refl ltac:(discriminate) eq_refl
    ltac:(discriminate)) as [_ H].
  specialize (H (demo_domain 3 true (demo_xml "beta")) _ demo_connects
                eq_refl eq_refl eq_refl).
  exact (proj1 H).
Defined.

(** ** The autostart check *)

Lemma lookup_ok h c g d cn tr w :
  served h (RLookupByName g) -> hv_domains h !! g = Some d ->
  virConnect.lookupByName c g (PState h cn tr w)
  = (Ok (Handle c g), PState h cn (tr ++ [ECall c (RLookupByName g)]) w).
Proof.
  intros Hs Hg. unfold virConnect.lookupByName.
  apply call_served; [exact Hs|]. unfold on_domain. by rewrite Hg.
Qed.

(** [Virt.autostart] (lines 380-387) on a domain that can be looked up. *)
Lemma autostart_run h uri oc g d a cn tr w :
  connects h uri oc -> served h (RLookupByName g) -> served h (RAutostart g) ->
  hv_domains h !! g = Some d ->
  Virt.autostart uri g a (PState h cn tr w)
  = if Bool.eqb (di_autostart d) a then
      (Ok false,
       PState h (Some (opened tr))
              (tr ++ [EOpen oc; ECall (opened tr) (RLookupByName g);
                      ECall (opened tr) (RAutostart g)]) w)
    else
      match hv_fault h (RSetAutostart g a) with
      | None =>
          (Ok true,
           PState (with_domains h (<[g := set_autostart_bit a d]> (hv_domains h)))
                  (Some (opened tr))
                  (tr ++ [EOpen oc; ECall (opened tr) (RLookupByName g);
                          ECall (opened tr) (RAutostart g);
                          ECall (opened tr) (RLookupByName g);
                          ECall (opened tr) (RSetAutostart g a)]) w)
      | Some e =>
          (Raise (LibvirtError e),
           PState h (Some (opened tr))
                  (tr ++ [EOpen oc; ECall (opened tr) (RLookupByName g);
                          ECall (opened tr) (RAutostart g);
                          ECall (opened tr) (RLookupByName g);
                          ECall (opened tr) (RSetAutostart g a)]) w)
      end.
Proof.
  intros Hc Hl Ha Hg. unfold Virt.autostart.
  erewrite run_bind_ok; [|apply get_conn_ok; exact Hc].
  rewrite run_bind. cbn [Virt.set_self_conn ps_hv ps_conn ps_trace ps_warnings].
  rewrite run_bind. cbn [Virt.self_conn ps_conn].
  unfold LibvirtConnection.get_autostart at 1.
  rewrite run_bind.
  erewrite run_bind_ok; [|eapply lookup_ok; eassumption].
  unfold virDomain.autostart. cbn [h_conn h_name].
  erewrite call_served; [|exact Ha|unfold on_domain; rewrite Hg; reflexivity].
  destruct (Bool.eqb (di_autostart d) a); cbn [negb].
  - rewrite run_ret, <- !app_assoc. reflexivity.
  - rewrite run_bind. cbn [Virt.self_conn ps_conn].
    unfold LibvirtConnection.set_autostart.
    rewrite run_bind.
    erewrite run_bind_ok; [|eapply lookup_ok; eassumption].
    unfold virDomain.setAutostart. cbn [h_conn h_name].
    destruct (hv_fault h (RSetAutostart g a)) as [e|] eqn:Hf.
    + erewrite call_refused by exact Hf. rewrite <- !app_assoc. reflexivity.
    + erewrite call_served;
        [|exact Hf|unfold on_domain; rewrite Hg; reflexivity].
      rewrite run_ret, <- !app_assoc. reflexivity.
Qed.


Lemma opened_app tr1 tr2 : opened (tr1 ++ tr2) = (opened tr1 + opened tr2)%nat.
Proof. unfold opened. by rewrite List.filter_app, length_app. Qed.


(** ** C7: the autostart check *)







(** The three ways [LibvirtConnection.__init__] ends. *)
Lemma init_cases uri h cn tr w :
  (exists oc, LibvirtConnection.init uri (PState h cn tr w)
              = (Ok (opened tr), PState h cn (tr ++ [EOpen oc]) w)) \/
  (exists oc e, LibvirtConnection.init uri (PState h cn tr w)
                = (Raise e, PState h cn (tr ++ [EOpenFailed oc]) w)) \/
  (exists e, LibvirtConnection.init uri (PState h cn tr w)
             = (Raise e, PState h cn tr w)).
Proof.
  unfold LibvirtConnection.init. rewrite run_bind. cbn [get_hv ps_hv].
  assert (Hopen : forall oc,
    (exists oc', (match hv_open h oc with
         | OpenOk => tr0 ← get_trace; emit (EOpen oc);; mret (opened tr0)
         | OpenNull =>
             emit (EOpenFailed oc);;
             raise (PyException "hypervisor connection failure")
         | OpenRefused e => emit (EOpenFailed oc);; raise (LibvirtError e)
         end) (PState h cn tr w)
       = (Ok (opened tr), PState h cn (tr ++ [EOpen oc']) w)) \/
    (exists oc' e, (match hv_open h oc with
         | OpenOk => tr0 ← get_trace; emit (EOpen oc);; mret (opened tr0)
         | OpenNull =>
             emit (EOpenFailed oc);;
             raise (PyException "hypervisor connection failure")
         | OpenRefused e => emit (EOpenFailed oc);; raise (LibvirtError e)
         end) (PState h cn tr w)
       = (Raise e, PState h cn (tr ++ [EOpenFailed oc']) w))).
  { intros oc. destruct (hv_open h oc); [left|right|right]; eauto. }
  destruct (str_contains "xen" (hv_uname h)).
  - rewrite run_bind, run_ret. destruct (Hopen OpenDefault) as [H|H]; auto.
  - destruct uri as [u|].
    + destruct (str_contains "esx" u); rewrite run_bind, run_ret;
        [destruct (Hopen (OpenAuth u)) as [H|H]|destruct (Hopen (OpenUri u)) as [H|H]];
        auto.
    + right. right. eauto.
Qed.

(** ** A program logic for the monad

    [hoare P m Q E]: from a state satisfying [P], [m] ends in a state
    satisfying [Q a] when it returns [a], and [E] when it raises or fails. *)

Definition hoare {A} (P : pstate -> Prop) (m : M A) (Q : A -> pstate -> Prop)
    (E : pstate -> Prop) : Prop :=
  forall s, P s ->
    match m s with
    | (Ok a, s') => Q a s'
    | (_, s') => E s'
    end.

Lemma hoare_ret {A} (a : A) (Q : A -> pstate -> Prop) E :
  hoare (Q a) (mret a) Q E.
Proof. intros s H. exact H. Qed.

Lemma hoare_raise {A} e (Q : A -> pstate -> Prop) (E : pstate -> Prop) :
  hoare E (raise e) Q E.
Proof. intros s H. exact H. Qed.

Lemma hoare_fail_json {A} msg (Q : A -> pstate -> Prop) (E : pstate -> Prop) :
  hoare E (fail_json msg) Q E.
Proof. intros s H. exact H. Qed.

Lemma hoare_bind {A B} P (m : M A) Q' (k : A -> M B) Q E :
  hoare P m Q' E -> (forall a, hoare (Q' a) (k a) Q E) -> hoare P (m ≫= k) Q E.
Proof.
  intros Hm Hk s HP. rewrite run_bind. specialize (Hm s HP).
  destruct (m s) as [[a|e|msg] s']; [by apply Hk|exact Hm|exact Hm].
Qed.

Lemma hoare_conseq {A} (P P' : pstate -> Prop) (m : M A)
    (Q Q' : A -> pstate -> Prop) (E E' : pstate -> Prop) :
  hoare P' m Q' E' ->
  (forall s, P s -> P' s) -> (forall a s, Q' a s -> Q a s) ->
  (forall s, E' s -> E s) ->
  hoare P m Q E.
Proof.
  intros Hm HP HQ HE s Hs. specialize (Hm s (HP s Hs)).
  destruct (m s) as [[a|e|msg] s']; auto.
Qed.

Lemma hoare_try_except {A} P (m : M A) handler Q E E' :
  hoare P m Q E' ->
  (forall e h, handler e = Some h -> hoare E' h Q E) ->
  (forall s, E' s -> E s) ->
  hoare P (try_except m handler) Q E.
Proof.
  intros Hm Hh HE s HP. unfold try_except. specialize (Hm s HP).
  destruct (m s) as [[a|e|msg] s']; [exact Hm| |by apply HE].
  destruct (handler e) as [h|] eqn:Hhe; [by eapply Hh|by apply HE].
Qed.

(** A property of the state that a computation can assume all along. *)
Lemma hoare_pure {A} (F : Prop) (P : pstate -> Prop) (m : M A) Q E :
  (F -> hoare P m Q E) -> hoare (fun s => F /\ P s) m Q E.
Proof. intros H s [HF HP]. by apply H. Qed.

Lemma hoare_exists {A B} (P : B -> pstate -> Prop) (m : M A) Q E :
  (forall b, hoare (P b) m Q E) -> hoare (fun s => exists b, P b s) m Q E.
Proof. intros H s [b Hb]. by eapply H. Qed.

(** ** The connection discipline

    Every request goes to the connection opened last, and only permitted
    requests are sent. *)

Section Discipline.

Variable permitted : request -> bool.

(** [n] connections are open when [tr] starts. *)
Fixpoint disciplined_from (n : nat) (tr : list event) : bool :=
  match tr with
  | [] => true
  | EOpen _ :: tr' => disciplined_from (S n) tr'
  | EOpenFailed _ :: tr' => disciplined_from n tr'
  | ECall c rq :: tr' =>
      Nat.eqb (S c) n && permitted rq && disciplined_from n tr'
  end.

Definition disciplined (tr : list event) : bool := disciplined_from 0 tr.

Lemma disciplined_from_app n tr1 tr2 :
  disciplined_from n (tr1 ++ tr2)
  = disciplined_from n tr1 && disciplined_from (n + opened tr1) tr2.
Proof.
  revert n. induction tr1 as [|e tr1 IH]; intros n.
  - cbn. by rewrite Nat.add_0_r.
  - destruct e as [oc|oc|c rq]; cbn [app disciplined_from].
    + rewrite IH. unfold opened. cbn. by rewrite Nat.add_succ_r.
    + rewrite IH. reflexivity.
    + rewrite IH, <- !andb_assoc. reflexivity.
Qed.

(** The invariant of a [Virt] object between two driver events. *)
Definition inv (s : pstate) : Prop :=
  disciplined (ps_trace s) = true /\
  forall c, ps_conn s = Some c -> S c = opened (ps_trace s).

(** [c] is the connection opened last, and the one [self.conn] holds. *)
Definition invc (c : nat) (s : pstate) : Prop :=
  disciplined (ps_trace s) = true /\ ps_conn s = Some c /\
  S c = opened (ps_trace s).

Lemma invc_inv c s : invc c s -> inv s.
Proof. intros (Hd & Hc & Hcur). split; [exact Hd|]. intros c'. rewrite Hc. by intros [= <-]. Qed.

Lemma inv_initial h : inv (initial h).
Proof. split; [reflexivity|discriminate]. Qed.

Lemma hoare_call {A} c rq (sem : hypervisor -> libvirt_error + (A * hypervisor)) :
  permitted rq = true ->
  hoare (invc c) (call c rq sem) (fun _ => invc c) (invc c).
Proof.
  intros Hp [h cn tr w] (Hd & Hc & Hcur). cbn [ps_trace ps_conn] in Hd, Hc, Hcur.
  assert (Hinv : forall h', invc c (PState h' cn (tr ++ [ECall c rq]) w)).
  { intros h'. split; [|split]; cbn [ps_trace ps_conn].
    - unfold disciplined in *. rewrite disciplined_from_app, Hd.
      cbn [disciplined_from andb Nat.add].
      rewrite <- Hcur, Nat.eqb_refl, Hp. reflexivity.
    - exact Hc.
    - rewrite opened_app. change (opened [ECall c rq]) with 0%nat. lia. }
  unfold call. rewrite run_bind. cbn [emit ps_hv ps_conn ps_trace ps_warnings].
  rewrite run_bind. cbn [get_hv ps_hv].
  destruct (hv_fault h rq); [apply Hinv|].
  destruct (sem h) as [e|[a h']]; apply Hinv.
Qed.

Lemma hoare_get_conn uri :
  hoare inv (Virt.get_conn uri) invc inv.
Proof.
  intros [h cn tr w] [Hd Hc]. cbn [ps_trace ps_conn] in Hd, Hc.
  unfold Virt.get_conn. rewrite run_bind.
  destruct (init_cases uri h cn tr w) as [[oc ->]|[(oc & e & ->)|[e ->]]].
  - cbn. split; [|split]; cbn [ps_trace ps_conn].
    + unfold disciplined in *. rewrite disciplined_from_app, Hd. reflexivity.
    + reflexivity.
    + rewrite opened_app. change (opened [EOpen oc]) with 1%nat. lia.
  - split; cbn [ps_trace ps_conn].
    + unfold disciplined in *. rewrite disciplined_from_app, Hd. reflexivity.
    + intros c' Hc'. rewrite opened_app. change (opened [EOpenFailed oc]) with 0%nat.
      rewrite Nat.add_0_r. by apply Hc.
  - by split.
Qed.

Lemma hoare_self_conn c :
  hoare (invc c) Virt.self_conn (fun c' s => c' = c /\ invc c s) (invc c).
Proof.
  intros [h cn tr w] Hi. pose proof Hi as (_ & Hcn & _).
  cbn [ps_conn] in Hcn. subst cn. cbn. by split.
Qed.

Lemma hoare_set_self_conn c :
  hoare (invc c) (Virt.set_self_conn c) (fun _ => invc c) (invc c).
Proof. intros [h cn tr w] (Hd & Hc & Hcur). by split. Qed.

Lemma hoare_warn msg (P : pstate -> Prop) :
  (forall h cn tr w w', P (PState h cn tr w) -> P (PState h cn tr w')) ->
  hoare P (warn msg) (fun _ => P) P.
Proof. intros HP [h cn tr w] H. cbn. by eapply HP. Qed.

Hypothesis reads_permitted : forall rq, mutating rq = false -> permitted rq = true.

(** [m] runs on connection [c] and leaves it the last one opened. *)
Definition keeps {A} (c : nat) (m : M A) : Prop :=
  hoare (invc c) m (fun _ => invc c) (invc c).

Lemma keeps_ret {A} c (a : A) : keeps c (mret a).
Proof. intros s H. exact H. Qed.

Lemma keeps_raise {A} c e : keeps c (raise e : M A).
Proof. intros s H. exact H. Qed.

Lemma keeps_bind {A B} c (m : M A) (k : A -> M B) :
  keeps c m -> (forall a, keeps c (k a)) -> keeps c (m ≫= k).
Proof. intros Hm Hk. eapply hoare_bind; [exact Hm|exact Hk]. Qed.

Lemma keeps_call {A} c rq (sem : hypervisor -> libvirt_error + (A * hypervisor)) :
  permitted rq = true -> keeps c (call c rq sem).
Proof. apply hoare_call. Qed.

(** What a served request answers can be assumed afterwards. *)
Lemma hoare_call_post {A} c rq
    (sem : hypervisor -> libvirt_error + (A * hypervisor)) (F : A -> Prop) :
  permitted rq = true ->
  (forall h a h', sem h = inr (a, h') -> F a) ->
  hoare (invc c) (call c rq sem) (fun a s => F a /\ invc c s) (invc c).
Proof.
  intros Hp HF [h cn tr w] Hs.
  pose proof (hoare_call c rq sem Hp _ Hs) as Hcall.
  destruct (call c rq sem _) as [[a|e|msg] s'] eqn:Hrun; [|exact Hcall|exact Hcall].
  split; [|exact Hcall].
  unfold call in Hrun. rewrite run_bind in Hrun.
  cbn [emit ps_hv ps_conn ps_trace ps_warnings] in Hrun.
  rewrite run_bind in Hrun. cbn [get_hv ps_hv] in Hrun.
  destruct (hv_fault h rq); [discriminate|].
  destruct (sem h) as [e|[a' h']] eqn:Hsem; [discriminate|].
  cbn in Hrun. injection Hrun as <- _. by eapply HF.
Qed.

(** Handles remember the connection they came from. *)
Lemma hoare_find_vm_all c :
  hoare (invc c) (LibvirtConnection.find_vm_all c)
        (fun vms s => Forall (fun vm => h_conn vm = c) vms /\ invc c s) (invc c).
Proof.
  apply hoare_call_post; [by apply reads_permitted|].
  intros h vms h' [= <- _]. apply List.Forall_forall. intros vm Hin.
  apply List.in_map_iff in Hin. by destruct Hin as (kv & <- & _).
Qed.

Lemma hoare_find_vm c vmid :
  hoare (invc c) (LibvirtConnection.find_vm c vmid)
        (fun vm s => h_conn vm = c /\ invc c s) (invc c).
Proof.
  unfold LibvirtConnection.find_vm.
  eapply hoare_bind; [apply hoare_find_vm_all|].
  intros vms. apply hoare_pure. intros Hvms.
  destruct (List.find _ vms) as [vm|] eqn:Hfind; [|apply hoare_raise].
  apply List.find_some in Hfind as [Hin _].
  rewrite List.Forall_forall in Hvms. specialize (Hvms vm Hin).
  intros s Hs. by split.
Qed.

Lemma hoare_lookupByName c vmid :
  hoare (invc c) (virConnect.lookupByName c vmid)
        (fun vm s => h_conn vm = c /\ invc c s) (invc c).
Proof.
  apply hoare_call_post; [by apply reads_permitted|].
  intros h vm h'. unfold on_domain. destruct (hv_domains h !! vmid); [|discriminate].
  by intros [= <- _].
Qed.

Lemma hoare_defineXML c xml :
  permitted (RDefineXML xml) = true ->
  hoare (invc c) (virConnect.defineXML c xml)
        (fun vm s => h_conn vm = c /\ invc c s) (invc c).
Proof.
  intros Hp. apply hoare_call_post; [exact Hp|]. by intros h vm h' [= <- _].
Qed.

(** A method that finds the domain and sends it one request. *)
Lemma keeps_on_found {A} c vmid (op : handle -> M A) :
  (forall vm, h_conn vm = c -> keeps c (op vm)) ->
  keeps c (vm ← LibvirtConnection.find_vm c vmid; op vm).
Proof.
  intros Hop. eapply hoare_bind; [apply hoare_find_vm|].
  intros vm. apply hoare_pure. intros Hvm. by apply Hop.
Qed.

Lemma keeps_on_lookup {A} c vmid (op : handle -> M A) :
  (forall vm, h_conn vm = c -> keeps c (op vm)) ->
  keeps c (vm ← virConnect.lookupByName c vmid; op vm).
Proof.
  intros Hop. eapply hoare_bind; [apply hoare_lookupByName|].
  intros vm. apply hoare_pure. intros Hvm. by apply Hop.
Qed.

Lemma keeps_info vm : keeps (h_conn vm) (virDomain.info vm).
Proof. apply keeps_call. by apply reads_permitted. Qed.

Lemma keeps_XMLDesc vm flags : keeps (h_conn vm) (virDomain.XMLDesc vm flags).
Proof. apply keeps_call. by apply reads_permitted. Qed.

Lemma keeps_dom_autostart vm : keeps (h_conn vm) (virDomain.autostart vm).
Proof. apply keeps_call. by apply reads_permitted. Qed.

Lemma keeps_get_status2 vm : keeps (h_conn vm) (LibvirtConnection.get_status2 vm).
Proof.
  apply keeps_bind; [apply keeps_info|]. intros data. apply keeps_ret.
Qed.

Lemma keeps_get_status c vmid : keeps c (LibvirtConnection.get_status c vmid).
Proof.
  apply keeps_on_found. intros vm <-.
  apply keeps_bind; [apply keeps_info|]. intros data. apply keeps_ret.
Qed.

Lemma keeps_get_xml c vmid : keeps c (LibvirtConnection.get_xml c vmid).
Proof. apply keeps_on_lookup. intros vm <-. apply keeps_XMLDesc. Qed.

Lemma keeps_get_autostart c vmid : keeps c (LibvirtConnection.get_autostart c vmid).
Proof. apply keeps_on_lookup. intros vm <-. apply keeps_dom_autostart. Qed.

Lemma keeps_set_autostart c vmid val :
  (forall n, permitted (RSetAutostart n val) = true) ->
  keeps c (LibvirtConnection.set_autostart c vmid val).
Proof.
  intros Hp. apply keeps_on_lookup. intros vm <-. by apply keeps_call.
Qed.

Lemma keeps_action a c vmid :
  (forall n, permitted (action_request a n) = true) ->
  keeps c (action_conn_method a c vmid).
Proof.
  intros Hp. destruct a; apply keeps_on_found; intros vm <-;
    apply keeps_call; apply Hp.
Qed.

Lemma keeps_undefine c vmid flag :
  (forall n, permitted (RUndefineFlags n flag) = true) ->
  keeps c (LibvirtConnection.undefine c vmid flag).
Proof.
  intros Hp. apply keeps_on_found. intros vm <-. by apply keeps_call.
Qed.

Lemma keeps_conn_info c : keeps c (LibvirtConnection.nodeinfo c).
Proof. apply keeps_call. by apply reads_permitted. Qed.

Lemma keeps_get_type c : keeps c (LibvirtConnection.get_type c).
Proof. apply keeps_call. by apply reads_permitted. Qed.

Lemma keeps_getFreeMemory c : keeps c (LibvirtConnection.getFreeMemory c).
Proof. apply keeps_call. by apply reads_permitted. Qed.

(** *** The [Virt] methods *)

Lemma keeps_inv {A} c (m : M A) :
  keeps c m -> hoare (invc c) m (fun _ => inv) inv.
Proof.
  intros H. eapply hoare_conseq; [exact H|auto| |].
  - intros a s. apply invc_inv.
  - apply invc_inv.
Qed.

Lemma hoare_exc_inv {A} c P (m : M A) Q :
  hoare P m Q (invc c) -> hoare P m Q inv.
Proof. intros H. eapply hoare_conseq; [exact H|auto|auto|apply invc_inv]. Qed.

(** [self.__get_conn()] first, then [body] on the new connection. *)
Lemma hoare_on_conn {A} uri (body : nat -> M A) Q :
  (forall c, hoare (invc c) (body c) Q inv) ->
  hoare inv (Virt.get_conn uri ≫= body) Q inv.
Proof. intros H. eapply hoare_bind; [apply hoare_get_conn|exact H]. Qed.

(** [self.conn] read back: it is the connection opened last. *)
Lemma hoare_on_self {A} c (body : nat -> M A) Q E :
  hoare (invc c) (body c) Q E -> (forall s, invc c s -> E s) ->
  hoare (invc c) (Virt.self_conn ≫= body) Q E.
Proof.
  intros H HE. eapply hoare_bind with (Q' := fun c' s => c' = c /\ invc c s).
  - eapply hoare_conseq; [apply (hoare_self_conn c)|auto|auto|exact HE].
  - intros c'. cbn beta. apply hoare_pure. by intros ->.
Qed.

(** The three shapes a method takes. *)
Lemma hoare_method1 {A} uri (body : nat -> M A) Q :
  (forall c, hoare (invc c) (body c) Q inv) ->
  hoare inv (Virt.get_conn uri;; c ← Virt.self_conn; body c) Q inv.
Proof.
  intros H. apply hoare_on_conn. intros c.
  apply hoare_on_self; [apply H|apply invc_inv].
Qed.

Lemma hoare_method2 {A} uri (body : nat -> M A) Q :
  (forall c, hoare (invc c) (body c) Q inv) ->
  hoare inv (c ← Virt.get_conn uri; Virt.set_self_conn c;; c ← Virt.self_conn; body c)
        Q inv.
Proof.
  intros H. apply hoare_on_conn. intros c.
  eapply hoare_bind with (Q' := fun _ => invc c).
  - eapply hoare_conseq; [apply (hoare_set_self_conn c)|auto|auto|apply invc_inv].
  - intros _. apply hoare_on_self; [apply H|apply invc_inv].
Qed.

Lemma hoare_get_vm uri vmid :
  hoare inv (Virt.get_vm uri vmid) (fun vm s => invc (h_conn vm) s) inv.
Proof.
  apply hoare_method1. intros c.
  eapply hoare_conseq; [apply (hoare_find_vm c)|auto| |apply invc_inv].
  by intros vm s [<- H].
Qed.

Lemma keeps_list_vms_step c state results x :
  h_conn x = c -> keeps c (Virt.list_vms_step state results x).
Proof.
  intros <-. unfold Virt.list_vms_step.
  eapply hoare_try_except with (E' := invc (h_conn x)); [| |auto].
  - destruct (truthy state); [|apply keeps_ret].
    apply keeps_bind; [apply keeps_get_status2|].
    intros vmstate. case_bool_decide; apply keeps_ret.
  - intros e h [= <-]. apply keeps_ret.
Qed.

Lemma keeps_list_vms_loop c state vms results :
  Forall (fun vm => h_conn vm = c) vms ->
  keeps c (Virt.list_vms_loop state results vms).
Proof.
  intros Hvms. revert results.
  induction Hvms as [|x vms Hx _ IH]; intros results; cbn [Virt.list_vms_loop].
  - apply keeps_ret.
  - apply keeps_bind; [by apply keeps_list_vms_step|]. intros results'. apply IH.
Qed.

(** After [list_vms], [self.conn] is the connection it opened. *)
Lemma hoare_list_vms uri state :
  hoare inv (Virt.list_vms uri state) (fun _ s => exists c, invc c s) inv.
Proof.
  apply hoare_method2. intros c.
  eapply hoare_bind; [apply (hoare_exc_inv c), hoare_find_vm_all|].
  intros vms. apply hoare_pure. intros Hvms.
  eapply hoare_conseq; [by apply (keeps_list_vms_loop c)|auto| |apply invc_inv].
  intros r s Hs. by exists c.
Qed.

Lemma keeps_state_loop c state vms : keeps c (Virt.state_loop state vms).
Proof.
  revert state. induction vms as [|vm vms IH]; intros state; cbn [Virt.state_loop].
  - apply keeps_ret.
  - apply hoare_on_self; [|auto].
    apply keeps_bind; [apply keeps_get_status|]. intros blurb. apply IH.
Qed.

Lemma keeps_info_loop c info vms : keeps c (Virt.info_loop info vms).
Proof.
  revert info. induction vms as [|vm vms IH]; intros info; cbn [Virt.info_loop].
  - apply keeps_ret.
  - apply hoare_on_self; [|auto].
    eapply hoare_bind; [apply hoare_find_vm|].
    intros h. apply hoare_pure. intros <-.
    apply keeps_bind; [apply keeps_info|]. intros data.
    apply hoare_on_self; [|auto].
    apply keeps_bind; [apply keeps_get_autostart|]. intros a. apply IH.
Qed.

Lemma hoare_state uri : hoare inv (Virt.state uri) (fun _ => inv) inv.
Proof.
  eapply hoare_bind; [apply hoare_list_vms|].
  intros vms. apply hoare_exists. intros c. apply keeps_inv, keeps_state_loop.
Qed.

Lemma hoare_info uri : hoare inv (Virt.info uri) (fun _ => inv) inv.
Proof.
  eapply hoare_bind; [apply hoare_list_vms|].
  intros vms. apply hoare_exists. intros c. apply keeps_inv, keeps_info_loop.
Qed.

Lemma hoare_nodeinfo uri : hoare inv (Virt.nodeinfo uri) (fun _ => inv) inv.
Proof.
  apply hoare_method1. intros c. apply keeps_inv.
  apply keeps_bind; [apply keeps_conn_info|]. intros data. apply keeps_ret.
Qed.

Lemma hoare_virttype uri : hoare inv (Virt.virttype uri) (fun _ => inv) inv.
Proof. apply hoare_on_conn. intros c. apply keeps_inv, keeps_get_type. Qed.

Lemma hoare_freemem uri : hoare inv (Virt.freemem uri) (fun _ => inv) inv.
Proof. apply hoare_method2. intros c. apply keeps_inv, keeps_getFreeMemory. Qed.

Lemma hoare_status uri vmid : hoare inv (Virt.status uri vmid) (fun _ => inv) inv.
Proof. apply hoare_method1. intros c. apply keeps_inv, keeps_get_status. Qed.

Lemma hoare_get_xml uri vmid : hoare inv (Virt.get_xml uri vmid) (fun _ => inv) inv.
Proof. apply hoare_method1. intros c. apply keeps_inv, keeps_get_xml. Qed.

Lemma hoare_action a uri vmid :
  (forall n, permitted (action_request a n) = true) ->
  hoare inv (action_method a uri vmid) (fun _ => inv) inv.
Proof.
  intros Hp. pose proof (fun c => keeps_action a c vmid Hp) as H.
  destruct a; cbn [action_method action_conn_method] in *;
    apply hoare_method1; intros c; apply keeps_inv; try apply H.
  apply keeps_bind; [apply H|]. intros _. apply keeps_ret.
Qed.

Lemma hoare_undefine uri vmid flag :
  (forall n, permitted (RUndefineFlags n flag) = true) ->
  hoare inv (Virt.undefine uri vmid flag) (fun _ => inv) inv.
Proof.
  intros Hp. apply hoare_method1. intros c. by apply keeps_inv, keeps_undefine.
Qed.

Lemma hoare_define uri xml :
  permitted (RDefineXML xml) = true ->
  hoare inv (Virt.define uri xml) (fun vm s => invc (h_conn vm) s) inv.
Proof.
  intros Hp. apply hoare_method1. intros c.
  eapply hoare_conseq; [by apply (hoare_defineXML c)|auto| |apply invc_inv].
  by intros vm s [<- H].
Qed.

(** [Virt.autostart] answers [False] only when it sent no set-autostart. *)
Lemma hoare_autostart uri vmid as_flag :
  (forall n, permitted (RSetAutostart n as_flag) = true) ->
  hoare inv (Virt.autostart uri vmid as_flag) (fun _ => inv) inv.
Proof.
  intros Hp. apply hoare_method2. intros c. apply keeps_inv.
  apply keeps_bind; [apply keeps_get_autostart|]. intros cur.
  destruct (negb (Bool.eqb cur as_flag)); [|apply keeps_ret].
  apply hoare_on_self; [|auto].
  apply keeps_bind; [by apply keeps_set_autostart|]. intros _. apply keeps_ret.
Qed.

(** *** [core] *)

Lemma hoare_inv_ret {A} (a : A) : hoare inv (mret a) (fun _ => inv) inv.
Proof. intros s H. exact H. Qed.

Lemma hoare_inv_warn msg : hoare inv (warn msg) (fun _ => inv) inv.
Proof. by intros [h cn tr w] H. Qed.

Lemma hoare_inv_guard (b : bool) msg :
  hoare inv (if b then fail_json msg else mret tt) (fun _ => inv) inv.
Proof. destruct b; intros s H; exact H. Qed.

Lemma hoare_inv_bind {A B} (m : M A) (k : A -> M B) :
  hoare inv m (fun _ => inv) inv -> (forall a, hoare inv (k a) (fun _ => inv) inv) ->
  hoare inv (m ≫= k) (fun _ => inv) inv.
Proof. intros Hm Hk. eapply hoare_bind; [exact Hm|exact Hk]. Qed.

(** Every request but [undefineFlags] is permitted. *)
Hypothesis lifecycle_permitted :
  forall rq, (forall n flag, rq <> RUndefineFlags n flag) -> permitted rq = true.

Lemma hoare_core_autostart p res :
  hoare inv (core_autostart p res) (fun _ => inv) inv.
Proof.
  unfold core_autostart. destruct (p_autostart p) as [a|]; [|apply hoare_inv_ret].
  destruct (negb _); [|apply hoare_inv_ret].
  apply hoare_inv_bind; [apply hoare_inv_guard|]. intros _.
  apply hoare_inv_bind.
  - eapply hoare_try_except with (E' := inv); [| |auto].
    + eapply hoare_bind; [apply hoare_get_vm|].
      intros vm s Hs. by eapply invc_inv.
    + intros e h He. destruct e; try discriminate. injection He as <-.
      apply hoare_fail_json.
  - intros _. apply hoare_inv_bind; [|intros changed; apply hoare_inv_ret].
    apply hoare_autostart. intros n. by apply lifecycle_permitted.
Qed.

Lemma hoare_transition a uri g res :
  hoare inv (msg ← action_method a uri g;
             mret (dict_set "msg" (VInt msg) (dict_set "changed" (VBool true) res)))
        (fun _ => inv) inv.
Proof.
  apply hoare_inv_bind; [|intros msg; apply hoare_inv_ret].
  apply hoare_action. intros n. apply lifecycle_permitted. by destruct a.
Qed.

Lemma hoare_core_state p res :
  hoare inv (core_state p res) (fun _ => inv) inv.
Proof.
  unfold core_state.
  apply hoare_inv_bind; [apply hoare_inv_guard|]. intros _.
  apply hoare_inv_bind; [|intros r; apply hoare_inv_ret].
  repeat case_bool_decide.
  - apply hoare_inv_bind; [apply hoare_status|]. intros s1.
    destruct (String.eqb s1 "paused"); [apply (hoare_transition Resume)|].
    apply hoare_inv_bind; [apply hoare_status|]. intros s2.
    destruct (negb _); [apply (hoare_transition Start)|apply hoare_inv_ret].
  - apply hoare_inv_bind; [apply hoare_status|]. intros s1.
    destruct (negb _); [apply (hoare_transition GracefulStop)|apply hoare_inv_ret].
  - apply hoare_inv_bind; [apply hoare_status|]. intros s1.
    destruct (negb _); [apply (hoare_transition ForceStop)|apply hoare_inv_ret].
  - apply hoare_inv_bind; [apply hoare_status|]. intros s1.
    destruct (String.eqb s1 "running");
      [apply (hoare_transition Pause)|apply hoare_inv_ret].
  - apply hoare_fail_json.
Qed.

Lemma hoare_core_define p res :
  hoare inv (core_define p res) (fun _ => inv) inv.
Proof.
  unfold core_define.
  apply hoare_inv_bind; [apply hoare_inv_guard|]. intros _.
  apply hoare_inv_bind; [destruct (truthy _); [apply hoare_inv_warn|apply hoare_inv_ret]|].
  intros _.
  apply hoare_inv_bind;
    [destruct (re_search_name _); [apply hoare_inv_ret|apply hoare_fail_json]|].
  intros domain_name.
  apply hoare_inv_bind.
  { eapply hoare_try_except with (E' := inv); [| |auto].
    - eapply hoare_bind; [apply hoare_get_vm|]. intros vm.
      apply keeps_inv. apply keeps_bind; [apply keeps_XMLDesc|].
      intros x. apply keeps_ret.
    - intros e h He. destruct e; try discriminate. injection He as <-.
      apply hoare_inv_ret. }
  intros existing.
  apply hoare_inv_bind.
  { eapply hoare_try_except with (E' := inv); [| |auto].
    - eapply hoare_bind;
        [apply hoare_define; by apply lifecycle_permitted|].
      intros domain. destruct (truthy existing); [|intros s Hs; by eapply invc_inv].
      apply keeps_inv. apply keeps_bind; [apply keeps_XMLDesc|].
      intros x'. destruct (negb _); apply keeps_ret.
    - intros e h He. destruct e; try discriminate. injection He as <-.
      destruct (negb _); [apply hoare_fail_json|apply hoare_inv_ret]. }
  intros res'. destruct (p_autostart p) as [a|]; [|apply hoare_inv_ret].
  apply hoare_inv_bind.
  - apply hoare_autostart. intros n. by apply lifecycle_permitted.
  - intros changed. destruct changed; apply hoare_inv_ret.
Qed.

(** What [getattr] hands back keeps the discipline when it is called. *)
Definition attribute_ok (a : Virt.attribute) : Prop :=
  match a with
  | Virt.Method0 m => hoare inv m (fun _ => inv) inv
  | Virt.Method1 m => forall g, hoare inv (m g) (fun _ => inv) inv
  | _ => True
  end.

Lemma hoare_getattr uri command :
  hoare inv (Virt.getattr uri command) (fun a s => attribute_ok a /\ inv s) inv.
Proof.
  unfold Virt.getattr.
  repeat (destruct (String.eqb command _);
          [intros s0 Hs0; split; [|exact Hs0]; clear s0 Hs0;
           cbn [attribute_ok]; intros;
           (apply hoare_inv_bind; [|intros r; apply hoare_inv_ret])|]).
  - apply hoare_state.
  - apply hoare_info.
  - apply hoare_nodeinfo.
  - eapply hoare_conseq; [apply hoare_list_vms|auto| |auto].
    intros r s [c Hc]. by eapply invc_inv.
  - apply hoare_virttype.
  - apply hoare_freemem.
  - apply (hoare_action GracefulStop). intros n. by apply lifecycle_permitted.
  - apply (hoare_action Pause). intros n. by apply lifecycle_permitted.
  - apply (hoare_action Resume). intros n. by apply lifecycle_permitted.
  - unfold Virt.create. apply (hoare_action Start). intros n. by apply lifecycle_permitted.
  - apply (hoare_action Start). intros n. by apply lifecycle_permitted.
  - apply (hoare_action ForceStop). intros n. by apply lifecycle_permitted.
  - apply hoare_status.
  - apply hoare_get_xml.
  - destruct (existsb _ _); [by intros s Hs|].
    destruct (existsb _ _); [by intros s Hs|].
    destruct (String.eqb command "conn"); [|by intros s Hs].
    intros [h cn tr w] Hs. cbn. split; [|exact Hs]. by destruct cn.
Qed.

(** Two flags that exclude each other are among those given. *)
Definition conflicting (flags : option (list string)) : bool :=
  match flags with
  | Some fl => py_in "nvram" fl && py_in "keep_nvram" fl
  | None => false
  end.

Lemma hoare_undefine_flag flags force :
  hoare inv (undefine_flag flags force)
        (fun _ s => conflicting flags = false /\ inv s) inv.
Proof.
  unfold undefine_flag, conflicting. destruct flags as [fl|].
  - eapply hoare_bind with (Q' := fun _ => inv).
    + case_bool_decide; [apply hoare_inv_warn|apply hoare_inv_ret].
    + intros _. cbn [forallb]. rewrite andb_true_r.
      destruct (py_in "nvram" fl && py_in "keep_nvram" fl);
        [apply hoare_raise|by intros s Hs].
  - case_bool_decide; by intros s Hs.
Qed.

Lemma hoare_core_command p res :
  conflicting (p_flags p) = true \/ (forall rq, permitted rq = true) ->
  hoare inv (core_command p res) (fun _ => inv) inv.
Proof.
  intros Hund. unfold core_command. destruct (py_in _ VM_COMMANDS).
  - apply hoare_inv_bind; [|intros r; apply hoare_inv_ret].
    destruct (String.eqb _ "define"); [apply hoare_core_define|].
    destruct (negb _); [apply hoare_fail_json|].
    destruct (String.eqb _ "undefine").
    + eapply hoare_bind; [apply hoare_undefine_flag|].
      intros flag. apply hoare_pure. intros Hflags.
      destruct Hund as [Hc|Hall]; [congruence|].
      apply hoare_inv_bind; [|intros r; apply hoare_inv_ret].
      apply hoare_undefine. intros n. apply Hall.
    + eapply hoare_bind; [apply hoare_getattr|].
      intros a. apply hoare_pure. intros Ha.
      destruct a; try apply hoare_raise.
      apply hoare_inv_bind; [apply Ha|intros r; apply hoare_inv_ret].
  - eapply hoare_bind; [apply hoare_getattr|].
    intros a. apply hoare_pure. intros Ha.
    destruct a; try apply hoare_raise; [|apply hoare_fail_json].
    apply hoare_inv_bind; [apply Ha|intros r; apply hoare_inv_ret].
Qed.

Lemma hoare_core p :
  conflicting (p_flags p) = true \/ (forall rq, permitted rq = true) ->
  hoare inv (core p) (fun _ => inv) inv.
Proof.
  intros Hund. unfold core. destruct (truthy (p_state p) && _).
  - apply hoare_inv_bind; [|intros r; apply hoare_inv_ret].
    eapply hoare_conseq; [apply hoare_list_vms|auto| |auto].
    intros r s [c Hc]. by eapply invc_inv.
  - apply hoare_inv_bind; [apply hoare_core_autostart|]. intros res.
    destruct (_ && _); [apply hoare_inv_ret|].
    destruct (truthy (p_state p)); [apply hoare_core_state|].
    destruct (truthy (p_command p)); [by apply hoare_core_command|].
    apply hoare_fail_json.
Qed.

(** The trace of a whole invocation. *)
Lemma run_disciplined h p :
  conflicting (p_flags p) = true \/ (forall rq, permitted rq = true) ->
  disciplined (ps_trace (snd (run h p))) = true.
Proof.
  intros Hund. pose proof (hoare_core p Hund (initial h) (inv_initial h)) as H.
  unfold run. destruct (core p (initial h)) as [[r|e|msg] s']; apply H.
Qed.

End Discipline.

(** The requests of a disciplined trace are all permitted. *)
Lemma disciplined_permitted permitted n tr :
  disciplined_from permitted n tr = true ->
  List.forallb permitted (requests tr) = true.
Proof.
  revert n. induction tr as [|e tr IH]; intros n H; [reflexivity|].
  destruct e as [oc|oc|c rq]; cbn in H |- *; [by eapply IH|by eapply IH|].
  apply andb_prop in H as [H1 H2]. apply andb_prop in H1 as [_ Hp].
  change (permitted rq && List.forallb permitted (requests tr) = true).
  rewrite Hp. by eapply IH.
Qed.

(** ** C9: connections *)

(** C9, as the code has it.  [__get_conn] never reuses a connection: whatever
    [self.conn] holds, it opens a new one and hands back its rank; every
    [Virt] method starts with it, so an invocation opens one connection per
    method it runs.  What holds of every invocation is that each request goes
    to the connection opened last, and that none is sent before a connection
    is open. *)
Theorem requests_on_latest_connection :
  (forall h uri oc cn tr w,
     connects h uri oc ->
     Virt.get_conn uri (PState h cn tr w)
     = (Ok (opened tr), PState h (Some (opened tr)) (tr ++ [EOpen oc]) w)) /\
  (forall h p, disciplined (fun _ => true) (ps_trace (snd (run h p))) = true).
Proof.
  split.
  - intros h uri oc cn tr w Hc. by apply get_conn_ok.
  - intros h p. apply run_disciplined; [reflexivity|reflexivity|by right].
Qed.

(** C9 fails as stated: bringing up the shut-off domain [gamma] reads the
    status twice and starts it, on three connections. *)
Lemma three_connections_for_one_start :
  ps_trace (snd (run demo_hv
    (Params (Some "running"%string) None (Some "gamma"%string) None None None
            demo_uri None)))
  = [EOpen (OpenUri "qemu:///system"); ECall 0 RListAllDomains;
     ECall 0 (RInfo "gamma");
     EOpen (OpenUri "qemu:///system"); ECall 1 RListAllDomains;
     ECall 1 (RInfo "gamma");
     EOpen (OpenUri "qemu:///system"); ECall 2 RListAllDomains;
     ECall 2 (RCreate "gamma")].
Proof. vm_compute. reflexivity. Qed.

(** ** C5: flags that exclude each other *)

Definition is_undefine (rq : request) : bool :=
  match rq with RUndefineFlags _ _ => true | _ => false end.

Lemma py_in_In x l : py_in x l = true <-> In x l.
Proof.
  unfold py_in. rewrite existsb_exists. split.
  - intros (y & Hin & Heq). apply String.eqb_eq in Heq. by subst.
  - intros Hin. exists x. split; [exact Hin|apply String.eqb_refl].
Qed.

(** C5. When the flags hold both [nvram] and [keep_nvram], whatever else they
    hold and whatever [force] is: composing the flag raises the error about
    mutually exclusive flags; no invocation sends an undefine request; and the
    [undefine] command itself (a guest, no state, no autostart) ends with that
    error before anything is sent. *)
Theorem conflicting_flags_rejected fl force :
  In "nvram"%string fl -> In "keep_nvram"%string fl ->
  (forall s, fst (undefine_flag (Some fl) force s)
             = Raise (ValueError "Flags 'nvram' and 'keep_nvram' are mutually exclusive")) /\
  (forall h p, p_flags p = Some fl ->
     List.filter is_undefine (requests (ps_trace (snd (run h p)))) = []) /\
  (forall h p g, p_flags p = Some fl -> p_force p = force ->
     p_command p = Some "undefine"%string -> p_name p = Some g -> g <> ""%string ->
     truthy (p_state p) = false -> p_autostart p = None ->
     fst (run h p)
     = Raise (ValueError "Flags 'nvram' and 'keep_nvram' are mutually exclusive") /\
     ps_trace (snd (run h p)) = []).
Proof.
  intros Hnv Hkeep.
  apply py_in_In in Hnv. apply py_in_In in Hkeep.
  assert (Hflag : forall s, exists s',
            undefine_flag (Some fl) force s
            = (Raise (ValueError "Flags 'nvram' and 'keep_nvram' are mutually exclusive"),
               s') /\ ps_trace s' = ps_trace s).
  { intros [h cn tr w]. unfold undefine_flag. rewrite run_bind.
    cbn [forallb]. rewrite Hnv, Hkeep. cbn [andb].
    case_bool_decide; eexists; split; reflexivity. }
  split; [|split].
  - intros s. destruct (Hflag s) as (s' & -> & _). reflexivity.
  - intros h p Hp.
    pose proof (run_disciplined (fun rq => negb (is_undefine rq))) as Hrun.
    specialize (Hrun ltac:(by intros []) ltac:(intros [] H; try reflexivity; by edestruct H) h p).
    assert (Hc : conflicting (p_flags p) = true).
    { rewrite Hp. cbn. by rewrite Hnv, Hkeep. }
    specialize (Hrun (or_introl Hc)).
    apply disciplined_permitted in Hrun.
    induction (requests _) as [|rq l IH]; [reflexivity|].
    cbn in Hrun. apply andb_prop in Hrun as [Hrq Hl].
    cbn [List.filter]. destruct (is_undefine rq); [discriminate|]. by apply IH.
  - intros h p g Hp Hforce Hcmd Hn Hg Hst Hau.
    unfold run, core, core_autostart. rewrite Hst, Hau, Hcmd.
    cbn [andb]. rewrite run_bind, run_ret.
    rewrite (bool_decide_eq_false_2 (None ≠ None)) by (intros H; by apply H).
    cbn [andb truthy String.eqb Ascii.eqb Bool.eqb negb].
    unfold core_command. rewrite Hcmd, Hn, Hp, Hforce, (truthy_some _ Hg).
    cbn [str_of py_in existsb VM_COMMANDS String.eqb Ascii.eqb Bool.eqb orb negb].
    rewrite run_bind, run_bind.
    destruct (Hflag (initial h)) as (s' & -> & Htr). by split.
Qed.

Lemma conflicting_flags_rejected_witness :
  fst (run demo_hv
    (Params None None (Some "alpha"%string) (Some "undefine"%string) (Some true)
            (Some ["managed_save"; "nvram"; "keep_nvram"]%string) demo_uri None))
  = Raise (ValueError "Flags 'nvram' and 'keep_nvram' are mutually exclusive").
Proof.
  pose proof (conflicting_flags_rejected
    ["managed_save"; "nvram"; "keep_nvram"]%string (Some true)
    ltac:(cbn; tauto) ltac:(cbn; tauto)) as (_ & _ & H).
  exact (proj1 (H demo_hv
    (Params None None (Some "alpha"%string) (Some "undefine"%string) (Some true)
            (Some ["managed_save"; "nvram"; "keep_nvram"]%string) demo_uri None)
    "alpha"%string eq_refl eq_refl eq_refl eq_refl
    ltac:(discriminate) eq_refl eq_refl)).
Defined.

(** ** C4: the flag handed to [undefine] *)

(** [ENTRY_UNDEFINE_FLAGS_MAP.get(item, 0)] *)
Definition flag_bit (item : string) : Z := default 0 (ENTRY_UNDEFINE_FLAGS_MAP !! item).

Definition flag_sum (fl : list string) : Z := foldr Z.add 0 (map flag_bit fl).

Lemma fold_left_flag_sum fl acc :
  fold_left (fun flag item => flag + default 0 (ENTRY_UNDEFINE_FLAGS_MAP !! item)) fl acc
  = acc + flag_sum fl.
Proof.
  revert acc. induction fl as [|item fl IH]; intros acc; cbn [fold_left].
  - unfold flag_sum. cbn. lia.
  - rewrite IH. unfold flag_sum. cbn [map foldr]. fold (flag_bit item). lia.
Qed.

Lemma flag_bit_unknown item : ~ In item ALL_FLAGS -> flag_bit item = 0.
Proof.
  intros Hnot. unfold flag_bit, ENTRY_UNDEFINE_FLAGS_MAP.
  rewrite (not_elem_of_list_to_map_1 _ item); [reflexivity|].
  intros Hin. apply Hnot. apply list_elem_of_In in Hin. exact Hin.
Qed.

Definition force_warning : string := "Ignoring 'force', because 'flags' are provided.".

(** C4, as the code has it.  The test is whether [flags] was given at all, not
    whether it is empty.  Without [flags] the flag is 23 under [force] (the
    bits of all tokens but [keep_nvram]) and 0 otherwise.  With [flags], even
    an empty list, [force] is ignored, with a warning when it is true, and the
    flag is the sum of the bits of the listed tokens, unknown tokens counting
    for 0, unless [nvram] and [keep_nvram] are both listed. *)
Theorem undefine_flag_composed :
  (forall force s,
     undefine_flag None force s
     = (Ok (if bool_decide (force = Some true) then 23 else 0), s)) /\
  23 = flag_sum ["managed_save"; "snapshots_metadata"; "nvram";
                 "checkpoints_metadata"]%string /\
  (forall fl force h cn tr w,
     undefine_flag (Some fl) force (PState h cn tr w)
     = (if py_in "nvram" fl && py_in "keep_nvram" fl
        then Raise (ValueError "Flags 'nvram' and 'keep_nvram' are mutually exclusive")
        else Ok (flag_sum fl),
        PState h cn tr
               (if bool_decide (force = Some true) then w ++ [force_warning] else w))) /\
  (forall item, ~ In item ALL_FLAGS -> flag_bit item = 0).
Proof.
  split; [|split; [|split]].
  - intros force s. unfold undefine_flag. by case_bool_decide.
  - reflexivity.
  - intros fl force h cn tr w. unfold undefine_flag. rewrite run_bind.
    cbn [forallb]. rewrite andb_true_r, fold_left_flag_sum, Z.add_0_l.
    case_bool_decide; cbn; by destruct (py_in "nvram" fl && py_in "keep_nvram" fl).
  - apply flag_bit_unknown.
Qed.

(** C4 fails as stated: an empty list of flags with [force] gives 0, not 23,
    and the domain is undefined with that flag. *)
Lemma empty_flags_with_force :
  fst (undefine_flag (Some []) (Some true) (initial demo_hv)) = Ok 0 /\
  requests (ps_trace (snd (run demo_hv
    (Params None None (Some "alpha"%string) (Some "undefine"%string) (Some true)
            (Some []) demo_uri None))))
  = [RListAllDomains; RUndefineFlags "alpha" 0].
Proof. split; vm_compute; reflexivity. Qed.

(** ** C10: the command [stop] *)

(** C10. [stop] is among the commands the module accepts, [Virt] has no
    attribute of that name, and the command (a guest, no state, no autostart)
    ends with an [AttributeError] before anything is sent to the hypervisor. *)
Theorem stop_is_not_implemented h p g :
  p_command p = Some "stop"%string -> p_name p = Some g -> g <> ""%string ->
  truthy (p_state p) = false -> p_autostart p = None ->
  In "stop"%string VM_COMMANDS /\ In "stop"%string ALL_COMMANDS /\
  (forall s, Virt.getattr (p_uri p) "stop" s = (Ok Virt.Missing, s)) /\
  run h p = (Raise (AttributeError "'Virt' object has no attribute 'stop'"), initial h).
Proof.
  intros Hcmd Hn Hg Hst Hau.
  split; [cbn; tauto|]. split; [cbn; tauto|]. split; [reflexivity|].
  unfold run, core, core_autostart. rewrite Hst, Hau, Hcmd.
  cbn [andb]. rewrite run_bind, run_ret.
  rewrite (bool_decide_eq_false_2 (None ≠ None)) by (intros H; by apply H).
  cbn [andb truthy String.eqb Ascii.eqb Bool.eqb negb].
  unfold core_command. rewrite Hcmd, Hn, (truthy_some _ Hg). reflexivity.
Qed.

Lemma stop_is_not_implemented_witness :
  run demo_hv (Params None None (Some "alpha"%string) (Some "stop"%string) None None
                      demo_uri None)
  = (Raise (AttributeError "'Virt' object has no attribute 'stop'"), initial demo_hv).
Proof.
  exact (proj2 (proj2 (proj2 (stop_is_not_implemented demo_hv
    (Params None None (Some "alpha"%string) (Some "stop"%string) None None
            demo_uri None) "alpha"%string
    eq_refl eq_refl ltac:(discriminate) eq_refl eq_refl)))).
Defined.

(** ** C6: [list_vms] *)

(** Whether an enumerated domain is listed: with a filter, its status must be
    read and equal the filter; without, always. *)
Definition listed (h : hypervisor) (state : option string) (kv : string * dominfo)
  : bool :=
  if truthy state then
    match hv_fault h (RInfo (fst kv)) with
    | Some _ => false
    | None => bool_decide (Some (status_of (snd kv)) = state)
    end
  else true.

Definition listed_names (h : hypervisor) (state : option string) : list string :=
  map fst (List.filter (listed h state) (map_to_list (hv_domains h))).

Lemma list_vms_step_run h state results c n d cn tr w :
  hv_domains h !! n = Some d ->
  exists tr',
    Virt.list_vms_step state results (Handle c n) (PState h cn tr w)
    = (Ok (results ++ (if listed h state (n, d) then [n] else [])),
       PState h cn tr' w).
Proof.
  intros Hd. unfold Virt.list_vms_step, try_except, listed. cbn [fst snd].
  destruct (truthy state).
  - unfold LibvirtConnection.get_status2, virDomain.info. cbn [h_conn h_name].
    rewrite run_bind.
    destruct (hv_fault h (RInfo n)) as [e|] eqn:Hf.
    + erewrite run_bind_raise by (by apply call_refused).
      rewrite run_ret, app_nil_r. eauto.
    + erewrite run_bind_ok;
        [|apply call_served; [exact Hf|unfold on_domain; rewrite Hd; reflexivity]].
      rewrite run_ret. cbn [nth]. fold (status_of d).
      destruct (bool_decide (Some (status_of d) = state)); rewrite run_ret.
      * eauto.
      * rewrite app_nil_r. eauto.
  - rewrite run_ret. eauto.
Qed.

Lemma list_vms_loop_run h state c cn w (l : list (string * dominfo)) :
  (forall n d, In (n, d) l -> hv_domains h !! n = Some d) ->
  forall results tr, exists tr',
    Virt.list_vms_loop state results (map (fun kv => Handle c (fst kv)) l)
                       (PState h cn tr w)
    = (Ok (results ++ map fst (List.filter (listed h state) l)), PState h cn tr' w).
Proof.
  induction l as [|[n d] l IH]; intros Hl results tr.
  - cbn. rewrite app_nil_r. eauto.
  - cbn [map Virt.list_vms_loop fst]. rewrite run_bind.
    destruct (list_vms_step_run h state results c n d cn tr w) as [tr1 ->].
    { apply Hl. by left. }
    destruct (IH (fun n' d' H => Hl n' d' (or_intror H))
                 (results ++ (if listed h state (n, d) then [n] else [])) tr1)
      as [tr2 ->].
    exists tr2. cbn [List.filter].
    destruct (listed h state (n, d)); cbn [map fst]; by rewrite <- ?app_assoc, ?app_nil_r.
Qed.

Lemma list_vms_run h uri oc state cn tr w :
  connects h uri oc -> served h RListAllDomains ->
  exists cn' tr',
    Virt.list_vms uri state (PState h cn tr w)
    = (Ok (listed_names h state), PState h cn' tr' w).
Proof.
  intros Hc Hl. unfold Virt.list_vms.
  erewrite run_bind_ok; [|apply get_conn_ok; exact Hc].
  rewrite run_bind. cbn [Virt.set_self_conn ps_hv ps_conn ps_trace ps_warnings].
  rewrite run_bind. cbn [Virt.self_conn ps_conn].
  unfold LibvirtConnection.find_vm_all, virConnect.listAllDomains.
  erewrite run_bind_ok; [|apply call_served; [exact Hl|reflexivity]].
  edestruct (list_vms_loop_run h state (opened tr) (Some (opened tr)) w
               (map_to_list (hv_domains h))) as [tr' ->].
  { intros n d Hin. apply elem_of_map_to_list. by apply list_elem_of_In. }
  cbn [app]. eauto.
Qed.

(** C6. Once the hypervisor is connected and has enumerated its domains,
    [list_vms] returns: with a filter, the names of the enumerated domains
    whose status was read and equals the filter, those whose status lookup is
    refused being left out; without a filter, all the names.  No lookup error
    reaches the caller, and [core] wraps the list under the key [list_vms]. *)
Theorem list_vms_filters h uri oc state :
  connects h uri oc -> served h RListAllDomains ->
  (forall s, ps_hv s = h ->
     fst (Virt.list_vms uri state s) = Ok (listed_names h state)) /\
  (forall p, p_uri p = uri -> p_state p = state -> truthy state = true ->
     p_command p = Some "list_vms"%string ->
     fst (run h p)
     = Ok (VIRT_SUCCESS, [("list_vms"%string, VList (map VStr (listed_names h state)))])) /\
  (truthy state = false ->
   listed_names h state = map fst (map_to_list (hv_domains h))).
Proof.
  intros Hc Hl. split; [|split].
  - intros [h' cn tr w] Hh. cbn in Hh. subst h'.
    by destruct (list_vms_run h uri oc state cn tr w Hc Hl) as (cn' & tr' & ->).
  - intros p Huri Hst Htruthy Hcmd. unfold run, core, initial.
    rewrite Hst, Htruthy, Hcmd, Huri.
    rewrite (bool_decide_eq_true_2 _ eq_refl). cbn [andb]. rewrite run_bind.
    by destruct (list_vms_run h uri oc state None [] [] Hc Hl) as (cn' & tr' & ->).
  - intros Hfalse. unfold listed_names. f_equal.
    induction (map_to_list (hv_domains h)) as [|kv l IH]; [reflexivity|].
    cbn [List.filter]. unfold listed at 1. rewrite Hfalse. by rewrite IH.
Qed.

(** A hypervisor like [demo_hv] that loses sight of [alpha] when asked for
    its status. *)
Definition flaky_hv : hypervisor :=
  Hypervisor (hv_domains demo_hv) (hv_uname demo_hv) (hv_open demo_hv)
    (fun rq => match rq with
               | RInfo n => if String.eqb n "alpha"
                            then Some (LvErr 42 "Domain not found") else None
               | _ => None
               end)
    (hv_xml_name demo_hv) (hv_xml_canon demo_hv) (hv_nodeinfo demo_hv)
    (hv_type demo_hv) (hv_freemem demo_hv).

Lemma list_vms_filters_witness :
  fst (Virt.list_vms demo_uri (Some "running"%string) (initial demo_hv))
  = Ok ["alpha"%string] /\
  fst (Virt.list_vms demo_uri (Some "running"%string) (initial flaky_hv)) = Ok [].
Proof.
  split.
  - exact (proj1 (list_vms_filters demo_hv demo_uri _ (Some "running"%string)
                    demo_connects eq_refl) (initial demo_hv) eq_refl).
  - exact (proj1 (list_vms_filters flaky_hv demo_uri (OpenUri "qemu:///system")
                    (Some "running"%string) (conj eq_refl eq_refl) eq_refl)
                 (initial flaky_hv) eq_refl).
Defined.

(** ** C3: [define] *)

Lemma define_run h uri oc xml cn tr w :
  connects h uri oc ->
  Virt.define uri xml (PState h cn tr w)
  = match hv_fault h (RDefineXML xml) with
    | Some e =>
        (Raise (LibvirtError e),
         PState h (Some (opened tr))
                (tr ++ [EOpen oc; ECall (opened tr) (RDefineXML xml)]) w)
    | None =>
        let n := hv_xml_name h xml in
        let d := match hv_domains h !! n with
                 | Some d0 => set_inactive_xml (hv_xml_canon h xml) d0
                 | None => fresh_domain (hv_xml_canon h xml)
                 end in
        (Ok (Handle (opened tr) n),
         PState (with_domains h (<[n := d]> (hv_domains h))) (Some (opened tr))
                (tr ++ [EOpen oc; ECall (opened tr) (RDefineXML xml)]) w)
    end.
Proof.
  intros Hc. unfold Virt.define.
  erewrite run_bind_ok; [|apply get_conn_ok; exact Hc].
  rewrite run_bind. cbn [Virt.self_conn ps_conn].
  unfold LibvirtConnection.define_from_xml, virConnect.defineXML.
  destruct (hv_fault h (RDefineXML xml)) as [e|] eqn:Hf.
  - erewrite call_refused by exact Hf. by rewrite <- app_assoc.
  - erewrite call_served; [|exact Hf|reflexivity]. by rewrite <- app_assoc.
Qed.

Definition config_changed : pydict :=
  [("changed"%string, VBool true); ("change_reason"%string, VStr "config changed")].

Definition created (n : string) : pydict :=
  [("changed"%string, VBool true); ("created"%string, VStr n)].

(** What [define] answers, from the domain found under the name read in the
    descriptor and from what libvirt stores for the descriptor. *)
Definition define_result (h : hypervisor) (xml name : string) : pydict :=
  match hv_domains h !! name with
  | Some d =>
      if truthy (Some (di_xml_inactive d)) then
        if String.eqb (di_xml_inactive d) (hv_xml_canon h xml) then []
        else config_changed
      else created (hv_xml_name h xml)
  | None => created (hv_xml_name h xml)
  end.





(** ** C2: a result without [changed] *)

Lemma dict_get_set_eq k v d : dict_get k (dict_set k v d) = Some v.
Proof.
  induction d as [|[k' v'] d IH]; cbn.
  - by rewrite String.eqb_refl.
  - destruct (String.eqb k' k) eqn:Hk; cbn; [by rewrite String.eqb_refl|].
    by rewrite Hk.
Qed.

Lemma dict_get_set_ne k k' v d :
  k <> k' -> dict_get k (dict_set k' v d) = dict_get k d.
Proof.
  intros Hne. induction d as [|[k0 v0] d IH]; cbn.
  - destruct (String.eqb_spec k' k); [congruence|reflexivity].
  - destruct (String.eqb_spec k0 k') as [->|Hk0]; cbn.
    + destruct (String.eqb_spec k' k); [congruence|reflexivity].
    + by destruct (String.eqb k0 k).
Qed.

Lemma changed_of_transition v res :
  changed_of (dict_set "msg" v (dict_set "changed" (VBool true) res)) = true.
Proof.
  unfold changed_of. rewrite dict_get_set_ne by discriminate.
  by rewrite dict_get_set_eq.
Qed.

(** The requests that leave the hypervisor as it is. *)
Definition quiet (rq : request) : bool := negb (mutating rq).

Lemma quiet_reads rq : mutating rq = false -> quiet rq = true.
Proof. unfold quiet. by intros ->. Qed.

Lemma quiet_no_mutation s : inv quiet s -> mutations (ps_trace s) = [].
Proof.
  intros [Hd _]. apply disciplined_permitted in Hd. unfold mutations.
  induction (requests (ps_trace s)) as [|rq l IH]; [reflexivity|].
  cbn in Hd. apply andb_prop in Hd as [Hrq Hl]. cbn [List.filter].
  unfold quiet in Hrq. destruct (mutating rq); [discriminate|]. by apply IH.
Qed.

Lemma hoare_relax {A} P (m : M A) Q E :
  hoare P m Q E -> hoare P m Q (fun _ => True).
Proof. intros H. eapply hoare_conseq; [exact H|auto|auto|auto]. Qed.

(** A computation whose every answer satisfies [good]. *)
Definition returns_only {A} (good : A -> Prop) (m : M A) : Prop :=
  forall s a, fst (m s) = Ok a -> good a.

Lemma returns_only_ret {A} (good : A -> Prop) a : good a -> returns_only good (mret a).
Proof. intros H s a' [= <-]. exact H. Qed.

Lemma returns_only_bind {A B} (good : B -> Prop) (m : M A) (k : A -> M B) :
  (forall a, returns_only good (k a)) -> returns_only good (m ≫= k).
Proof.
  intros Hk s b. rewrite run_bind.
  destruct (m s) as [[a|e|msg] s']; [apply Hk|discriminate|discriminate].
Qed.

Lemma hoare_returns_only {A} (good : A -> Prop) P (m : M A) :
  returns_only good m -> hoare P m (fun a _ => good a) (fun _ => True).
Proof.
  intros H s _. specialize (H s). destruct (m s) as [[a|e|msg] s']; [by apply H|done|done].
Qed.

(** A fact that does not depend on the state carries over. *)
Lemma hoare_under {A} (F : Prop) (I : pstate -> Prop) (m : M A) :
  hoare I m (fun _ => I) I ->
  hoare (fun s => F -> I s) m (fun _ s => F -> I s) (fun _ => True).
Proof.
  intros H s Hs. destruct (m s) as [[a|e|msg] s'] eqn:Hm; [|done|done].
  intros HF. specialize (H s (Hs HF)). by rewrite Hm in H.
Qed.

(** [Virt.autostart] answers [False] only when it changed nothing. *)
Lemma quiet_autostart uri vmid as_flag :
  hoare (inv quiet) (Virt.autostart uri vmid as_flag)
        (fun b s => b = false -> inv quiet s) (fun _ => True).
Proof.
  unfold Virt.autostart.
  eapply hoare_bind; [eapply hoare_relax, hoare_get_conn|]. intros c.
  eapply hoare_bind; [eapply hoare_relax, (hoare_set_self_conn quiet c)|]. intros ?.
  eapply hoare_bind; [eapply hoare_relax, (hoare_self_conn quiet c)|].
  intros c'. apply hoare_pure. intros ->.
  eapply hoare_bind;
    [eapply hoare_relax, (keeps_get_autostart quiet quiet_reads c)|].
  intros cur. destruct (negb (Bool.eqb cur as_flag)).
  - eapply hoare_conseq with (P' := fun _ => True) (Q' := fun b _ => b = true)
                             (E' := fun _ => True); [|done| |done].
    + apply hoare_returns_only.
      apply returns_only_bind. intros c'. apply returns_only_bind. intros ?.
      by apply returns_only_ret.
    + by intros b s ->.
  - intros s Hs _. by eapply invc_inv.
Qed.

Lemma quiet_core_autostart p :
  hoare (inv quiet) (core_autostart p [])
        (fun res s => changed_of res = false -> inv quiet s) (fun _ => True).
Proof.
  unfold core_autostart.
  destruct (p_autostart p) as [a|]; [|by intros s Hs _].
  destruct (negb _); [|by intros s Hs _].
  eapply hoare_bind; [eapply hoare_relax, hoare_inv_guard|]. intros ?.
  eapply hoare_bind with (Q' := fun _ => inv quiet).
  - apply hoare_relax with (E := inv quiet).
    eapply hoare_try_except with (E' := inv quiet); [| |auto].
    + eapply hoare_bind; [apply (hoare_get_vm quiet quiet_reads)|].
      intros vm s Hs. by eapply invc_inv.
    + intros e h He. destruct e; try discriminate. injection He as <-.
      apply hoare_fail_json.
  - intros _. eapply hoare_bind; [apply quiet_autostart|].
    intros changed s Hs. cbn. destruct changed; [discriminate|]. intros _. by apply Hs.
Qed.

Lemma quiet_core_state p res :
  hoare (fun s => changed_of res = false -> inv quiet s) (core_state p res)
        (fun r s => changed_of (snd r) = false -> inv quiet s) (fun _ => True).
Proof.
  unfold core_state.
  eapply hoare_bind with (Q' := fun _ s => changed_of res = false -> inv quiet s).
  { destruct (negb _); intros s Hs; [exact I|exact Hs]. }
  intros _.
  eapply hoare_bind
    with (Q' := fun r s => changed_of r = false -> inv quiet s);
    [|intros r s Hs; exact Hs].
  pose proof (fun g => hoare_under (changed_of res = false) (inv quiet) _
                         (hoare_status quiet quiet_reads (p_uri p) g)) as Hstatus.
  assert (Hact : forall a g,
    hoare (fun s => changed_of res = false -> inv quiet s)
      (msg ← action_method a (p_uri p) g;
       mret (dict_set "msg" (VInt msg) (dict_set "changed" (VBool true) res)))
      (fun r s => changed_of r = false -> inv quiet s) (fun _ => True)).
  { intros a g.
    eapply hoare_conseq with (P' := fun _ => True)
                             (Q' := fun r _ => changed_of r = true)
                             (E' := fun _ => True); [|done| |done].
    - apply hoare_returns_only.
      apply returns_only_bind. intros msg. apply returns_only_ret.
      apply changed_of_transition.
    - intros r s Hr Hr'. congruence. }
  repeat case_bool_decide.
  - eapply hoare_bind; [apply Hstatus|]. intros s1.
    destruct (String.eqb s1 "paused"); [apply (Hact Resume)|].
    eapply hoare_bind; [apply Hstatus|]. intros s2.
    destruct (negb _); [apply (Hact Start)|by intros s Hs].
  - eapply hoare_bind; [apply Hstatus|]. intros s1.
    destruct (negb _); [apply (Hact GracefulStop)|by intros s Hs].
  - eapply hoare_bind; [apply Hstatus|]. intros s1.
    destruct (negb _); [apply (Hact ForceStop)|by intros s Hs].
  - eapply hoare_bind; [apply Hstatus|]. intros s1.
    destruct (String.eqb s1 "running"); [apply (Hact Pause)|by intros s Hs].
  - by intros s Hs.
Qed.

(** The commands that only read. *)
Definition read_only_commands : list string :=
  ["status"; "get_xml"; "freemem"; "info"; "list_vms"; "nodeinfo"; "virttype"]%string.

Lemma quiet_core_command p res :
  py_in (str_of (p_command p)) read_only_commands = true ->
  hoare (inv quiet) (core_command p res) (fun _ => inv quiet) (inv quiet).
Proof.
  intros Hcmd. unfold core_command.
  destruct (p_command p) as [cmd|]; [|discriminate]. cbn [str_of] in *.
  unfold py_in, read_only_commands in Hcmd. cbn [existsb] in Hcmd.
  rewrite orb_false_r in Hcmd.
  assert (Hret : forall A (a : A), hoare (inv quiet) (mret a) (fun _ => inv quiet) (inv quiet))
    by (intros A a s Hs; exact Hs).
  assert (Hvm : forall (m : string -> M pyval) c,
            (forall g, hoare (inv quiet) (m g) (fun _ => inv quiet) (inv quiet)) ->
            hoare (inv quiet)
              (res0 ← (if negb (truthy (p_name p))
                       then fail_json (c ++ " requires 1 argument: guest")%string
                       else r ← m (str_of (p_name p)); mret (wrap_result c r));
               mret (VIRT_SUCCESS, res0))
              (fun _ => inv quiet) (inv quiet)).
  { intros m c Hm. eapply hoare_bind; [|intros r; apply Hret].
    destruct (negb _); [apply hoare_fail_json|].
    eapply hoare_bind; [apply Hm|intros r; apply Hret]. }
  assert (Hhost : forall (m : M pyval) c,
            hoare (inv quiet) m (fun _ => inv quiet) (inv quiet) ->
            hoare (inv quiet) (r ← m; mret (VIRT_SUCCESS, wrap_result c r))
                  (fun _ => inv quiet) (inv quiet)).
  { intros m c Hm. eapply hoare_bind; [apply Hm|intros r; apply Hret]. }
  repeat (apply orb_prop in Hcmd as [Hcmd|Hcmd]);
    apply String.eqb_eq in Hcmd; subst cmd.
  - apply Hvm. intros g. eapply hoare_bind; [|intros r; apply Hret].
    apply (hoare_status quiet quiet_reads).
  - apply Hvm. intros g. eapply hoare_bind; [|intros r; apply Hret].
    apply (hoare_get_xml quiet quiet_reads).
  - apply Hhost. eapply hoare_bind; [|intros r; apply Hret].
    apply (hoare_freemem quiet quiet_reads).
  - apply Hhost. eapply hoare_bind; [|intros r; apply Hret].
    apply (hoare_info quiet quiet_reads).
  - apply Hhost. eapply hoare_bind; [|intros r; apply Hret].
    eapply hoare_conseq; [apply (hoare_list_vms quiet quiet_reads)|auto| |auto].
    intros r s [c Hc]. by eapply invc_inv.
  - apply Hhost. eapply hoare_bind; [|intros r; apply Hret].
    apply (hoare_nodeinfo quiet quiet_reads).
  - apply Hhost. eapply hoare_bind; [|intros r; apply Hret].
    apply (hoare_virttype quiet quiet_reads).
Qed.

(** The invocations whose result tells whether something changed: a desired
    state, the autostart check alone, or a command that only reads and comes
    without an autostart argument. *)
Definition tells_changes (p : params) : bool :=
  truthy (p_state p) || negb (truthy (p_command p)) ||
  (bool_decide (p_autostart p = None) &&
   py_in (str_of (p_command p)) read_only_commands).

Lemma quiet_list_vms uri state :
  hoare (inv quiet) (Virt.list_vms uri state) (fun _ => inv quiet) (inv quiet).
Proof.
  eapply hoare_conseq with (P' := inv quiet) (E' := inv quiet);
    [apply (hoare_list_vms quiet quiet_reads)|done| |done].
  intros r s [c Hc]. by eapply invc_inv.
Qed.

Lemma quiet_core p :
  tells_changes p = true ->
  hoare (inv quiet) (core p)
        (fun r s => changed_of (snd r) = false -> inv quiet s) (fun _ => True).
Proof.
  intros Hmode. unfold core.
  destruct (truthy (p_state p) && _) eqn:Hlist.
  { eapply hoare_bind with (Q' := fun _ => inv quiet).
    - eapply hoare_relax. apply quiet_list_vms.
    - intros r s Hs _. exact Hs. }
  destruct (p_autostart p) as [a|] eqn:Hau.
  - eapply hoare_bind; [apply quiet_core_autostart|]. intros res.
    match goal with
    | |- context [if ?c then mret _ else _] => destruct c eqn:Hearly
    end; [intros s Hs; exact Hs|].
    destruct (truthy (p_state p)) eqn:Hst; [apply quiet_core_state|].
    destruct (truthy (p_command p)) eqn:Hcmd; [|by intros s Hs].
    unfold tells_changes in Hmode. rewrite Hst, Hcmd, Hau in Hmode.
    cbn in Hmode. discriminate.
  - eapply hoare_bind with (Q' := fun res s => res = [] /\ inv quiet s).
    { unfold core_autostart. rewrite Hau. by intros s Hs. }
    intros res. apply hoare_pure. intros ->.
    rewrite (bool_decide_eq_false_2 (None ≠ None)) by (intros H; by apply H).
    cbn [andb].
    destruct (truthy (p_state p)) eqn:Hst.
    + intros s Hs. apply (quiet_core_state p [] s). intros _. exact Hs.
    + destruct (truthy (p_command p)) eqn:Hcmd; [|by intros s Hs].
      unfold tells_changes in Hmode. rewrite Hst, Hcmd, Hau in Hmode.
      cbn [orb negb] in Hmode. apply andb_prop in Hmode as [_ Hro].
      eapply hoare_conseq with (P' := inv quiet) (E' := inv quiet);
        [by apply quiet_core_command|done| |done].
      intros r s Hs _. exact Hs.
Qed.

(** C2, as the code has it.  For an invocation with a desired state, for the
    autostart check alone, and for a command that only reads and comes
    without an autostart argument: a result without [changed = True] means
    that no request changing the hypervisor was sent.  The commands that act
    ([create], [destroy], [pause], [shutdown], [start], [unpause],
    [undefine], [define]) send their request and do not report [changed]
    this way; they are outside this statement. *)
Theorem unchanged_means_untouched h p rc res :
  tells_changes p = true ->
  fst (run h p) = Ok (rc, res) -> changed_of res = false ->
  mutations (ps_trace (snd (run h p))) = [].
Proof.
  intros Hmode Hres Hch. unfold run in *.
  pose proof (quiet_core p Hmode (initial h) (inv_initial quiet h)) as H.
  destruct (core p (initial h)) as [[r|e|msg] s']; cbn [fst snd] in *; try discriminate.
  injection Hres as ->. apply quiet_no_mutation. by apply H.
Qed.

Lemma unchanged_means_untouched_witness :
  mutations (ps_trace (snd (run demo_hv
    (Params (Some "running"%string) (Some false) (Some "alpha"%string) None None
            None demo_uri None))))
  = [].
Proof.
  exact (unchanged_means_untouched demo_hv
    (Params (Some "running"%string) (Some false) (Some "alpha"%string) None None
            None demo_uri None)
    VIRT_SUCCESS [("changed"%string, VBool false)] eq_refl eq_refl eq_refl).
Defined.

(** C2 fails as stated: the command [start] sends its request and answers
    without [changed]. *)
Lemma start_reports_no_change :
  fst (run demo_hv (Params None None (Some "gamma"%string) (Some "start"%string)
                           None None demo_uri None))
  = Ok (VIRT_SUCCESS, [("start"%string, VInt 0)]) /\
  mutations (ps_trace (snd (run demo_hv
    (Params None None (Some "gamma"%string) (Some "start"%string) None None
            demo_uri None))))
  = [RCreate "gamma"].
Proof. split; vm_compute; reflexivity. Qed.

(** ** C8: [changed] across the steps of one invocation *)

(** C8 does not hold of the code.  The autostart check changes the setting of
    [alpha] and records [changed = True]; the command [status] that follows
    rebinds the result, and the invocation answers without [changed] although
    a set-autostart request was sent.  The state branch and the [define]
    branch keep [changed]; the command branch loses it. *)
Lemma changed_dropped_by_command :
  fst (core_autostart
         (Params None (Some true) (Some "alpha"%string) (Some "status"%string)
                 None None demo_uri None) [] (initial demo_hv))
  = Ok [("changed"%string, VBool true)] /\
  fst (run demo_hv (Params None (Some true) (Some "alpha"%string)
                           (Some "status"%string) None None demo_uri None))
  = Ok (VIRT_SUCCESS, [("status"%string, VStr "running")]) /\
  mutations (ps_trace (snd (run demo_hv
    (Params None (Some true) (Some "alpha"%string) (Some "status"%string) None
            None demo_uri None))))
  = [RSetAutostart "alpha" true].
Proof. repeat split; vm_compute; reflexivity. Qed.

(** ** Further properties of [core] *)


Lemma enter_command p h :
  truthy (p_state p) = false -> p_autostart p = None ->
  truthy (p_command p) = true ->
  run h p = core_command p [] (initial h).
Proof.
  intros Hst Hau Hcmd. unfold run, core, core_autostart. rewrite Hst, Hau, Hcmd.
  cbn [andb]. rewrite run_bind, run_ret.
  rewrite (bool_decide_eq_false_2 (None ≠ None)) by (intros H; by apply H).
  reflexivity.
Qed.

(** A command on a guest other than [define], given without a guest name (no
    state, no autostart), fails before anything is sent. *)
Theorem vm_command_requires_guest h p cmd :
  p_command p = Some cmd -> py_in cmd VM_COMMANDS = true ->
  cmd <> "define"%string -> truthy (p_name p) = false ->
  truthy (p_state p) = false -> p_autostart p = None ->
  run h p = (FailJson (cmd ++ " requires 1 argument: guest")%string, initial h).
Proof.
  intros Hcmd Hvm Hdef Hn Hst Hau.
  assert (Htruthy : truthy (p_command p) = true).
  { rewrite Hcmd. apply truthy_some. intros ->. discriminate. }
  rewrite (enter_command p h Hst Hau Htruthy).
  unfold core_command. rewrite Hcmd. cbn [str_of]. rewrite Hvm, Hn.
  destruct (String.eqb_spec cmd "define"); [done|]. reflexivity.
Qed.

Lemma vm_command_requires_guest_witness :
  run demo_hv (Params None None None (Some "start"%string) None None demo_uri None)
  = (FailJson "start requires 1 argument: guest", initial demo_hv).
Proof.
  exact (vm_command_requires_guest demo_hv
    (Params None None None (Some "start"%string) None None demo_uri None)
    "start"%string eq_refl eq_refl ltac:(discriminate) eq_refl eq_refl eq_refl).
Defined.

(** A desired state given without a guest name (no autostart, not the
    [list_vms] query) fails before anything is sent. *)
Theorem state_requires_guest h p :
  truthy (p_state p) = true -> p_command p <> Some "list_vms"%string ->
  p_autostart p = None -> truthy (p_name p) = false ->
  run h p = (FailJson "state change requires a guest specified", initial h).
Proof.
  intros Hst Hcmd Hau Hn. unfold run, core, core_autostart.
  rewrite Hst, Hau, (bool_decide_eq_false_2 _ Hcmd).
  cbn [andb]. rewrite run_bind, run_ret.
  rewrite (bool_decide_eq_false_2 (None ≠ None)) by (intros H; by apply H).
  cbn [andb]. unfold core_state. rewrite Hn. reflexivity.
Qed.

Lemma state_requires_guest_witness :
  run demo_hv (Params (Some "running"%string) None None None None None demo_uri None)
  = (FailJson "state change requires a guest specified", initial demo_hv).
Proof.
  exact (state_requires_guest demo_hv
    (Params (Some "running"%string) None None None None None demo_uri None)
    eq_refl ltac:(discriminate) eq_refl eq_refl).
Defined.

(** [define] fails before anything is sent when no descriptor is given, and
    when no name can be read in the descriptor. *)
Theorem define_requires_named_xml h p :
  p_command p = Some "define"%string ->
  truthy (p_state p) = false -> p_autostart p = None ->
  match p_xml p with
  | Some xml => xml = ""%string \/ re_search_name xml = None
  | None => True
  end ->
  fst (run h p)
  = FailJson (if truthy (p_xml p) then "Could not find domain 'name' in xml"
              else "define requires xml argument")%string /\
  ps_trace (snd (run h p)) = [].
Proof.
  intros Hcmd Hst Hau Hxml.
  rewrite (enter_command p h Hst Hau) by (by rewrite Hcmd).
  unfold core_command. rewrite Hcmd.
  cbn [str_of py_in existsb VM_COMMANDS String.eqb Ascii.eqb Bool.eqb orb].
  rewrite run_bind. unfold core_define.
  destruct (p_xml p) as [xml|]; [|by split].
  destruct (String.eqb_spec xml "") as [->|Hne]; [by split|].
  destruct Hxml as [->|Hnone]; [done|].
  rewrite (truthy_some _ Hne). cbn [negb str_of].
  rewrite run_bind, run_ret, run_bind, Hnone.
  destruct (truthy (p_name p)); by split.
Qed.

Lemma define_requires_named_xml_witness :
  fst (run demo_hv (Params None None None (Some "define"%string) None None demo_uri
                           (Some "<domain/>"%string)))
  = FailJson "Could not find domain 'name' in xml".
Proof.
  exact (proj1 (define_requires_named_xml demo_hv
    (Params None None None (Some "define"%string) None None demo_uri
            (Some "<domain/>"%string))
    eq_refl eq_refl eq_refl (or_intror eq_refl))).
Defined.

(** ** The name read in a descriptor *)

(** No line break in the string. *)
Fixpoint no_newline (s : string) : bool :=
  match s with
  | EmptyString => true
  | String c s' => negb (is_newline c) && no_newline s'
  end.

Lemma append_cons c s t : String c s +:+ t = String c (s +:+ t).
Proof. reflexivity. Qed.


Lemma str_prefix_split pat s : str_prefix pat s = true -> exists r, s = pat +:+ r.
Proof.
  revert s. induction pat as [|a pat IH]; intros s H; [by exists s|].
  destruct s as [|b s]; [discriminate|]. cbn in H.
  destruct (Ascii.eqb_spec a b) as [->|]; [|discriminate].
  destruct (IH s H) as [r ->]. by exists r.
Qed.

Lemma str_prefix_append pat r : str_prefix pat (pat +:+ r) = true.
Proof.
  induction pat as [|a pat IH]; [reflexivity|].
  rewrite append_cons. cbn. by rewrite Ascii.eqb_refl.
Qed.

Lemma strip_prefix_split pat s r : strip_prefix pat s = Some r -> s = pat +:+ r.
Proof.
  revert s. induction pat as [|a pat IH]; intros s H; [by injection H as ->|].
  destruct s as [|b s]; [discriminate|]. cbn in H.
  destruct (Ascii.eqb_spec a b) as [->|]; [|discriminate].
  by rewrite (IH s H).
Qed.

Lemma strip_prefix_append pat r : strip_prefix pat (pat +:+ r) = Some r.
Proof.
  induction pat as [|a pat IH]; [reflexivity|].
  rewrite append_cons. cbn. by rewrite Ascii.eqb_refl.
Qed.

(** The greedy group: what it answers sits before the pattern on one line. *)
Lemma greedy_until_sound pat s g :
  greedy_until pat s = Some g ->
  no_newline g = true /\ exists post, s = g +:+ pat +:+ post.
Proof.
  revert g. induction s as [|c s IH]; intros g H; cbn [greedy_until] in H.
  - destruct (str_prefix pat "") eqn:Hp; [|discriminate]. injection H as <-.
    split; [reflexivity|]. by apply str_prefix_split.
  - destruct (if is_newline c then None else greedy_until pat s) as [g'|] eqn:Hin.
    + injection H as <-. destruct (is_newline c) eqn:Hc; [discriminate|].
      destruct (IH g' Hin) as [Hn [post ->]].
      split; [cbn; by rewrite Hc|]. by exists post.
    + destruct (str_prefix pat (String c s)) eqn:Hp; [|discriminate].
      injection H as <-. split; [reflexivity|]. by apply str_prefix_split.
Qed.

(** ... it is found whenever the pattern follows a run without line break ... *)
Lemma greedy_until_complete pat g post :
  no_newline g = true -> greedy_until pat (g +:+ pat +:+ post) <> None.
Proof.
  induction g as [|c g IH]; intros Hn.
  - change ("" +:+ pat +:+ post) with (pat +:+ post).
    pose proof (str_prefix_append pat post) as Hp.
    destruct (pat +:+ post) as [|c s] eqn:Hs; cbn [greedy_until].
    + by rewrite Hp.
    + destruct (if is_newline c then None else greedy_until pat s); [done|].
      by rewrite Hp.
  - cbn in Hn. apply andb_prop in Hn as [Hc Hn].
    rewrite append_cons. cbn [greedy_until].
    destruct (is_newline c); [discriminate|].
    specialize (IH Hn). by destruct (greedy_until pat (g +:+ pat +:+ post)).
Qed.

(** ... and it is the longest such run. *)
Lemma greedy_until_longest pat s g g' post' :
  greedy_until pat s = Some g ->
  s = g' +:+ pat +:+ post' -> no_newline g' = true ->
  (String.length g' <= String.length g)%nat.
Proof.
  revert g g'. induction s as [|c s IH]; intros g g' H Hs Hn.
  - destruct g'; [cbn; lia|discriminate].
  - cbn [greedy_until] in H.
    destruct g' as [|c' g']; [cbn; lia|].
    rewrite append_cons in Hs. injection Hs as <- Hs.
    cbn in Hn. apply andb_prop in Hn as [Hc Hn].
    destruct (is_newline c); [discriminate|].
    destruct (greedy_until pat s) as [g0|] eqn:Hin.
    + injection H as <-. cbn. specialize (IH g0 g' eq_refl Hs Hn). lia.
    + exfalso. subst s. by apply (greedy_until_complete pat g' post').
Qed.

(** The search at the first position of the descriptor. *)
Definition name_here (xml : string) : option string :=
  match strip_prefix "<name>" xml with
  | Some rest => greedy_until "</name>" rest
  | None => None
  end.

Lemma re_search_name_unfold xml :
  re_search_name xml
  = match name_here xml with
    | Some g => Some g
    | None =>
        match xml with
        | EmptyString => None
        | String _ xml' => re_search_name xml'
        end
    end.
Proof. by destruct xml. Qed.

Lemma name_here_complete g post :
  no_newline g = true ->
  name_here ("<name>" +:+ g +:+ "</name>" +:+ post) <> None.
Proof.
  intros Hn. unfold name_here. rewrite strip_prefix_append.
  by apply greedy_until_complete.
Qed.

(** The name [core] reads in a descriptor sits between an opening and a
    closing tag on one line; the opening tag is the first one that is closed
    on its line, and the closing tag the last one on that line. *)
Theorem name_search_sound xml g :
  re_search_name xml = Some g ->
  no_newline g = true /\
  exists pre post,
    xml = pre +:+ "<name>" +:+ g +:+ "</name>" +:+ post /\
    (forall pre' g' post',
       xml = pre' +:+ "<name>" +:+ g' +:+ "</name>" +:+ post' ->
       no_newline g' = true ->
       (String.length pre <= String.length pre')%nat) /\
    (forall g' post',
       xml = pre +:+ "<name>" +:+ g' +:+ "</name>" +:+ post' ->
       no_newline g' = true ->
       (String.length g' <= String.length g)%nat).
Proof.
  revert g. induction xml as [|c xml IH]; intros g H;
    rewrite re_search_name_unfold in H.
  - discriminate.
  - destruct (name_here (String c xml)) as [g0|] eqn:Hhere.
    + injection H as ->. unfold name_here in Hhere.
      destruct (strip_prefix "<name>" (String c xml)) as [rest|] eqn:Hstrip;
        [|discriminate].
      apply strip_prefix_split in Hstrip.
      destruct (greedy_until_sound _ _ _ Hhere) as [Hn [post Hrest]].
      split; [exact Hn|]. exists ""%string, post. split; [|split].
      * rewrite Hstrip, Hrest. reflexivity.
      * intros. cbn. lia.
      * intros g' post' Hxml Hn'. rewrite Hstrip in Hxml.
        change ("" +:+ "<name>" +:+ g' +:+ "</name>" +:+ post')
          with ("<name>" +:+ g' +:+ "</name>" +:+ post') in Hxml.
        apply (inj (String.append "<name>")) in Hxml.
        by eapply greedy_until_longest.
    + destruct (IH g H) as [Hn (pre & post & Hxml & Hleft & Hlong)].
      split; [exact Hn|]. exists (String c pre), post. split; [|split].
      * by rewrite append_cons, <- Hxml.
      * intros pre' g' post' Hxml' Hn'. destruct pre' as [|c' pre'].
        { exfalso. rewrite Hxml' in Hhere.
          by apply (name_here_complete g' post'). }
        rewrite append_cons in Hxml'. injection Hxml' as _ Hxml'.
        cbn. specialize (Hleft pre' g' post' Hxml' Hn'). lia.
      * intros g' post' Hxml' Hn'. rewrite append_cons in Hxml'.
        injection Hxml' as Hxml'. by eapply Hlong.
Qed.

Lemma name_search_sound_witness :
  exists pre post,
    demo_xml "alpha" = pre +:+ "<name>" +:+ "alpha" +:+ "</name>" +:+ post.
Proof.
  destruct (name_search_sound (demo_xml "alpha") "alpha" eq_refl)
    as [_ (pre & post & H & _)].
  by exists pre, post.
Defined.

(** No name is read only when no opening tag is closed on its line. *)
Theorem name_search_none xml pre g post :
  re_search_name xml = None ->
  xml = pre +:+ "<name>" +:+ g +:+ "</name>" +:+ post ->
  no_newline g = false.
Proof.
  revert xml. induction pre as [|c pre IH]; intros xml H Hxml;
    rewrite re_search_name_unfold in H.
  - destruct (no_newline g) eqn:Hn; [|reflexivity]. exfalso.
    destruct (name_here xml) eqn:Hhere; [discriminate|].
    rewrite Hxml in Hhere. by apply (name_here_complete g post).
  - destruct (name_here xml); [discriminate|].
    rewrite append_cons in Hxml. subst xml. by eapply IH.
Qed.

Lemma name_search_none_witness :
  no_newline "al
pha" = false.
Proof.
  exact (name_search_none "<domain><name>al
pha</name></domain>" "<domain>" "al
pha" "</domain>" eq_refl eq_refl).
Defined.








(** ** Finding a domain *)

(** [find_vm] sends one [listAllDomains] request and leaves the hypervisor as
    it is; served, it answers the domain of that name when the hypervisor has
    one and raises [VMNotFound] otherwise; [find_vm(-1)] answers all the
    enumerated domains. *)
Theorem find_vm_finds h c g cn tr w :
  LibvirtConnection.find_vm c g (PState h cn tr w)
  = (match hv_fault h RListAllDomains with
     | Some e => Raise (LibvirtError e)
     | None =>
         match hv_domains h !! g with
         | Some _ => Ok (Handle c g)
         | None => Raise (VMNotFound ("virtual machine " +:+ g +:+ " not found"))
         end
     end,
     PState h cn (tr ++ [ECall c RListAllDomains]) w) /\
  (served h RListAllDomains ->
   LibvirtConnection.find_vm_all c (PState h cn tr w)
   = (Ok (map (fun kv => Handle c (fst kv)) (map_to_list (hv_domains h))),
      PState h cn (tr ++ [ECall c RListAllDomains]) w)).
Proof.
  split.
  - destruct (hv_fault h RListAllDomains) as [e|] eqn:Hf.
    + unfold LibvirtConnection.find_vm, virConnect.listAllDomains.
      by erewrite run_bind_raise by (by apply call_refused).
    + destruct (hv_domains h !! g) as [d|] eqn:Hd.
      * by eapply find_vm_ok.
      * by apply find_vm_absent.
  - intros Hs. unfold LibvirtConnection.find_vm_all, virConnect.listAllDomains.
    by apply call_served.
Qed.

(** ** Commands sent straight to the driver *)

(** The lifecycle request behind a command. *)
Definition command_action (cmd : string) : option action :=
  if String.eqb cmd "create" then Some Start
  else if String.eqb cmd "start" then Some Start
  else if String.eqb cmd "destroy" then Some ForceStop
  else if String.eqb cmd "pause" then Some Pause
  else if String.eqb cmd "unpause" then Some Resume
  else if String.eqb cmd "shutdown" then Some GracefulStop
  else None.

Lemma command_action_cases cmd a :
  command_action cmd = Some a ->
  (cmd = "create" /\ a = Start) \/ (cmd = "start" /\ a = Start) \/
  (cmd = "destroy" /\ a = ForceStop) \/ (cmd = "pause" /\ a = Pause) \/
  (cmd = "unpause" /\ a = Resume) \/ (cmd = "shutdown" /\ a = GracefulStop).
Proof.
  unfold command_action.
  repeat match goal with
         | |- context [String.eqb cmd ?c] =>
             destruct (String.eqb_spec cmd c) as [->|_];
             [intros [= <-]; naive_solver|]
         end.
  discriminate.
Qed.

Lemma action_run_absent a h uri oc g cn tr w :
  connects h uri oc -> served h RListAllDomains -> hv_domains h !! g = None ->
  action_method a uri g (PState h cn tr w)
  = (Raise (VMNotFound ("virtual machine " +:+ g +:+ " not found")),
     PState h (Some (opened tr))
            (tr ++ [EOpen oc; ECall (opened tr) RListAllDomains]) w).
Proof.
  intros Hc Hs Hg.
  destruct a; cbn [action_method];
    unfold Virt.unpause, Virt.start, Virt.shutdown, Virt.destroy, Virt.pause;
    (erewrite run_bind_ok; [|apply get_conn_ok; exact Hc]);
    rewrite run_bind; cbn [Virt.self_conn ps_conn];
    unfold LibvirtConnection.resume, LibvirtConnection.create,
      LibvirtConnection.shutdown, LibvirtConnection.destroy,
      LibvirtConnection.suspend;
    rewrite ?run_bind;
    erewrite find_vm_absent by eassumption; by rewrite <- app_assoc.
Qed.

(** What a lifecycle command runs once [core] has dispatched it. *)
Lemma dispatch_action p cmd a g s :
  p_command p = Some cmd -> command_action cmd = Some a ->
  p_name p = Some g -> g <> ""%string ->
  core_command p [] s
  = (r ← action_method a (p_uri p) g;
     mret (VIRT_SUCCESS, [(cmd, VInt r)])) s.
Proof.
  intros Hcmd Ha Hn Hg. unfold core_command. rewrite Hcmd, Hn, (truthy_some _ Hg).
  cbn [str_of negb].
  destruct (command_action_cases cmd a Ha)
    as [[-> ->]|[[-> ->]|[[-> ->]|[[-> ->]|[[-> ->]| [-> ->]]]]]];
    cbn [py_in existsb VM_COMMANDS String.eqb Ascii.eqb Bool.eqb orb andb
         action_method];
    unfold Virt.getattr;
    cbn [String.eqb Ascii.eqb Bool.eqb];
    repeat rewrite run_bind; rewrite ?run_ret; repeat rewrite run_bind;
    try change (Virt.create (p_uri p) g) with (Virt.start (p_uri p) g);
    match goal with
    | |- context [?m (p_uri p) g s] =>
        destruct (m (p_uri p) g s) as [[r|e|msg] s']; reflexivity
    end.
Qed.

(** A lifecycle command ([create], [start], [destroy], [pause], [unpause],
    [shutdown]; no state, no autostart) on a guest that exists sends its one
    request without reading the status first, and answers the driver's 0
    under the name of the command. *)
Theorem direct_command h p cmd a g d oc :
  p_command p = Some cmd -> command_action cmd = Some a ->
  p_name p = Some g -> g <> ""%string ->
  truthy (p_state p) = false -> p_autostart p = None ->
  connects h (p_uri p) oc -> served h RListAllDomains ->
  hv_domains h !! g = Some d ->
  requests (ps_trace (snd (run h p))) = [RListAllDomains; action_request a g] /\
  fst (run h p)
  = match hv_fault h (action_request a g) with
    | None => Ok (VIRT_SUCCESS, [(cmd, VInt 0)])
    | Some e => Raise (LibvirtError e)
    end.
Proof.
  intros Hcmd Ha Hn Hg Hst Hau Hc Hl Hd.
  assert (Htruthy : truthy (p_command p) = true).
  { rewrite Hcmd. apply truthy_some. intros ->. discriminate. }
  rewrite (enter_command p h Hst Hau Htruthy).
  rewrite (dispatch_action p cmd a g _ Hcmd Ha Hn Hg).
  rewrite run_bind. unfold initial.
  rewrite (action_run a h (p_uri p) oc g d None [] [] Hc Hl Hd).
  destruct (hv_fault h (action_request a g)); by split.
Qed.

Lemma direct_command_witness :
  requests (ps_trace (snd (run demo_hv
    (Params None None (Some "alpha"%string) (Some "start"%string) None None
            demo_uri None))))
  = [RListAllDomains; RCreate "alpha"].
Proof.
  exact (proj1 (direct_command demo_hv
    (Params None None (Some "alpha"%string) (Some "start"%string) None None
            demo_uri None)
    "start" Start "alpha" (demo_domain 1 false (demo_xml "alpha")) _
    eq_refl eq_refl eq_refl ltac:(discriminate) eq_refl eq_refl demo_connects
    eq_refl eq_refl)).
Defined.

(** The same commands on a guest the hypervisor does not have raise
    [VMNotFound] after the enumeration, and send nothing else. *)
Theorem direct_command_missing_guest h p cmd a g oc :
  p_command p = Some cmd -> command_action cmd = Some a ->
  p_name p = Some g -> g <> ""%string ->
  truthy (p_state p) = false -> p_autostart p = None ->
  connects h (p_uri p) oc -> served h RListAllDomains ->
  hv_domains h !! g = None ->
  run h p
  = (Raise (VMNotFound ("virtual machine " +:+ g +:+ " not found")),
     PState h (Some 0%nat) [EOpen oc; ECall 0 RListAllDomains] []).
Proof.
  intros Hcmd Ha Hn Hg Hst Hau Hc Hl Hd.
  assert (Htruthy : truthy (p_command p) = true).
  { rewrite Hcmd. apply truthy_some. intros ->. discriminate. }
  rewrite (enter_command p h Hst Hau Htruthy).
  rewrite (dispatch_action p cmd a g _ Hcmd Ha Hn Hg).
  rewrite run_bind. unfold initial.
  by rewrite (action_run_absent a h (p_uri p) oc g None [] [] Hc Hl Hd).
Qed.

Lemma direct_command_missing_guest_witness :
  fst (run demo_hv
    (Params None None (Some "omega"%string) (Some "destroy"%string) None None
            demo_uri None))
  = Raise (VMNotFound "virtual machine omega not found").
Proof.
  exact (f_equal fst (direct_command_missing_guest demo_hv
    (Params None None (Some "omega"%string) (Some "destroy"%string) None None
            demo_uri None)
    "destroy" ForceStop "omega" _
    eq_refl eq_refl eq_refl ltac:(discriminate) eq_refl eq_refl demo_connects
    eq_refl eq_refl)).
Defined.

(** The flag [core] hands to [undefine] when the flags do not conflict. *)
Definition undefine_mask (flags : option (list string)) (force : option bool) : Z :=
  match flags with
  | Some fl => flag_sum fl
  | None => if bool_decide (force = Some true) then 23 else 0
  end.

Lemma undefine_flag_run flags force h cn tr w :
  conflicting flags = false ->
  exists w',
    undefine_flag flags force (PState h cn tr w)
    = (Ok (undefine_mask flags force), PState h cn tr w').
Proof.
  intros Hc. unfold undefine_flag, undefine_mask, conflicting in *.
  destruct flags as [fl|].
  - rewrite run_bind. cbn [forallb]. rewrite andb_true_r, Hc.
    rewrite fold_left_flag_sum, Z.add_0_l. case_bool_decide; cbn; eauto.
  - case_bool_decide; eauto.
Qed.

Lemma undefine_run h uri oc g d flag cn tr w :
  connects h uri oc -> served h RListAllDomains -> hv_domains h !! g = Some d ->
  Virt.undefine uri g flag (PState h cn tr w)
  = match hv_fault h (RUndefineFlags g flag) with
    | None =>
        (Ok 0,
         PState (with_domains h (delete g (hv_domains h))) (Some (opened tr))
                (tr ++ [EOpen oc; ECall (opened tr) RListAllDomains;
                        ECall (opened tr) (RUndefineFlags g flag)]) w)
    | Some e =>
        (Raise (LibvirtError e),
         PState h (Some (opened tr))
                (tr ++ [EOpen oc; ECall (opened tr) RListAllDomains;
                        ECall (opened tr) (RUndefineFlags g flag)]) w)
    end.
Proof.
  intros Hc Hs Hg. unfold Virt.undefine.
  erewrite run_bind_ok; [|apply get_conn_ok; exact Hc].
  rewrite run_bind. cbn [Virt.self_conn ps_conn].
  unfold LibvirtConnection.undefine.
  erewrite run_bind_ok; [|eapply find_vm_ok; eassumption].
  unfold virDomain.undefineFlags. cbn [h_conn h_name].
  destruct (hv_fault h (RUndefineFlags g flag)) as [e|] eqn:Hf.
  - erewrite call_refused by exact Hf. by rewrite <- !app_assoc.
  - erewrite call_served; [|exact Hf|by rewrite Hg]. by rewrite <- !app_assoc.
Qed.

(** [undefine] (no state, no autostart) on a guest that exists, with flags
    that do not conflict: the request is always sent, whatever the domain's
    status, with the sum of the listed bits (or 23 under [force] alone, or 0),
    and the driver's 0 is answered under the key [undefine]. *)
Theorem undefine_executes h p g d oc :
  p_command p = Some "undefine"%string ->
  p_name p = Some g -> g <> ""%string ->
  truthy (p_state p) = false -> p_autostart p = None ->
  conflicting (p_flags p) = false ->
  connects h (p_uri p) oc -> served h RListAllDomains ->
  hv_domains h !! g = Some d ->
  let flag := undefine_mask (p_flags p) (p_force p) in
  requests (ps_trace (snd (run h p))) = [RListAllDomains; RUndefineFlags g flag] /\
  fst (run h p)
  = match hv_fault h (RUndefineFlags g flag) with
    | None => Ok (VIRT_SUCCESS, [("undefine"%string, VInt 0)])
    | Some e => Raise (LibvirtError e)
    end.
Proof.
  intros Hcmd Hn Hg Hst Hau Hfl Hc Hl Hd flag.
  rewrite (enter_command p h Hst Hau) by (by rewrite Hcmd).
  unfold core_command. rewrite Hcmd, Hn, (truthy_some _ Hg).
  cbn [str_of negb py_in existsb VM_COMMANDS String.eqb Ascii.eqb Bool.eqb orb].
  rewrite !run_bind. unfold initial.
  destruct (undefine_flag_run (p_flags p) (p_force p) h None [] [] Hfl) as [w' ->].
  fold flag. rewrite !run_bind.
  rewrite (undefine_run h (p_uri p) oc g d flag None [] w' Hc Hl Hd).
  destruct (hv_fault h (RUndefineFlags g flag)); by split.
Qed.

Lemma undefine_executes_witness :
  requests (ps_trace (snd (run demo_hv
    (Params None None (Some "alpha"%string) (Some "undefine"%string) None
            (Some ["nvram"; "managed_save"]%string) demo_uri None))))
  = [RListAllDomains; RUndefineFlags "alpha" 5].
Proof.
  exact (proj1 (undefine_executes demo_hv
    (Params None None (Some "alpha"%string) (Some "undefine"%string) None
            (Some ["nvram"; "managed_save"]%string) demo_uri None)
    "alpha" (demo_domain 1 false (demo_xml "alpha")) _
    eq_refl eq_refl ltac:(discriminate) eq_refl eq_refl eq_refl demo_connects
    eq_refl eq_refl)).
Defined.

(** ** Commands on the host *)

Lemma list_vms_run_conn h uri oc state cn tr w :
  connects h uri oc -> served h RListAllDomains ->
  exists tr',
    Virt.list_vms uri state (PState h cn tr w)
    = (Ok (listed_names h state), PState h (Some (opened tr)) tr' w).
Proof.
  intros Hc Hl. unfold Virt.list_vms.
  erewrite run_bind_ok; [|apply get_conn_ok; exact Hc].
  rewrite run_bind. cbn [Virt.set_self_conn ps_hv ps_conn ps_trace ps_warnings].
  rewrite run_bind. cbn [Virt.self_conn ps_conn].
  unfold LibvirtConnection.find_vm_all, virConnect.listAllDomains.
  erewrite run_bind_ok; [|apply call_served; [exact Hl|reflexivity]].
  edestruct (list_vms_loop_run h state (opened tr) (Some (opened tr)) w
               (map_to_list (hv_domains h))) as [tr' ->].
  { intros n d Hin. apply elem_of_map_to_list. by apply list_elem_of_In. }
  cbn [app]. eauto.
Qed.

(** What [nodeinfo] answers: the eight fields as strings. *)
Definition nodeinfo_dict (data : nodeinfo_t) : pydict :=
  [("cpumodel", VStr (ni_model data));
   ("phymemory", VStr (str_of_Z (ni_memory data)));
   ("cpus", VStr (str_of_Z (ni_cpus data)));
   ("cpumhz", VStr (str_of_Z (ni_mhz data)));
   ("numanodes", VStr (str_of_Z (ni_nodes data)));
   ("sockets", VStr (str_of_Z (ni_sockets data)));
   ("cpucores", VStr (str_of_Z (ni_cores data)));
   ("cputhreads", VStr (str_of_Z (ni_threads data)))]%string.

(** The commands on the host (no state, no autostart) need no guest and
    ignore the one given.  [freemem], [virttype] and [list_vms] answer under
    the name of the command; [nodeinfo] answers a dictionary, which [core]
    hands over as it is. *)
Theorem host_command_results h p oc :
  truthy (p_state p) = false -> p_autostart p = None ->
  connects h (p_uri p) oc ->
  (p_command p = Some "freemem"%string -> served h RGetFreeMemory ->
   fst (run h p) = Ok (VIRT_SUCCESS, [("freemem"%string, VInt (hv_freemem h))])) /\
  (p_command p = Some "virttype"%string -> served h RGetType ->
   fst (run h p) = Ok (VIRT_SUCCESS, [("virttype"%string, VStr (hv_type h))])) /\
  (p_command p = Some "nodeinfo"%string -> served h RGetInfo ->
   fst (run h p) = Ok (VIRT_SUCCESS, nodeinfo_dict (hv_nodeinfo h))) /\
  (p_command p = Some "list_vms"%string -> served h RListAllDomains ->
   fst (run h p)
   = Ok (VIRT_SUCCESS,
         [("list_vms"%string,
           VList (map VStr (map fst (map_to_list (hv_domains h)))))])).
Proof.
  intros Hst Hau Hc.
  assert (Henter : forall cmd, p_command p = Some cmd -> cmd <> ""%string ->
            run h p = core_command p [] (initial h)).
  { intros cmd Hcmd Hne. apply enter_command; [exact Hst|exact Hau|].
    rewrite Hcmd. by apply truthy_some. }
  repeat split; intros Hcmd Hs;
    rewrite (Henter _ Hcmd) by discriminate;
    unfold core_command; rewrite Hcmd;
    cbn [str_of py_in existsb VM_COMMANDS String.eqb Ascii.eqb Bool.eqb orb];
    unfold Virt.getattr; cbn [String.eqb Ascii.eqb Bool.eqb];
    repeat rewrite run_bind; rewrite ?run_ret; repeat rewrite run_bind;
    unfold initial.
  - unfold Virt.freemem.
    erewrite run_bind_ok; [|apply get_conn_ok; exact Hc].
    rewrite run_bind. cbn [Virt.set_self_conn ps_hv ps_conn ps_trace ps_warnings].
    rewrite run_bind. cbn [Virt.self_conn ps_conn].
    unfold LibvirtConnection.getFreeMemory, virConnect.getFreeMemory.
    by erewrite call_served; [|exact Hs|reflexivity].
  - unfold Virt.virttype.
    erewrite run_bind_ok; [|apply get_conn_ok; exact Hc].
    unfold LibvirtConnection.get_type, virConnect.getType.
    by erewrite call_served; [|exact Hs|reflexivity].
  - unfold Virt.nodeinfo.
    erewrite run_bind_ok; [|apply get_conn_ok; exact Hc].
    rewrite run_bind. cbn [Virt.self_conn ps_conn].
    unfold LibvirtConnection.nodeinfo, virConnect.getInfo.
    erewrite run_bind_ok; [|apply call_served; [exact Hs|reflexivity]].
    reflexivity.
  - destruct (list_vms_run_conn h (p_uri p) oc None None [] [] Hc Hs) as [tr' ->].
    assert (Hall : forall l : list (string * dominfo),
              List.filter (listed h None) l = l).
    { induction l as [|kv l IH]; [reflexivity|].
      cbn [List.filter listed truthy]. by rewrite IH. }
    unfold listed_names. by rewrite Hall.
Qed.

Lemma host_command_results_witness :
  fst (run demo_hv (Params None None None (Some "freemem"%string) None None
                           demo_uri None))
  = Ok (VIRT_SUCCESS, [("freemem"%string, VInt 4096)]).
Proof.
  exact (proj1 (host_command_results demo_hv
    (Params None None None (Some "freemem"%string) None None demo_uri None)
    _ eq_refl eq_refl demo_connects) eq_refl eq_refl).
Defined.

(** ** All the domains at once: [info] and [state] *)

(** The hypervisor serves every request that only reads. *)
Definition reads_served (h : hypervisor) : Prop :=
  forall rq, mutating rq = false -> served h rq.

(** The entry of [info] for one domain. *)
Definition info_entry (kv : string * dominfo) : string * pyval :=
  (fst kv,
   VDict [("state", VStr (status_of (snd kv)));
          ("maxMem", VStr (str_of_Z (di_maxMem (snd kv))));
          ("memory", VStr (str_of_Z (di_memory (snd kv))));
          ("nrVirtCpu", VInt (di_nrVirtCpu (snd kv)));
          ("cpuTime", VStr (str_of_Z (di_cpuTime (snd kv))));
          ("autostart", VInt (Z.b2z (di_autostart (snd kv))))]%string).

(** The line of [state] for one domain. *)
Definition state_line (kv : string * dominfo) : string :=
  (fst kv +:+ " " +:+ status_of (snd kv))%string.

Lemma dict_set_fresh k v (d : pydict) :
  ~ In k (map fst d) -> dict_set k v d = d ++ [(k, v)].
Proof.
  induction d as [|[k' v'] d IH]; intros Hk; [reflexivity|].
  cbn in *. destruct (String.eqb_spec k' k) as [->|_]; [tauto|].
  rewrite IH; tauto.
Qed.

Lemma domain_info_run h c n d cn tr w :
  served h (RInfo n) -> hv_domains h !! n = Some d ->
  virDomain.info (Handle c n) (PState h cn tr w)
  = (Ok [di_state d; di_maxMem d; di_memory d; di_nrVirtCpu d; di_cpuTime d],
     PState h cn (tr ++ [ECall c (RInfo n)]) w).
Proof.
  intros Hs Hd. unfold virDomain.info. cbn [h_conn h_name].
  apply call_served; [exact Hs|]. unfold on_domain. by rewrite Hd.
Qed.

Lemma get_autostart_run h c n d cn tr w :
  served h (RLookupByName n) -> served h (RAutostart n) ->
  hv_domains h !! n = Some d ->
  LibvirtConnection.get_autostart c n (PState h cn tr w)
  = (Ok (di_autostart d),
     PState h cn (tr ++ [ECall c (RLookupByName n); ECall c (RAutostart n)]) w).
Proof.
  intros Hl Ha Hd. unfold LibvirtConnection.get_autostart.
  unfold virConnect.lookupByName, virDomain.autostart.
  erewrite run_bind_ok;
    [|apply call_served; [exact Hl|unfold on_domain; by rewrite Hd]].
  cbn [h_conn h_name].
  erewrite call_served; [|exact Ha|unfold on_domain; by rewrite Hd].
  by rewrite <- app_assoc.
Qed.

Lemma info_loop_run h c w (l : list (string * dominfo)) :
  reads_served h ->
  (forall n d, In (n, d) l -> hv_domains h !! n = Some d) ->
  NoDup (map fst l) ->
  forall acc tr,
    (forall k, In k (map fst acc) -> ~ In k (map fst l)) ->
    exists tr',
      Virt.info_loop acc (map fst l) (PState h (Some c) tr w)
      = (Ok (acc ++ map info_entry l), PState h (Some c) tr' w).
Proof.
  intros Hr. induction l as [|[n d] l IH]; intros Hl Hnd acc tr Hacc.
  - cbn. rewrite app_nil_r. eauto.
  - cbn [map fst Virt.info_loop].
    rewrite run_bind. cbn [Virt.self_conn ps_conn].
    erewrite run_bind_ok;
      [|apply (find_vm_ok h c n d); [by apply Hr|apply Hl; by left]].
    erewrite run_bind_ok;
      [|apply (domain_info_run h c n d); [by apply Hr|apply Hl; by left]].
    rewrite run_bind. cbn [Virt.self_conn ps_conn].
    erewrite run_bind_ok;
      [|apply (get_autostart_run h c n d);
        [by apply Hr|by apply Hr|apply Hl; by left]].
    cbn [nth].
    rewrite dict_set_fresh.
    2:{ intros Hin. apply (Hacc n Hin). by left. }
    inversion Hnd as [|? ? Hn Hnd']; subst.
    edestruct (IH (fun n' d' H => Hl n' d' (or_intror H)) Hnd') as [tr' ->].
    { intros k. rewrite map_app, in_app_iff. cbn [map fst In].
      intros [Hk|[<-|[]]].
      - intros Hk'. apply (Hacc k Hk). by right.
      - intros Hk'. apply Hn. by apply list_elem_of_In. }
    rewrite <- app_assoc. eauto.
Qed.

Lemma state_loop_run h c w (l : list (string * dominfo)) :
  reads_served h ->
  (forall n d, In (n, d) l -> hv_domains h !! n = Some d) ->
  forall acc tr,
    exists tr',
      Virt.state_loop acc (map fst l) (PState h (Some c) tr w)
      = (Ok (acc ++ map state_line l), PState h (Some c) tr' w).
Proof.
  intros Hr. induction l as [|[n d] l IH]; intros Hl acc tr.
  - cbn. rewrite app_nil_r. eauto.
  - cbn [map fst Virt.state_loop].
    rewrite run_bind. cbn [Virt.self_conn ps_conn].
    unfold LibvirtConnection.get_status.
    rewrite run_bind.
    erewrite run_bind_ok;
      [|apply (find_vm_ok h c n d); [by apply Hr|apply Hl; by left]].
    erewrite run_bind_ok;
      [|apply (domain_info_run h c n d); [by apply Hr|apply Hl; by left]].
    rewrite run_ret. cbn [nth].
    edestruct (IH (fun n' d' H => Hl n' d' (or_intror H))) as [tr' ->].
    rewrite <- app_assoc. eauto.
Qed.

Lemma listed_names_all h :
  listed_names h None = map fst (map_to_list (hv_domains h)).
Proof.
  unfold listed_names. f_equal.
  induction (map_to_list (hv_domains h)) as [|kv l IH]; [reflexivity|].
  cbn [List.filter listed truthy]. by rewrite IH.
Qed.

Lemma names_nodup h : NoDup (map fst (map_to_list (hv_domains h))).
Proof.
  replace (map fst (map_to_list (hv_domains h)))
    with ((map_to_list (hv_domains h)).*1)
    by (induction (map_to_list (hv_domains h)); [reflexivity|by f_equal]).
  apply NoDup_fst_map_to_list.
Qed.

Lemma in_map_to_list h n d :
  In (n, d) (map_to_list (hv_domains h)) -> hv_domains h !! n = Some d.
Proof. intros Hin. apply elem_of_map_to_list. by apply list_elem_of_In. Qed.

(** [info] (no state, no autostart), when the hypervisor serves every read:
    one entry per domain of the hypervisor, in the order of the enumeration,
    under the domain's name; the dictionary is the result itself, no key
    [info] wraps it. *)
Theorem info_covers_every_domain h p oc :
  p_command p = Some "info"%string ->
  truthy (p_state p) = false -> p_autostart p = None ->
  connects h (p_uri p) oc -> reads_served h ->
  fst (run h p)
  = Ok (VIRT_SUCCESS, map info_entry (map_to_list (hv_domains h))).
Proof.
  intros Hcmd Hst Hau Hc Hr.
  rewrite (enter_command p h Hst Hau) by (by rewrite Hcmd).
  unfold core_command. rewrite Hcmd.
  cbn [str_of py_in existsb VM_COMMANDS String.eqb Ascii.eqb Bool.eqb orb].
  unfold Virt.getattr. cbn [String.eqb Ascii.eqb Bool.eqb].
  repeat rewrite run_bind. rewrite ?run_ret. repeat rewrite run_bind.
  unfold Virt.info. rewrite run_bind. unfold initial.
  destruct (list_vms_run_conn h (p_uri p) oc None None [] []
              Hc (Hr RListAllDomains eq_refl)) as [tr' ->].
  rewrite listed_names_all.
  destruct (info_loop_run h (opened []) [] (map_to_list (hv_domains h)) Hr
              (in_map_to_list h)
              (names_nodup h)
              [] tr' ltac:(intros k [])) as [tr'' ->].
  reflexivity.
Qed.

Lemma info_covers_every_domain_witness :
  fst (run demo_hv (Params None None None (Some "info"%string) None None
                           demo_uri None))
  = Ok (VIRT_SUCCESS, map info_entry (map_to_list (hv_domains demo_hv))).
Proof.
  exact (info_covers_every_domain demo_hv
    (Params None None None (Some "info"%string) None None demo_uri None) _
    eq_refl eq_refl eq_refl demo_connects (fun _ _ => eq_refl)).
Defined.

(** [Virt.state], when the hypervisor serves every read: one line per domain,
    the name, a space and the status. *)
Theorem state_lists_every_domain h uri oc cn tr w :
  connects h uri oc -> reads_served h ->
  fst (Virt.state uri (PState h cn tr w))
  = Ok (map state_line (map_to_list (hv_domains h))).
Proof.
  intros Hc Hr. unfold Virt.state. rewrite run_bind.
  destruct (list_vms_run_conn h uri oc None cn tr w
              Hc (Hr RListAllDomains eq_refl)) as [tr' ->].
  rewrite listed_names_all.
  destruct (state_loop_run h (opened tr) w (map_to_list (hv_domains h)) Hr
              (in_map_to_list h) [] tr') as [tr'' ->].
  reflexivity.
Qed.

Lemma state_lists_every_domain_witness :
  fst (Virt.state demo_uri (initial demo_hv))
  = Ok (map state_line (map_to_list (hv_domains demo_hv))).
Proof.
  exact (state_lists_every_domain demo_hv demo_uri _ None [] []
           demo_connects (fun _ _ => eq_refl)).
Defined.

Lemma info_loop_refused h c w (l : list (string * dominfo)) :
  served h RListAllDomains ->
  (forall n d, In (n, d) l -> hv_domains h !! n = Some d) ->
  (exists n d e, In (n, d) l /\ hv_fault h (RInfo n) = Some e) ->
  forall acc tr,
    exists rq e',
      hv_fault h rq = Some e' /\
      fst (Virt.info_loop acc (map fst l) (PState h (Some c) tr w))
      = Raise (LibvirtError e').
Proof.
  intros Hs. induction l as [|[n d] l IH]; intros Hl Hbad acc tr.
  - destruct Hbad as (? & ? & ? & [] & _).
  - cbn [map fst Virt.info_loop].
    rewrite run_bind. cbn [Virt.self_conn ps_conn].
    erewrite run_bind_ok; [|apply (find_vm_ok h c n d); [exact Hs|apply Hl; by left]].
    unfold virDomain.info. cbn [h_conn h_name].
    destruct (hv_fault h (RInfo n)) as [e|] eqn:Hi.
    { erewrite run_bind_raise; [|by apply call_refused]. eauto. }
    erewrite run_bind_ok;
      [|apply call_served; [exact Hi|unfold on_domain; by rewrite (Hl n d (or_introl eq_refl))]].
    rewrite run_bind. cbn [Virt.self_conn ps_conn].
    unfold LibvirtConnection.get_autostart, virConnect.lookupByName.
    rewrite (run_bind (call _ _ _ ≫= _)). rewrite (run_bind (call _ _ _)).
    destruct (hv_fault h (RLookupByName n)) as [e|] eqn:Hlk.
    { erewrite call_refused by exact Hlk. eauto. }
    erewrite call_served;
      [|exact Hlk|unfold on_domain; by rewrite (Hl n d (or_introl eq_refl))].
    unfold virDomain.autostart. cbn [h_conn h_name].
    destruct (hv_fault h (RAutostart n)) as [e|] eqn:Ha.
    { erewrite call_refused by exact Ha. eauto. }
    erewrite call_served;
      [|exact Ha|unfold on_domain; by rewrite (Hl n d (or_introl eq_refl))].
    apply IH.
    + intros n' d' H. apply Hl. by right.
    + destruct Hbad as (n' & d' & e & [Heq|Hin] & Hf); [|by eauto 6].
      injection Heq as <- <-. congruence.
Qed.

(** Where [list_vms] skips a domain whose status lookup fails, [info] does
    not: as soon as the lookup is refused for one domain of the hypervisor,
    [info] ends with a libvirt error and answers nothing, whatever the other
    domains are. *)
Theorem info_fails_on_one_refusal h uri oc n d e cn tr w :
  connects h uri oc -> served h RListAllDomains ->
  hv_domains h !! n = Some d -> hv_fault h (RInfo n) = Some e ->
  exists rq e',
    hv_fault h rq = Some e' /\
    fst (Virt.info uri (PState h cn tr w)) = Raise (LibvirtError e').
Proof.
  intros Hc Hs Hd Hf. unfold Virt.info. rewrite run_bind.
  destruct (list_vms_run_conn h uri oc None cn tr w Hc Hs) as [tr' ->].
  rewrite listed_names_all.
  apply info_loop_refused; [exact Hs|apply in_map_to_list|].
  exists n, d, e. split; [|exact Hf].
  apply list_elem_of_In, elem_of_map_to_list, Hd.
Qed.

Lemma info_fails_on_one_refusal_witness :
  exists rq e',
    hv_fault flaky_hv rq = Some e' /\
    fst (Virt.info demo_uri (initial flaky_hv)) = Raise (LibvirtError e').
Proof.
  exact (info_fails_on_one_refusal flaky_hv demo_uri _ "alpha"
           (demo_domain 1 false (demo_xml "alpha")) _ None [] []
           demo_connects eq_refl eq_refl eq_refl).
Defined.

(** ** The autostart argument without a usable guest *)

(** With an autostart argument (the command not [define], not the [list_vms]
    query with a state) and no guest name, the invocation fails before
    anything is sent, whatever state or command comes with it. *)
Theorem autostart_requires_name h p a :
  p_autostart p = Some a -> p_command p <> Some "define"%string ->
  truthy (p_state p) && bool_decide (p_command p = Some "list_vms"%string) = false ->
  truthy (p_name p) = false ->
  run h p = (FailJson "autostart requires 1 argument: name", initial h).
Proof.
  intros Hau Hdef Hq Hn. unfold run, core. rewrite Hq, run_bind.
  unfold core_autostart. rewrite Hau, (bool_decide_eq_false_2 _ Hdef), Hn.
  reflexivity.
Qed.

Lemma autostart_requires_name_witness :
  run demo_hv (Params (Some "running"%string) (Some true) None None None None
                      demo_uri None)
  = (FailJson "autostart requires 1 argument: name", initial demo_hv).
Proof.
  exact (autostart_requires_name demo_hv
    (Params (Some "running"%string) (Some true) None None None None demo_uri None)
    true eq_refl ltac:(discriminate) eq_refl eq_refl).
Defined.

(** With an autostart argument and the name of a guest the hypervisor does
    not have, the invocation ends with "domain ... not found" after the one
    enumeration: the autostart setting is neither read nor written, and no
    state or command that comes with it is looked at. *)
Theorem autostart_unknown_guest h p a g oc :
  p_autostart p = Some a -> p_command p <> Some "define"%string ->
  truthy (p_state p) && bool_decide (p_command p = Some "list_vms"%string) = false ->
  p_name p = Some g -> g <> ""%string ->
  connects h (p_uri p) oc -> served h RListAllDomains ->
  hv_domains h !! g = None ->
  run h p
  = (FailJson ("domain " +:+ g +:+ " not found"),
     PState h (Some 0%nat) [EOpen oc; ECall 0 RListAllDomains] []).
Proof.
  intros Hau Hdef Hq Hn Hg Hc Hl Hd. unfold run, core. rewrite Hq, run_bind.
  unfold core_autostart. rewrite Hau, (bool_decide_eq_false_2 _ Hdef), Hn.
  rewrite (truthy_some _ Hg). cbn [negb str_of].
  rewrite run_bind, run_ret, run_bind.
  unfold try_except at 1. rewrite run_bind. unfold initial.
  rewrite (get_vm_absent h (p_uri p) oc g None [] [] Hc Hl Hd).
  reflexivity.
Qed.

Lemma autostart_unknown_guest_witness :
  run demo_hv (Params None (Some true) (Some "delta"%string) None None None
                      demo_uri None)
  = (FailJson "domain delta not found",
     PState demo_hv (Some 0%nat)
            [EOpen (OpenUri "qemu:///system"); ECall 0 RListAllDomains] []).
Proof.
  exact (autostart_unknown_guest demo_hv
    (Params None (Some true) (Some "delta"%string) None None None demo_uri None)
    true "delta" _ eq_refl ltac:(discriminate) eq_refl eq_refl
    ltac:(discriminate) demo_connects eq_refl eq_refl).
Defined.

(** ** Commands that only read *)

Lemma read_only_truthy p :
  py_in (str_of (p_command p)) read_only_commands = true ->
  truthy (p_command p) = true.
Proof.
  destruct (p_command p) as [cmd|]; [|discriminate]. cbn [str_of truthy].
  by destruct (String.eqb_spec cmd "") as [->|_].
Qed.

(** The commands that only read ([status], [get_xml] and the commands on the
    host) without state and autostart, and the [list_vms] query with a state,
    send no request that changes the hypervisor, whether the invocation
    returns, raises or fails, and whatever the hypervisor refuses. *)
Theorem queries_never_mutate h p :
  (p_autostart p = None /\ truthy (p_state p) = false /\
   py_in (str_of (p_command p)) read_only_commands = true) \/
  (truthy (p_state p) = true /\ p_command p = Some "list_vms"%string) ->
  mutations (ps_trace (snd (run h p))) = [].
Proof.
  intros [(Hau & Hst & Hq)|(Hst & Hcmd)].
  - rewrite (enter_command p h Hst Hau (read_only_truthy p Hq)).
    pose proof (quiet_core_command p [] Hq (initial h) (inv_initial quiet h)) as H.
    destruct (core_command p [] (initial h)) as [[r|e|msg] s'];
      by apply quiet_no_mutation.
  - unfold run, core. rewrite Hst, Hcmd, bool_decide_eq_true_2 by done.
    cbn [andb]. rewrite run_bind.
    pose proof (quiet_list_vms (p_uri p) (p_state p) (initial h)
                  (inv_initial quiet h)) as H.
    destruct (Virt.list_vms (p_uri p) (p_state p) (initial h)) as [[r|e|msg] s'];
      by apply quiet_no_mutation.
Qed.

Lemma queries_never_mutate_witness :
  mutations (ps_trace (snd (run flaky_hv
    (Params None None (Some "alpha"%string) (Some "status"%string) None None
            demo_uri None)))) = [].
Proof.
  exact (queries_never_mutate flaky_hv
    (Params None None (Some "alpha"%string) (Some "status"%string) None None
            demo_uri None)
    (or_introl (conj eq_refl (conj eq_refl eq_refl)))).
Defined.

(** ** A command that [Virt] does not have *)

(** The names the class [Virt] gives its objects from the start; [conn] comes
    with the first connection only. *)
Definition virt_names : list string :=
  ["get_vm"; "state"; "info"; "nodeinfo"; "list_vms"; "virttype"; "autostart";
   "freemem"; "shutdown"; "pause"; "unpause"; "create"; "start"; "destroy";
   "undefine"; "status"; "get_xml"; "get_maxVcpus"; "get_max_memory"; "define";
   "module"; "uri"]%string.

Lemma getattr_missing uri cmd s :
  py_in cmd virt_names = false -> ps_conn s = None ->
  Virt.getattr uri cmd s = (Ok Virt.Missing, s).
Proof.
  intros Hn Hc. unfold Virt.getattr.
  repeat match goal with
         | |- context [String.eqb cmd ?c] =>
             destruct (String.eqb_spec cmd c) as [->|_]; [discriminate Hn|]
         end.
  cbn [existsb orb].
  repeat match goal with
         | |- context [String.eqb cmd ?c] =>
             destruct (String.eqb_spec cmd c) as [->|_]; [discriminate Hn|]
         end.
  cbn [orb].
  destruct (String.eqb_spec cmd "conn") as [->|_]; [|reflexivity].
  cbv beta. by rewrite Hc.
Qed.

(** A command (no state, no autostart) that is neither a command on a guest
    nor a name of [Virt], and is no private name, is turned down before
    anything is sent; [conn] is such a command, since no connection has been
    made yet. *)
Theorem unknown_command_rejected h p cmd :
  p_command p = Some cmd -> cmd <> ""%string ->
  py_in cmd VM_COMMANDS = false -> py_in cmd virt_names = false ->
  str_prefix "_" cmd = false ->
  truthy (p_state p) = false -> p_autostart p = None ->
  run h p = (FailJson ("Command " +:+ cmd +:+ " not recognized"), initial h).
Proof.
  intros Hcmd Hne Hvm Hnames _ Hst Hau.
  rewrite (enter_command p h Hst Hau) by (rewrite Hcmd; by apply truthy_some).
  unfold core_command. rewrite Hcmd. cbn [str_of]. rewrite Hvm, run_bind.
  by rewrite getattr_missing.
Qed.

Lemma unknown_command_rejected_witness :
  run demo_hv (Params None None None (Some "conn"%string) None None demo_uri None)
  = (FailJson "Command conn not recognized", initial demo_hv).
Proof.
  exact (unknown_command_rejected demo_hv
    (Params None None None (Some "conn"%string) None None demo_uri None)
    "conn" eq_refl ltac:(discriminate) eq_refl eq_refl eq_refl eq_refl eq_refl).
Defined.

(** ** The return code *)

Lemma returns_only_fail_json {A} (good : A -> Prop) msg :
  returns_only good (fail_json msg).
Proof. intros s a. discriminate. Qed.

Lemma returns_only_raise {A} (good : A -> Prop) e : returns_only good (raise e).
Proof. intros s a. discriminate. Qed.

Lemma core_returns_only_success p :
  returns_only (fun r : Z * pydict => fst r = VIRT_SUCCESS) (core p).
Proof.
  unfold core.
  destruct (truthy (p_state p) && _).
  { apply returns_only_bind. intros r. by apply returns_only_ret. }
  apply returns_only_bind. intros res.
  match goal with
  | |- context [if ?c then mret _ else _] => destruct c
  end; [by apply returns_only_ret|].
  destruct (truthy (p_state p)).
  { unfold core_state. apply returns_only_bind. intros _.
    apply returns_only_bind. intros r. by apply returns_only_ret. }
  destruct (truthy (p_command p)); [|apply returns_only_fail_json].
  unfold core_command. destruct (py_in _ _).
  { apply returns_only_bind. intros r. by apply returns_only_ret. }
  apply returns_only_bind. intros [m|m| | |];
    try apply returns_only_raise; [|apply returns_only_fail_json].
  apply returns_only_bind. intros r. by apply returns_only_ret.
Qed.

(** Whenever [core] returns, the code it returns is [VIRT_SUCCESS]: a failure
    never comes back as a return code, so the test [rc != 0] of [main] never
    holds. *)
Theorem core_returns_success h p rc res :
  fst (run h p) = Ok (rc, res) -> rc = VIRT_SUCCESS.
Proof. intros H. exact (core_returns_only_success p (initial h) (rc, res) H). Qed.

Lemma core_returns_success_witness :
  fst (run demo_hv (Params None None None (Some "freemem"%string) None None
                           demo_uri None))
  = Ok (0, [("freemem"%string, VInt 4096)]) /\ 0 = VIRT_SUCCESS.
Proof.
  split; [reflexivity|].
  exact (core_returns_success demo_hv
    (Params None None None (Some "freemem"%string) None None demo_uri None)
    0 [("freemem"%string, VInt 4096)] eq_refl).
Defined.

(** ** [define] with an autostart argument *)

Lemma existing_xml_run h uri oc name cn tr w :
  connects h uri oc -> served h RListAllDomains ->
  served h (RXMLDesc name VIR_DOMAIN_XML_INACTIVE) ->
  exists cn1 tr1,
    try_except
      (vm ← Virt.get_vm uri name;
       x ← virDomain.XMLDesc vm VIR_DOMAIN_XML_INACTIVE;
       mret (Some x))
      (fun e => match e with VMNotFound _ => Some (mret None) | _ => None end)
      (PState h cn tr w)
    = (Ok (di_xml_inactive <$> hv_domains h !! name), PState h cn1 tr1 w).
Proof.
  intros Hc Hl Hold. unfold try_except. rewrite run_bind.
  destruct (hv_domains h !! name) as [d|] eqn:Hd.
  - erewrite get_vm_ok by eassumption. unfold virDomain.XMLDesc.
    cbn [h_conn h_name]. rewrite run_bind.
    erewrite call_served; [|exact Hold|unfold on_domain; rewrite Hd; reflexivity].
    rewrite run_ret. cbn. eauto.
  - erewrite get_vm_absent by eassumption. cbn. eauto.
Qed.

(** The domain table once libvirt has stored the descriptor. *)
Definition defined (h : hypervisor) (xml : string) : hypervisor :=
  let n := hv_xml_name h xml in
  with_domains h
    (<[n := match hv_domains h !! n with
            | Some d0 => set_inactive_xml (hv_xml_canon h xml) d0
            | None => fresh_domain (hv_xml_canon h xml)
            end]> (hv_domains h)).

Lemma define_step_run h uri oc xml name cn tr w :
  connects h uri oc -> served h (RDefineXML xml) ->
  served h (RXMLDesc (hv_xml_name h xml) VIR_DOMAIN_XML_INACTIVE) ->
  exists cn2 tr2,
    try_except
      (domain ← Virt.define uri xml;
       if truthy (di_xml_inactive <$> hv_domains h !! name) then
         x' ← virDomain.XMLDesc domain VIR_DOMAIN_XML_INACTIVE;
         if negb (bool_decide (di_xml_inactive <$> hv_domains h !! name = Some x')) then
           mret [("changed"%string, VBool true);
                 ("change_reason"%string, VStr "config changed")]
         else mret []
       else
         mret [("changed"%string, VBool true);
               ("created"%string, VStr (virDomain.name domain))])
      (fun e => match e with
                | LibvirtError le =>
                    Some (if negb (Z.eqb (err_code le) 9)
                          then fail_json ("libvirtError: " ++ err_message le)%string
                          else mret [])
                | _ => None
                end)
      (PState h cn tr w)
    = (Ok (define_result h xml name), PState (defined h xml) cn2 tr2 w).
Proof.
  intros Hc Hdef Hnew. unfold try_except at 1. rewrite run_bind.
  rewrite (define_run h uri oc xml cn tr w Hc), Hdef. cbv zeta.
  fold (defined h xml). unfold define_result.
  destruct (hv_domains h !! name) as [d|] eqn:Hd; cbn [fmap option_fmap option_map].
  - destruct (truthy (Some (di_xml_inactive d))) eqn:Htr; [|cbn; eauto].
    unfold virDomain.XMLDesc. cbn [h_conn h_name]. rewrite run_bind.
    erewrite call_served;
      [|exact Hnew|unfold on_domain, defined; cbn [hv_domains with_domains];
        rewrite lookup_insert_eq; reflexivity].
    assert (Hx : forall d', xmldesc VIR_DOMAIN_XML_INACTIVE
             match d' with
             | Some d0 => set_inactive_xml (hv_xml_canon h xml) d0
             | None => fresh_domain (hv_xml_canon h xml)
             end = hv_xml_canon h xml) by (by intros [?|]).
    rewrite Hx, bool_decide_some_str.
    destruct (String.eqb (di_xml_inactive d) (hv_xml_canon h xml)); cbn; eauto.
  - cbn. eauto.
Qed.

(** [define] with an autostart argument (no state), the descriptor accepted
    and named as libvirt names it: the autostart setting of the defined
    domain, false for a new one, is compared with the argument.  When they
    agree the result is that of [define] alone; when they differ the result
    is [changed] with the reason [autostart] alone, also for a domain that
    was just created. *)
Theorem define_with_autostart h p xml name a oc :
  p_command p = Some "define"%string ->
  p_xml p = Some xml -> xml <> ""%string -> re_search_name xml = Some name ->
  hv_xml_name h xml = name ->
  truthy (p_state p) = false -> p_autostart p = Some a ->
  connects h (p_uri p) oc -> reads_served h ->
  served h (RDefineXML xml) -> served h (RSetAutostart name a) ->
  fst (run h p)
  = Ok (VIRT_SUCCESS,
        if Bool.eqb (match hv_domains h !! name with
                     | Some d => di_autostart d
                     | None => false
                     end) a
        then define_result h xml name
        else [("changed"%string, VBool true);
              ("change_reason"%string, VStr "autostart")]).
Proof.
  intros Hcmd Hxml Hne Hname Hn Hst Hau Hc Hr Hdef Hset.
  unfold run, core. rewrite Hst. cbn [andb]. rewrite run_bind.
  unfold core_autostart. rewrite Hau, Hcmd.
  rewrite (bool_decide_eq_true_2 (Some "define"%string = Some "define"%string)) by done.
  cbn [negb andb]. rewrite run_ret, andb_false_r. cbn [andb truthy String.eqb negb].
  unfold core_command. rewrite Hcmd.
  cbn [str_of py_in existsb VM_COMMANDS String.eqb Ascii.eqb Bool.eqb orb].
  rewrite run_bind.
  unfold core_define. rewrite Hxml, Hau, (truthy_some _ Hne). cbn [negb str_of].
  rewrite run_bind, run_ret, run_bind.
  assert (Hw : exists w',
            (if truthy (p_name p) then warn "'xml' is given - ignoring 'name'"
             else mret tt) (initial h) = (Ok tt, PState h None [] w')).
  { destruct (truthy (p_name p)); cbn; eauto. }
  destruct Hw as [w' ->].
  rewrite Hname, run_bind, run_ret, run_bind.
  destruct (existing_xml_run h (p_uri p) oc name None [] w' Hc
              (Hr RListAllDomains eq_refl)
              (Hr (RXMLDesc name VIR_DOMAIN_XML_INACTIVE) eq_refl))
    as (cn1 & tr1 & ->).
  destruct (define_step_run h (p_uri p) oc xml name cn1 tr1 w' Hc Hdef
              (Hr (RXMLDesc (hv_xml_name h xml) VIR_DOMAIN_XML_INACTIVE) eq_refl))
    as (cn2 & tr2 & Hstep).
  erewrite run_bind_ok; [|exact Hstep].
  rewrite run_bind.
  set (d' := match hv_domains h !! name with
             | Some d0 => set_inactive_xml (hv_xml_canon h xml) d0
             | None => fresh_domain (hv_xml_canon h xml)
             end).
  assert (Hd' : hv_domains (defined h xml) !! name = Some d').
  { unfold defined. rewrite Hn. cbn [hv_domains with_domains].
    by rewrite lookup_insert_eq. }
  assert (Hcur : di_autostart d'
                 = match hv_domains h !! name with
                   | Some d => di_autostart d
                   | None => false
                   end) by (subst d'; by destruct (hv_domains h !! name)).
  rewrite (autostart_run (defined h xml) (p_uri p) oc name d' a cn2 tr2 w' Hc
             (Hr (RLookupByName name) eq_refl) (Hr (RAutostart name) eq_refl) Hd'),
    Hcur.
  destruct (Bool.eqb _ a); [reflexivity|].
  change (hv_fault (defined h xml)) with (hv_fault h). by rewrite Hset.
Qed.

Lemma define_with_autostart_witness :
  fst (run demo_hv (Params None (Some true) None (Some "define"%string) None None
                           demo_uri (Some (demo_xml "delta"))))
  = Ok (VIRT_SUCCESS,
        [("changed"%string, VBool true); ("change_reason"%string, VStr "autostart")]).
Proof.
  exact (define_with_autostart demo_hv
    (Params None (Some true) None (Some "define"%string) None None demo_uri
            (Some (demo_xml "delta")))
    (demo_xml "delta") "delta" true _
    eq_refl eq_refl ltac:(discriminate) eq_refl eq_refl eq_refl eq_refl
    demo_connects (fun _ _ => eq_refl) eq_refl eq_refl).
Defined.

(** ** The flag of [undefine] as a set of bits *)

(** The bits of the listed tokens, put together bit by bit. *)
Definition flag_union (fl : list string) : Z := foldr Z.lor 0 (map flag_bit fl).

Lemma flag_bit_disjoint x y : x <> y -> Z.land (flag_bit x) (flag_bit y) = 0.
Proof.
  intros Hne.
  destruct (In_dec string_dec x ALL_FLAGS) as [Hx|Hx];
    [|by rewrite (flag_bit_unknown x Hx)].
  destruct (In_dec string_dec y ALL_FLAGS) as [Hy|Hy];
    [|by rewrite (flag_bit_unknown y Hy), Z.land_0_r].
  cbn in Hx, Hy.
  repeat destruct Hx as [<-|Hx]; try done;
    repeat destruct Hy as [<-|Hy]; try done.
Qed.

Lemma flag_bit_apart x fl : ~ In x fl -> Z.land (flag_bit x) (flag_union fl) = 0.
Proof.
  induction fl as [|y fl IH]; intros Hx; [apply Z.land_0_r|].
  unfold flag_union. cbn [map foldr]. fold (flag_union fl).
  rewrite Z.land_lor_distr_r, IH by (intros H; apply Hx; by right).
  rewrite flag_bit_disjoint by (intros ->; apply Hx; by left).
  reflexivity.
Qed.

Lemma flag_sum_union fl : List.NoDup fl -> flag_sum fl = flag_union fl.
Proof.
  induction 1 as [|x fl Hx Hnd IH]; [reflexivity|].
  unfold flag_sum, flag_union. cbn [map foldr].
  fold (flag_sum fl). fold (flag_union fl). rewrite IH.
  rewrite Z.add_nocarry_lxor by (by apply flag_bit_apart).
  apply Z.lxor_lor. by apply flag_bit_apart.
Qed.

(** When no token is listed twice (and [nvram] does not come with
    [keep_nvram]), the flag composed for [undefine] is the union of the bits
    of the listed tokens: the sum the code makes sets each listed bit and no
    other. *)
Theorem undefine_flag_is_union fl force s :
  List.NoDup fl -> py_in "nvram" fl && py_in "keep_nvram" fl = false ->
  fst (undefine_flag (Some fl) force s) = Ok (flag_union fl).
Proof.
  intros Hnd Hex. unfold undefine_flag. rewrite run_bind.
  cbn [forallb]. rewrite andb_true_r, Hex, fold_left_flag_sum, Z.add_0_l.
  rewrite (flag_sum_union fl Hnd). by case_bool_decide.
Qed.

Lemma undefine_flag_is_union_witness :
  fst (undefine_flag (Some ["nvram"; "managed_save"]%string) None (initial demo_hv))
  = Ok (Z.lor 4 1).
Proof.
  apply (undefine_flag_is_union ["nvram"; "managed_save"]%string None (initial demo_hv));
    [|reflexivity].
  apply NoDup_ListNoDup. by apply (bool_decide_unpack _).
Defined.

(** ** Queries on one guest *)

(** [status] and [get_xml] (no state, no autostart) on a guest that exists:
    [status] finds the guest among the enumerated domains and answers the
    name of its state; [get_xml] looks the guest up by name and answers its
    live descriptor, without enumerating. *)
Theorem guest_queries h p g d oc :
  p_name p = Some g -> g <> ""%string ->
  truthy (p_state p) = false -> p_autostart p = None ->
  connects h (p_uri p) oc -> hv_domains h !! g = Some d ->
  (p_command p = Some "status"%string ->
   served h RListAllDomains -> served h (RInfo g) ->
   fst (run h p) = Ok (VIRT_SUCCESS, [("status"%string, VStr (status_of d))]) /\
   requests (ps_trace (snd (run h p))) = [RListAllDomains; RInfo g]) /\
  (p_command p = Some "get_xml"%string ->
   served h (RLookupByName g) -> served h (RXMLDesc g 0) ->
   fst (run h p) = Ok (VIRT_SUCCESS, [("get_xml"%string, VStr (di_xml d))]) /\
   requests (ps_trace (snd (run h p))) = [RLookupByName g; RXMLDesc g 0]).
Proof.
  intros Hn Hg Hst Hau Hc Hd.
  assert (Henter : forall cmd, p_command p = Some cmd -> cmd <> ""%string ->
            run h p = core_command p [] (initial h)).
  { intros cmd Hcmd Hne. apply enter_command; [exact Hst|exact Hau|].
    rewrite Hcmd. by apply truthy_some. }
  split; intros Hcmd Hs1 Hs2;
    rewrite (Henter _ Hcmd) by discriminate;
    unfold core_command; rewrite Hcmd, Hn, (truthy_some _ Hg);
    cbn [str_of negb py_in existsb VM_COMMANDS String.eqb Ascii.eqb Bool.eqb orb];
    unfold Virt.getattr; cbn [String.eqb Ascii.eqb Bool.eqb];
    repeat rewrite run_bind; rewrite ?run_ret; repeat rewrite run_bind;
    unfold initial.
  - rewrite (status_ok h (p_uri p) oc g d None [] [] Hc Hs1 Hs2 Hd). by split.
  - unfold Virt.get_xml.
    erewrite run_bind_ok; [|apply get_conn_ok; exact Hc].
    rewrite run_bind. cbn [Virt.self_conn ps_conn].
    unfold LibvirtConnection.get_xml.
    erewrite run_bind_ok; [|eapply lookup_ok; eassumption].
    unfold virDomain.XMLDesc. cbn [h_conn h_name].
    erewrite call_served; [|exact Hs2|unfold on_domain; rewrite Hd; reflexivity].
    by split.
Qed.

Lemma guest_queries_witness :
  fst (run demo_hv (Params None None (Some "beta"%string) (Some "status"%string)
                           None None demo_uri None))
  = Ok (VIRT_SUCCESS, [("status"%string, VStr "paused")]).
Proof.
  exact (proj1 (proj1 (guest_queries demo_hv
    (Params None None (Some "beta"%string) (Some "status"%string) None None
            demo_uri None)
    "beta" (demo_domain 3 true (demo_xml "beta")) _
    eq_refl ltac:(discriminate) eq_refl eq_refl demo_connects eq_refl)
    eq_refl eq_refl eq_refl)).
Defined.

(** The [list_vms] query with a state: the names of the domains in that state
    are answered under the key [list_vms]; a guest name or an autostart
    argument that comes with it is not looked at. *)
Theorem list_vms_query h p oc :
  truthy (p_state p) = true -> p_command p = Some "list_vms"%string ->
  connects h (p_uri p) oc -> served h RListAllDomains ->
  fst (run h p)
  = Ok (VIRT_SUCCESS,
        [("list_vms"%string, VList (map VStr (listed_names h (p_state p))))]).
Proof.
  intros Hst Hcmd Hc Hl. unfold run, core.
  rewrite Hst, Hcmd, bool_decide_eq_true_2 by done.
  cbn [andb]. rewrite run_bind. unfold initial.
  destruct (list_vms_run_conn h (p_uri p) oc (p_state p) None [] [] Hc Hl)
    as [tr' ->].
  reflexivity.
Qed.

Lemma list_vms_query_witness :
  fst (run demo_hv (Params (Some "paused"%string) (Some false) (Some "alpha"%string)
                           (Some "list_vms"%string) None None demo_uri None))
  = Ok (VIRT_SUCCESS, [("list_vms"%string, VList [VStr "beta"])]).
Proof.
  exact (list_vms_query demo_hv
    (Params (Some "paused"%string) (Some false) (Some "alpha"%string)
            (Some "list_vms"%string) None None demo_uri None)
    _ eq_refl eq_refl demo_connects eq_refl).
Defined.

(** ** Where an invocation can fail *)

(** Every message [m] can end the module with satisfies [ok]. *)
Definition fails_only {A} (ok : string -> Prop) (m : M A) : Prop :=
  forall s msg, fst (m s) = FailJson msg -> ok msg.

Lemma fails_only_ret {A} ok (a : A) : fails_only ok (mret a).
Proof. intros s msg. discriminate. Qed.

Lemma fails_only_raise {A} ok e : fails_only ok (raise e : M A).
Proof. intros s msg. discriminate. Qed.

Lemma fails_only_fail_json {A} (ok : string -> Prop) msg :
  ok msg -> fails_only ok (fail_json msg : M A).
Proof. intros H s msg' [= <-]. exact H. Qed.

Lemma fails_only_bind {A B} ok (m : M A) (k : A -> M B) :
  fails_only ok m -> (forall a, fails_only ok (k a)) -> fails_only ok (m ≫= k).
Proof.
  intros Hm Hk s msg. rewrite run_bind. specialize (Hm s).
  destruct (m s) as [[a|e|msg'] s']; cbn [fst] in *.
  - apply Hk.
  - discriminate.
  - intros [= <-]. by apply Hm.
Qed.

Lemma fails_only_try_except {A} ok (m : M A) handler :
  fails_only ok m ->
  (forall e h, handler e = Some h -> fails_only ok h) ->
  fails_only ok (try_except m handler).
Proof.
  intros Hm Hh s msg. unfold try_except. specialize (Hm s).
  destruct (m s) as [[a|e|msg'] s']; cbn [fst] in *.
  - discriminate.
  - destruct (handler e) as [h|] eqn:He; [by eapply Hh|discriminate].
  - exact (Hm msg).
Qed.

Lemma fails_only_call {A} ok c rq (sem : hypervisor -> libvirt_error + (A * hypervisor)) :
  fails_only ok (call c rq sem).
Proof.
  intros [h cn tr w] msg. unfold call. rewrite run_bind.
  cbn [emit ps_hv ps_conn ps_trace ps_warnings]. rewrite run_bind. cbn [get_hv ps_hv].
  destruct (hv_fault h rq); [discriminate|].
  destruct (sem h) as [e|[a h']]; discriminate.
Qed.

Lemma fails_only_self_conn ok : fails_only ok Virt.self_conn.
Proof. intros s msg. unfold Virt.self_conn. destruct (ps_conn s); discriminate. Qed.

Lemma fails_only_init ok uri : fails_only ok (LibvirtConnection.init uri).
Proof.
  intros [h cn tr w] msg. unfold LibvirtConnection.init.
  rewrite run_bind. cbn [get_hv ps_hv]. rewrite run_bind.
  destruct (str_contains "xen" (hv_uname h)).
  - rewrite run_ret. destruct (hv_open h OpenDefault); discriminate.
  - destruct uri as [u|]; [|discriminate].
    destruct (str_contains "esx" u); rewrite run_ret;
      match goal with |- context [hv_open h ?oc] => destruct (hv_open h oc) end;
      discriminate.
Qed.

Lemma fails_only_get_conn ok uri : fails_only ok (Virt.get_conn uri).
Proof.
  unfold Virt.get_conn. apply fails_only_bind; [apply fails_only_init|].
  intros c s msg. discriminate.
Qed.

Lemma fails_only_set_self_conn ok c : fails_only ok (Virt.set_self_conn c).
Proof. intros s msg. discriminate. Qed.

Lemma fails_only_find_vm ok c g : fails_only ok (LibvirtConnection.find_vm c g).
Proof.
  unfold LibvirtConnection.find_vm, virConnect.listAllDomains.
  apply fails_only_bind; [apply fails_only_call|]. intros vms.
  destruct (List.find _ vms); [apply fails_only_ret|apply fails_only_raise].
Qed.

(** Takes a computation of [Virt] or of the connection apart. *)
Ltac fails_step :=
  first
    [ apply fails_only_ret | apply fails_only_raise | apply fails_only_call
    | apply fails_only_self_conn | apply fails_only_get_conn
    | apply fails_only_set_self_conn | apply fails_only_find_vm
    | apply fails_only_bind; [|intros ?]
    | match goal with
      | |- fails_only _ (if ?c then _ else _) => destruct c
      end ].

Ltac fails_auto := repeat fails_step.

Lemma fails_only_list_vms_loop ok state vms :
  forall results, fails_only ok (Virt.list_vms_loop state results vms).
Proof.
  induction vms as [|x vms IH]; intros results; cbn [Virt.list_vms_loop];
    [apply fails_only_ret|].
  apply fails_only_bind; [|intros r; apply IH].
  unfold Virt.list_vms_step. apply fails_only_try_except.
  - unfold LibvirtConnection.get_status2, virDomain.info. fails_auto.
  - intros e h [= <-]. apply fails_only_ret.
Qed.

Lemma fails_only_list_vms ok uri state : fails_only ok (Virt.list_vms uri state).
Proof.
  unfold Virt.list_vms, LibvirtConnection.find_vm_all, virConnect.listAllDomains.
  do 3 (apply fails_only_bind; [fails_auto|intros ?]).
  apply fails_only_bind; [apply fails_only_call|intros ?].
  apply fails_only_list_vms_loop.
Qed.

Lemma fails_only_state_loop ok vms :
  forall acc, fails_only ok (Virt.state_loop acc vms).
Proof.
  induction vms as [|x vms IH]; intros acc; cbn [Virt.state_loop];
    [apply fails_only_ret|].
  unfold LibvirtConnection.get_status, virDomain.info.
  do 2 (apply fails_only_bind; [fails_auto|intros ?]). apply IH.
Qed.

Lemma fails_only_info_loop ok vms :
  forall acc, fails_only ok (Virt.info_loop acc vms).
Proof.
  induction vms as [|x vms IH]; intros acc; cbn [Virt.info_loop];
    [apply fails_only_ret|].
  unfold LibvirtConnection.get_autostart, virConnect.lookupByName,
    virDomain.info, virDomain.autostart.
  do 5 (apply fails_only_bind; [fails_auto|intros ?]). apply IH.
Qed.

Lemma fails_only_autostart ok uri g a : fails_only ok (Virt.autostart uri g a).
Proof.
  unfold Virt.autostart, LibvirtConnection.get_autostart,
    LibvirtConnection.set_autostart, virConnect.lookupByName,
    virDomain.autostart, virDomain.setAutostart.
  fails_auto.
Qed.

Lemma fails_only_status ok uri g : fails_only ok (Virt.status uri g).
Proof.
  unfold Virt.status, LibvirtConnection.get_status, virDomain.info. fails_auto.
Qed.

Lemma fails_only_lifecycle ok uri g :
  fails_only ok (Virt.shutdown uri g) /\ fails_only ok (Virt.pause uri g) /\
  fails_only ok (Virt.unpause uri g) /\ fails_only ok (Virt.create uri g) /\
  fails_only ok (Virt.start uri g) /\ fails_only ok (Virt.destroy uri g).
Proof.
  unfold Virt.shutdown, Virt.pause, Virt.unpause, Virt.start, Virt.create,
    Virt.destroy, LibvirtConnection.shutdown, LibvirtConnection.suspend,
    LibvirtConnection.resume, LibvirtConnection.create,
    LibvirtConnection.destroy, virDomain.shutdown, virDomain.suspend,
    virDomain.resume, virDomain.create, virDomain.destroy.
  repeat split; fails_auto.
Qed.

Lemma fails_only_state ok uri : fails_only ok (Virt.state uri).
Proof.
  unfold Virt.state. apply fails_only_bind; [apply fails_only_list_vms|].
  intros vms. apply fails_only_state_loop.
Qed.

Lemma fails_only_info ok uri : fails_only ok (Virt.info uri).
Proof.
  unfold Virt.info. apply fails_only_bind; [apply fails_only_list_vms|].
  intros vms. apply fails_only_info_loop.
Qed.

Lemma fails_only_host ok uri :
  fails_only ok (Virt.nodeinfo uri) /\ fails_only ok (Virt.virttype uri) /\
  fails_only ok (Virt.freemem uri).
Proof.
  unfold Virt.nodeinfo, Virt.virttype, Virt.freemem, LibvirtConnection.nodeinfo,
    LibvirtConnection.get_type, LibvirtConnection.getFreeMemory,
    virConnect.getInfo, virConnect.getType, virConnect.getFreeMemory.
  repeat split; fails_auto.
Qed.

Lemma fails_only_get_xml ok uri g : fails_only ok (Virt.get_xml uri g).
Proof.
  unfold Virt.get_xml, LibvirtConnection.get_xml, virConnect.lookupByName,
    virDomain.XMLDesc.
  fails_auto.
Qed.

Lemma fails_only_undefine ok uri g flag : fails_only ok (Virt.undefine uri g flag).
Proof.
  unfold Virt.undefine, LibvirtConnection.undefine, virDomain.undefineFlags.
  fails_auto.
Qed.

Lemma fails_only_get_vm ok uri g : fails_only ok (Virt.get_vm uri g).
Proof. unfold Virt.get_vm. fails_auto. Qed.

Lemma fails_only_define ok uri xml : fails_only ok (Virt.define uri xml).
Proof.
  unfold Virt.define, LibvirtConnection.define_from_xml, virConnect.defineXML.
  fails_auto.
Qed.

(** What [getattr] hands back never ends the module when called. *)
Definition attribute_never_fails (ok : string -> Prop) (a : Virt.attribute) : Prop :=
  match a with
  | Virt.Method0 m => fails_only ok m
  | Virt.Method1 m => forall g, fails_only ok (m g)
  | _ => True
  end.

Lemma getattr_run ok uri cmd s :
  exists a,
    Virt.getattr uri cmd s = (Ok a, s) /\ attribute_never_fails ok a /\
    (a = Virt.Missing -> ~ In cmd virt_names).
Proof.
  unfold Virt.getattr.
  repeat match goal with
         | |- context [if String.eqb cmd ?c then _ else _] =>
             destruct (String.eqb_spec cmd c) as [->|?];
             [eexists; split; [reflexivity|split; [|discriminate]]|]
         end.
  all: try (cbn [attribute_never_fails]; try intros ?;
            apply fails_only_bind; [|intros ?; apply fails_only_ret]).
  all: try first
    [ apply fails_only_state | apply fails_only_info | apply fails_only_list_vms
    | apply (fails_only_host ok uri) | apply fails_only_status
    | apply fails_only_get_xml
    | apply (fails_only_lifecycle ok uri) ].
  cbn [existsb].
  repeat match goal with
         | |- context [String.eqb cmd ?c] =>
             destruct (String.eqb_spec cmd c) as [->|?]
         end;
    cbn [orb]; cbv beta;
    try (eexists; split; [reflexivity|split; [exact I|discriminate]]).
  - destruct (ps_conn s);
      (eexists; split; [reflexivity|split; [exact I|]]); [discriminate|].
    intros _. cbn. intuition discriminate.
  - eexists. split; [reflexivity|]. split; [exact I|]. intros _. cbn. intuition.
Qed.

Lemma fails_only_getattr_bind {B} ok uri cmd (k : Virt.attribute -> M B) :
  (forall a, attribute_never_fails ok a ->
             (a = Virt.Missing -> ~ In cmd virt_names) -> fails_only ok (k a)) ->
  fails_only ok (Virt.getattr uri cmd ≫= k).
Proof.
  intros Hk s msg. rewrite run_bind.
  destruct (getattr_run ok uri cmd s) as (a & -> & Ha & Hm). by apply Hk.
Qed.

Lemma fails_only_fail_bind {A B} (ok : string -> Prop) msg (k : A -> M B) :
  ok msg -> fails_only ok (fail_json msg ≫= k).
Proof. intros H s msg'. rewrite run_bind. cbn. intros [= <-]. exact H. Qed.

Lemma truthy_is_some o : truthy o = true -> exists s, o = Some s /\ s <> ""%string.
Proof.
  destruct o as [s|]; [|discriminate]. cbn. intros H. exists s. split; [done|].
  intros ->. discriminate.
Qed.

(** The messages [core] ends the module with, each with what brings it
    about. *)
Inductive core_failure (p : params) : string -> Prop :=
| fail_autostart_name :
    p_autostart p <> None -> truthy (p_name p) = false ->
    core_failure p "autostart requires 1 argument: name"
| fail_autostart_domain g :
    p_autostart p <> None -> p_name p = Some g ->
    core_failure p ("domain " +:+ g +:+ " not found")
| fail_state_guest :
    truthy (p_state p) = true -> truthy (p_name p) = false ->
    core_failure p "state change requires a guest specified"
| fail_state st :
    p_state p = Some st ->
    ~ In st ["running"; "shutdown"; "destroyed"; "paused"]%string ->
    core_failure p "unexpected state"
| fail_define_xml :
    p_command p = Some "define"%string -> truthy (p_xml p) = false ->
    core_failure p "define requires xml argument"
| fail_define_name xml :
    p_command p = Some "define"%string -> p_xml p = Some xml ->
    re_search_name xml = None ->
    core_failure p "Could not find domain 'name' in xml"
| fail_define_libvirt le :
    p_command p = Some "define"%string -> err_code le <> 9 ->
    core_failure p ("libvirtError: " +:+ err_message le)
| fail_command_guest cmd :
    p_command p = Some cmd -> In cmd VM_COMMANDS -> truthy (p_name p) = false ->
    core_failure p (cmd +:+ " requires 1 argument: guest")
| fail_command_unknown cmd :
    p_command p = Some cmd -> ~ In cmd VM_COMMANDS -> ~ In cmd virt_names ->
    core_failure p ("Command " +:+ cmd +:+ " not recognized")
| fail_nothing :
    truthy (p_state p) = false -> truthy (p_command p) = false ->
    core_failure p "expected state or command parameter to be specified".

Lemma core_autostart_fails p res :
  fails_only (core_failure p) (core_autostart p res).
Proof.
  unfold core_autostart.
  destruct (p_autostart p) as [a|] eqn:Hau; [|apply fails_only_ret].
  assert (Hsome : p_autostart p <> None) by (by rewrite Hau).
  destruct (negb _); [|apply fails_only_ret].
  destruct (truthy (p_name p)) eqn:Hn; cbn [negb].
  2:{ apply fails_only_fail_bind. by constructor. }
  apply truthy_is_some in Hn as (g & Hg & _). rewrite Hg. cbn [str_of].
  apply fails_only_bind; [apply fails_only_ret|intros _].
  apply fails_only_bind.
  - apply fails_only_try_except.
    + apply fails_only_bind; [apply fails_only_get_vm|intros ?; apply fails_only_ret].
    + intros e h He. destruct e; try discriminate. injection He as <-.
      apply fails_only_fail_json. by apply fail_autostart_domain.
  - intros _. apply fails_only_bind; [apply fails_only_autostart|].
    intros ?. apply fails_only_ret.
Qed.

Lemma core_state_fails p res :
  truthy (p_state p) = true -> fails_only (core_failure p) (core_state p res).
Proof.
  intros Hst. unfold core_state.
  destruct (truthy (p_name p)) eqn:Hn; cbn [negb].
  2:{ apply fails_only_fail_bind. by constructor. }
  apply fails_only_bind; [apply fails_only_ret|intros _].
  apply fails_only_bind; [|intros ?; apply fails_only_ret].
  pose proof (fails_only_lifecycle (core_failure p) (p_uri p) (str_of (p_name p)))
    as (Hsh & Hpa & Hun & Hcr & Hsta & Hde).
  pose proof (fails_only_status (core_failure p) (p_uri p) (str_of (p_name p)))
    as Hstatus.
  repeat case_bool_decide.
  1-4: repeat (first [ exact Hstatus | exact Hsh | exact Hpa | exact Hun
                     | exact Hsta | exact Hde | apply fails_only_ret
                     | apply fails_only_bind; [|intros ?]
                     | match goal with
                       | |- fails_only _ (if ?c then _ else _) => destruct c
                       end ]).
  apply truthy_is_some in Hst as (st & Hst & _).
  apply fails_only_fail_json, (fail_state p st Hst).
  rewrite Hst in *. cbn. intuition congruence.
Qed.

Lemma core_define_fails p res :
  p_command p = Some "define"%string ->
  fails_only (core_failure p) (core_define p res).
Proof.
  intros Hcmd. unfold core_define.
  destruct (truthy (p_xml p)) eqn:Hx; cbn [negb].
  2:{ apply fails_only_fail_bind. by constructor. }
  apply truthy_is_some in Hx as (xml & Hxml & _). rewrite Hxml. cbn [str_of].
  apply fails_only_bind; [apply fails_only_ret|intros _].
  apply fails_only_bind.
  { destruct (truthy (p_name p)); [|apply fails_only_ret]. intros s msg. discriminate. }
  intros _.
  destruct (re_search_name xml) as [name|] eqn:Hname.
  2:{ apply fails_only_fail_bind. by eapply fail_define_name. }
  apply fails_only_bind; [apply fails_only_ret|intros domain_name].
  apply fails_only_bind.
  { apply fails_only_try_except.
    - apply fails_only_bind; [apply fails_only_get_vm|intros vm].
      unfold virDomain.XMLDesc. fails_auto.
    - intros e h He. destruct e; try discriminate. injection He as <-.
      apply fails_only_ret. }
  intros existing. apply fails_only_bind.
  { apply fails_only_try_except.
    - apply fails_only_bind; [apply fails_only_define|intros domain].
      unfold virDomain.XMLDesc. fails_auto.
    - intros e h He. destruct e as [|le| | | |]; try discriminate. injection He as <-.
      destruct (Z.eqb_spec (err_code le) 9); cbn [negb]; [apply fails_only_ret|].
      apply fails_only_fail_json. by apply fail_define_libvirt. }
  intros res'. destruct (p_autostart p); [|apply fails_only_ret].
  apply fails_only_bind; [apply fails_only_autostart|].
  intros []; apply fails_only_ret.
Qed.

Lemma undefine_flag_fails ok flags force : fails_only ok (undefine_flag flags force).
Proof.
  unfold undefine_flag. destruct flags as [fl|].
  - apply fails_only_bind.
    + case_bool_decide; [|apply fails_only_ret]. intros s msg. discriminate.
    + intros _. fails_auto.
  - fails_auto.
Qed.

Lemma core_command_fails p res :
  truthy (p_command p) = true ->
  fails_only (core_failure p) (core_command p res).
Proof.
  intros Hcmd. apply truthy_is_some in Hcmd as (cmd & Hcmd & _).
  unfold core_command. rewrite Hcmd. cbn [str_of].
  destruct (py_in cmd VM_COMMANDS) eqn:Hvm.
  - apply fails_only_bind; [|intros ?; apply fails_only_ret].
    destruct (String.eqb_spec cmd "define") as [->|_].
    { by apply core_define_fails. }
    destruct (truthy (p_name p)) eqn:Hn; cbn [negb].
    2:{ apply fails_only_fail_json. apply fail_command_guest; [done| |done].
        by apply py_in_In. }
    destruct (String.eqb cmd "undefine").
    { apply fails_only_bind; [apply undefine_flag_fails|intros flag].
      apply fails_only_bind; [apply fails_only_undefine|intros ?].
      apply fails_only_ret. }
    apply fails_only_getattr_bind. intros a Ha _.
    destruct a; try apply fails_only_raise.
    apply fails_only_bind; [apply Ha|intros ?; apply fails_only_ret].
  - apply fails_only_getattr_bind. intros a Ha Hm.
    destruct a; try apply fails_only_raise.
    + apply fails_only_bind; [apply Ha|intros ?; apply fails_only_ret].
    + apply fails_only_fail_json. apply fail_command_unknown; [done| |by apply Hm].
      rewrite <- py_in_In, Hvm. discriminate.
Qed.

Lemma core_fails p : fails_only (core_failure p) (core p).
Proof.
  unfold core.
  destruct (truthy (p_state p) && _).
  { apply fails_only_bind; [apply fails_only_list_vms|intros ?; apply fails_only_ret]. }
  apply fails_only_bind; [apply core_autostart_fails|intros res].
  match goal with
  | |- context [if ?c then mret _ else _] => destruct c
  end; [apply fails_only_ret|].
  destruct (truthy (p_state p)) eqn:Hst; [by apply core_state_fails|].
  destruct (truthy (p_command p)) eqn:Hcmd; [by apply core_command_fails|].
  apply fails_only_fail_json. by constructor.
Qed.

(** Whenever an invocation ends the module with a message, the message is
    one of the ten of [core], and what brings it about holds of the
    parameters: the methods of [Virt] and of the connection never end the
    module themselves, they raise. *)
Theorem failure_has_cause h p msg :
  str_prefix "_" (str_of (p_command p)) = false ->
  fst (run h p) = FailJson msg -> core_failure p msg.
Proof. intros _ H. exact (core_fails p (initial h) msg H). Qed.

Lemma failure_has_cause_witness :
  core_failure (Params (Some "running"%string) None None None None None demo_uri None)
               "state change requires a guest specified".
Proof.
  exact (failure_has_cause demo_hv
    (Params (Some "running"%string) None None None None None demo_uri None)
    _ eq_refl eq_refl).
Defined.

(** The tokens the argument specification of [main] lets through. *)
Definition declared_states : list string :=
  ["destroyed"; "paused"; "running"; "shutdown"]%string.

(** With a state and a command among those [main] declares, neither
    "unexpected state" nor "Command ... not recognized" can be the outcome:
    every declared state has its branch, and every declared command is a
    command on a guest or a name of [Virt]. *)
Theorem declared_choices_have_branches h p msg :
  match p_state p with Some st => In st declared_states | None => True end ->
  match p_command p with Some cmd => In cmd ALL_COMMANDS | None => True end ->
  fst (run h p) = FailJson msg ->
  String.eqb msg "unexpected state" = false /\
  str_prefix "Command " msg = false.
Proof.
  intros Hst Hcmd Hrun.
  destruct (core_fails p (initial h) msg Hrun)
    as [| | |st Hs Hno| | | |cmd Hc Hin|cmd Hc Hnvm Hnv|]; try (by split).
  - rewrite Hs in Hst. exfalso. apply Hno. cbn in Hst |- *. tauto.
  - cbn in Hin. by repeat destruct Hin as [<-|Hin].
  - rewrite Hc in Hcmd. exfalso. unfold ALL_COMMANDS in Hcmd.
    apply in_app_or in Hcmd as [Hvm|Hhost]; [by apply Hnvm|].
    apply Hnv. cbn in Hhost |- *. tauto.
Qed.

Lemma declared_choices_have_branches_witness :
  String.eqb "state change requires a guest specified" "unexpected state" = false /\
  str_prefix "Command " "state change requires a guest specified" = false.
Proof.
  exact (declared_choices_have_branches demo_hv
    (Params (Some "running"%string) None None None None None demo_uri None)
    _ ltac:(cbn; tauto) I eq_refl).
Defined.

(** ** A hypervisor that cannot be reached *)


Section Unreachable.

Variable h : hypervisor.

(** Whatever way the connection is opened, no connection comes back. *)
Hypothesis no_connection : forall oc, hv_open h oc <> OpenOk.

























End Unreachable.



